(** * binbuild: a shallow embedding of the build orchestrator

    The development follows the TypeScript sources of the package:
    [strip_dirs.ts], [unarchive.ts], [download.ts] and [builder.ts].
    Strings are [string], byte contents are [list byte], JavaScript numbers
    that are used as counters or levels are integers ([Z]), and the effects
    of the asynchronous code (file system, network, child processes) are
    threaded through an explicit state-and-exception monad. *)

From Stdlib Require Import Bool Ascii String List ZArith Lia DecimalString.
From Stdlib Require Import Permutation.
From Stdlib.Strings Require Import Byte.
Import ListNotations.

Local Open Scope string_scope.
Local Open Scope list_scope.
Local Open Scope Z_scope.

(* ===================================================================== *)
(** ** Node's [path] module, POSIX flavour                                *)
(* ===================================================================== *)

(** [strip_dirs.ts] and [unarchive.ts] rely on [path.dirname],
    [path.basename], [path.join] and [path.sep].  The functions below follow
    the POSIX implementation of Node ([lib/path.js]): [dirname] and
    [basename] scan the characters from the right, [normalize] resolves the
    segments separated by [/]. *)

Module Path.

Definition sep : string := "/".

Definition is_sep (c : ascii) : bool := Ascii.eqb c "/".
Definition not_sep (c : ascii) : bool := negb (is_sep c).

Definition chars (s : string) : list ascii := list_ascii_of_string s.
Definition str (l : list ascii) : string := string_of_list_ascii l.

Fixpoint dropWhile (f : ascii -> bool) (l : list ascii) : list ascii :=
  match l with
  | [] => []
  | c :: l' => if f c then dropWhile f l' else l
  end.

Fixpoint takeWhile (f : ascii -> bool) (l : list ascii) : list ascii :=
  match l with
  | [] => []
  | c :: l' => if f c then c :: takeWhile f l' else []
  end.

(** [s.split("/")]: the segments between separators; the empty string
    splits into one empty segment. *)
Fixpoint split (s : string) : list string :=
  match s with
  | EmptyString => [EmptyString]
  | String c s' =>
      if is_sep c then EmptyString :: split s'
      else match split s' with
           | x :: xs => String c x :: xs
           | [] => [String c EmptyString]
           end
  end.

(** [path.dirname]: index 0 is never inspected by the loop; trailing
    separators are skipped, then the last segment, and the path is cut at
    the separator found there ([end]). *)
Definition dirname (path : string) : string :=
  match chars path with
  | [] => "."
  | c0 :: rest =>
      let hasRoot := is_sep c0 in
      match dropWhile not_sep (dropWhile is_sep (rev rest)) with
      | [] => if hasRoot then "/" else "."
      | _ :: before =>
          if hasRoot && (Nat.eqb (List.length before) 0) then "//"
          else str (c0 :: rev before)
      end
  end.

(** [path.basename] without suffix: the last non-empty segment. *)
Definition basename (path : string) : string :=
  str (rev (takeWhile not_sep (dropWhile is_sep (rev (chars path))))).

(** [normalizeString]: one step per segment.  Empty and [.] segments are
    skipped; [..] removes the previous segment when there is one that is
    not itself [..], and is kept only when [allowAboveRoot]. [res] is the
    output so far, last segment first. *)
Fixpoint normalizeSegs (allowAboveRoot : bool) (segs res : list string)
  : list string :=
  match segs with
  | [] => rev res
  | s :: segs' =>
      if String.eqb s "" || String.eqb s "." then
        normalizeSegs allowAboveRoot segs' res
      else if String.eqb s ".." then
        match res with
        | r :: res' =>
            if String.eqb r ".." then
              normalizeSegs allowAboveRoot segs'
                (if allowAboveRoot then ".." :: res else res)
            else normalizeSegs allowAboveRoot segs' res'
        | [] =>
            normalizeSegs allowAboveRoot segs'
              (if allowAboveRoot then [".."] else [])
        end
      else normalizeSegs allowAboveRoot segs' (s :: res)
  end.

Definition isAbsolute (path : string) : bool :=
  match path with
  | String c _ => is_sep c
  | EmptyString => false
  end.

Definition endsWithSep (path : string) : bool :=
  match rev (chars path) with
  | c :: _ => is_sep c
  | [] => false
  end.

(** [path.normalize]. *)
Definition normalize (path : string) : string :=
  if String.eqb path "" then "."
  else
    let isAbs := isAbsolute path in
    let trailingSeparator := endsWithSep path in
    let p := String.concat "/" (normalizeSegs (negb isAbs) (split path) []) in
    if String.eqb p "" then
      if isAbs then "/" else if trailingSeparator then "./" else "."
    else
      ((if isAbs then "/" else "") ++
       p ++ (if trailingSeparator then "/" else ""))%string.

(** [path.join(...args)]: zero-length arguments are ignored, the others
    are glued with [/] and the result is normalized. *)
Definition join (args : list string) : string :=
  match filter (fun a => negb (String.eqb a "")) args with
  | [] => "."
  | parts => normalize (String.concat "/" parts)
  end.

End Path.

(* ===================================================================== *)
(** ** [strip_dirs.ts]                                                    *)
(* ===================================================================== *)

(** [dirs.pop()], [n] times; popping an empty array does nothing. *)
Fixpoint popN (n : nat) (dirs : list string) : list string :=
  match n with
  | O => dirs
  | S n' => popN n' (removelast dirs)
  end.

(** [stripDirs(dir, level)].  The loop [for(i = 0; i < level; i++)] runs
    [level] times for a non-negative integer level and not at all for a
    negative one. *)
Definition stripDirs (dir : string) (level : Z) : string :=
  let dirs := Path.split (Path.dirname dir) in
  let base := Path.basename dir in
  if Z.of_nat (List.length dirs) <? level then
    Path.join (dirs ++ [base])
  else
    Path.join (popN (Z.to_nat level) dirs ++ [base]).

(* ===================================================================== *)
(** ** JavaScript values: errors, results, numbers in templates           *)
(* ===================================================================== *)

(** An [Error] object.  Errors raised by the host's file system carry a
    [code] ([ENOENT], [ENOTDIR], ...); errors made with [new Error(msg)] have
    none. *)
Record Error : Type := mkError { code : option string; message : string }.

Definition newError (msg : string) : Error := mkError None msg.

Definition sysError (c : string) (what : string) : Error :=
  mkError (Some c) (c ++ ": " ++ what)%string.

(** [`${err}`] for an [Error]. *)
Definition toString (e : Error) : string := ("Error: " ++ message e)%string.

(** [`${n}`] for an integer. *)
Definition showZ (n : Z) : string := NilEmpty.string_of_int (Z.to_int n).

Inductive Result (A : Type) : Type :=
| Ok (a : A)
| Throw (e : Error).
Arguments Ok {A} a.
Arguments Throw {A} e.

Definition hasCode (c : string) (e : Error) : bool :=
  match code e with
  | Some c' => String.eqb c c'
  | None => false
  end.

(* ===================================================================== *)
(** ** The file system                                                    *)
(* ===================================================================== *)

(** A directory tree.  The entries of a directory are kept in the order in
    which [readdir] lists them. *)
Unset Elimination Schemes.
Inductive node : Type :=
| File (data : list byte)
| Dir (entries : list (string * node)).
Set Elimination Schemes.

Definition isDirectory (n : node) : bool :=
  match n with Dir _ => true | File _ => false end.

Module FS.

Fixpoint assoc (x : string) (es : list (string * node)) : option node :=
  match es with
  | [] => None
  | (y, n) :: es' => if String.eqb x y then Some n else assoc x es'
  end.

(** Replace the entry [x] where it stands, or add it at the end. *)
Fixpoint set (x : string) (v : node) (es : list (string * node))
  : list (string * node) :=
  match es with
  | [] => [(x, v)]
  | (y, n) :: es' =>
      if String.eqb x y then (x, v) :: es' else (y, n) :: set x v es'
  end.

Fixpoint unset (x : string) (es : list (string * node))
  : list (string * node) :=
  match es with
  | [] => []
  | (y, n) :: es' =>
      if String.eqb x y then unset x es' else (y, n) :: unset x es'
  end.

(** The node at a path given by its components from the root. *)
Fixpoint stat (p : list string) (n : node) : Result node :=
  match p with
  | [] => Ok n
  | x :: p' =>
      match n with
      | File _ => Throw (sysError "ENOTDIR" x)
      | Dir es =>
          match assoc x es with
          | Some c => stat p' c
          | None => Throw (sysError "ENOENT" x)
          end
      end
  end.

(** Write [v] at [p]; the parent of [p] has to be a directory. *)
Fixpoint put (p : list string) (v : node) (n : node) : Result node :=
  match p with
  | [] => Ok v
  | x :: p' =>
      match n with
      | File _ => Throw (sysError "ENOTDIR" x)
      | Dir es =>
          match p' with
          | [] => Ok (Dir (set x v es))
          | _ :: _ =>
              match assoc x es with
              | Some c =>
                  match put p' v c with
                  | Ok c' => Ok (Dir (set x c' es))
                  | Throw e => Throw e
                  end
              | None => Throw (sysError "ENOENT" x)
              end
          end
      end
  end.

(** Remove the node at [p] with everything below it. *)
Fixpoint del (p : list string) (n : node) : Result node :=
  match p with
  | [] => Throw (sysError "EBUSY" "/")
  | x :: p' =>
      match n with
      | File _ => Throw (sysError "ENOTDIR" x)
      | Dir es =>
          match assoc x es with
          | None => Throw (sysError "ENOENT" x)
          | Some c =>
              match p' with
              | [] => Ok (Dir (unset x es))
              | _ :: _ =>
                  match del p' c with
                  | Ok c' => Ok (Dir (set x c' es))
                  | Throw e => Throw e
                  end
              end
          end
      end
  end.

(** [mkdir] with [recursive: true]: missing directories are created along
    the path, existing ones are kept. *)
Fixpoint mkdirp (p : list string) (n : node) : Result node :=
  match p with
  | [] =>
      match n with
      | Dir _ => Ok n
      | File _ => Throw (sysError "EEXIST" "mkdir")
      end
  | x :: p' =>
      match n with
      | File _ => Throw (sysError "ENOTDIR" x)
      | Dir es =>
          let child := match assoc x es with Some c => c | None => Dir [] end in
          match mkdirp p' child with
          | Ok c' => Ok (Dir (set x c' es))
          | Throw e => Throw e
          end
      end
  end.

Fixpoint is_prefix (p q : list string) : bool :=
  match p, q with
  | [], _ => true
  | x :: p', y :: q' => String.eqb x y && is_prefix p' q'
  | _ :: _, [] => false
  end.

Fixpoint same_path (p q : list string) : bool :=
  match p, q with
  | [], [] => true
  | x :: p', y :: q' => String.eqb x y && same_path p' q'
  | _, _ => false
  end.

(** What [rename(2)] says about the node that is at the new path. *)
Definition clash (moved : node) (target : Result node) : option Error :=
  match target with
  | Throw e => if hasCode "ENOENT" e then None else Some e
  | Ok (File _) =>
      match moved with
      | File _ => None
      | Dir _ => Some (sysError "ENOTDIR" "rename")
      end
  | Ok (Dir []) =>
      match moved with
      | File _ => Some (sysError "EISDIR" "rename")
      | Dir _ => None
      end
  | Ok (Dir (_ :: _)) =>
      match moved with
      | File _ => Some (sysError "EISDIR" "rename")
      | Dir _ => Some (sysError "ENOTEMPTY" "rename")
      end
  end.

(** POSIX [rename]: the node at [src] is moved to [dst] as one unit.  An
    existing [dst] is replaced when it is a file (for a file) or an empty
    directory (for a directory). *)
Definition rename (src dst : list string) (n : node) : Result node :=
  match stat src n with
  | Throw e => Throw e
  | Ok moved =>
      if same_path src dst then Ok n
      else if is_prefix src dst then Throw (sysError "EINVAL" "rename")
      else
        match clash moved (stat dst n) with
        | Some e => Throw e
        | None =>
            match del src n with
            | Throw e => Throw e
            | Ok n1 => put dst moved n1
            end
        end
  end.

(** The components of a path string, read from the working directory
    [cwd] unless the string is absolute. *)
Definition resolve (cwd : list string) (p : string) : list string :=
  Path.normalizeSegs false
    ((if Path.isAbsolute p then [] else cwd) ++ Path.split p) [].

End FS.

(* ===================================================================== *)
(** ** The data model of [builder.ts]                                     *)
(* ===================================================================== *)

(** [Platform] and [Arch] are the string tags of [process.platform] and
    [process.arch]. *)
Definition Platform : Type := string.
Definition Arch : Type := string.

Module Source.
Record t : Type := mk { os : Platform; arch : Arch; url : string }.
End Source.

Module Remap.
Record t : Type := mk { src : string; dest : option string }.
End Remap.

Module Command.
Record t : Type := mk { cmd : string; args : option (list string) }.
End Command.

Record BinBuilder : Type := mkBinBuilder {
  sources : list Source.t;
  destination : string;
  downloaded : list string;
  cmds : list Command.t;
  fileRemaps : list Remap.t
}.

(* ===================================================================== *)
(** ** Program state and effects                                          *)
(* ===================================================================== *)

(** Calls that leave the process: file-system mutations, the network, the
    archive decoders and child processes, in the order in which they are
    made. *)
Inductive Event : Type :=
| EvFetch (url : string)
| EvOpenWrite (dest : string)
| EvWrite (dest : string)
| EvUnlink (path : string)
| EvCopyFile (src dest : string)
| EvMkdir (path : string)
| EvRename (src dest : string)
| EvRemove (path : string)
| EvTar (file cwd : string) (strip : option Z)
| EvZip (file dir : string)
| EvExec (cmd : string) (args : option (list string)) (cwd : string).

(** The [process] object. *)
Record Process : Type := mkProcess {
  platform : Platform;
  arch : Arch;
  cwd : list string
}.

Record State : Type := mkState {
  this : BinBuilder;
  fs : node;
  process : Process;
  trace : list Event;
  tmpCount : nat
}.

Definition with_this (b : BinBuilder) (st : State) : State :=
  mkState b (fs st) (process st) (trace st) (tmpCount st).
Definition with_fs (n : node) (st : State) : State :=
  mkState (this st) n (process st) (trace st) (tmpCount st).
Definition with_event (e : Event) (st : State) : State :=
  mkState (this st) (fs st) (process st) (trace st ++ [e]) (tmpCount st).
Definition with_tmpCount (k : nat) (st : State) : State :=
  mkState (this st) (fs st) (process st) (trace st) k.

(** A computation that reads and changes the state and either returns or
    throws: the body of a function, or the settlement of the promise of an
    [async] function whose [await]s are run in order. *)
Definition M (A : Type) : Type := State -> Result A * State.

Definition ret {A} (a : A) : M A := fun st => (Ok a, st).
Definition throw {A} (e : Error) : M A := fun st => (Throw e, st).
Definition bind {A B} (m : M A) (k : A -> M B) : M B :=
  fun st =>
    match m st with
    | (Ok a, st') => k a st'
    | (Throw e, st') => (Throw e, st')
    end.

(** [try { m } catch(err) { h err }], and [p.catch(h)] on a promise. *)
Definition tryCatch {A} (m : M A) (h : Error -> M A) : M A :=
  fun st =>
    match m st with
    | (Ok a, st') => (Ok a, st')
    | (Throw e, st') => h e st'
    end.

Definition get : M State := fun st => (Ok st, st).
Definition modify (f : State -> State) : M unit := fun st => (Ok tt, f st).
Definition log (e : Event) : M unit := modify (with_event e).
Definition liftResult {A} (r : Result A) : M A := fun st => (r, st).

Declare Scope js_scope.
Delimit Scope js_scope with js.
Notation "x <- m ;; k" := (bind m (fun x => k))
  (at level 100, m at next level, right associativity) : js_scope.
Notation "m ;; k" := (bind m (fun _ => k))
  (at level 100, right associativity) : js_scope.
Local Open Scope js_scope.

(** [for(const x of xs) { await body(x) }]. *)
Fixpoint forEach {A} (xs : list A) (body : A -> M unit) : M unit :=
  match xs with
  | [] => ret tt
  | x :: xs' => body x ;; forEach xs' body
  end.

(** [await Promise.all(tasks)].  All the tasks have been started when
    [Promise.all] is called and none is cancelled when another fails; they
    are run here one after the other in list order, and the promise settles
    with the first rejection if there is one. *)
Fixpoint promiseAll {A} (tasks : list (M A)) : M (list A) :=
  match tasks with
  | [] => ret []
  | t :: tasks' =>
      fun st =>
        match t st with
        | (Ok a, st1) =>
            match promiseAll tasks' st1 with
            | (Ok rest, st2) => (Ok (a :: rest), st2)
            | (Throw e, st2) => (Throw e, st2)
            end
        | (Throw e, st1) => (Throw e, snd (promiseAll tasks' st1))
        end
  end.

(** *** File-system calls of Node's [fs] module *)

(** Node rejects the empty path with [ENOENT]. *)
Definition locate (p : string) : M (list string) :=
  fun st =>
    if String.eqb p "" then (Throw (sysError "ENOENT" p), st)
    else (Ok (FS.resolve (cwd (process st)) p), st).

Definition statNode (p : string) : M node :=
  c <- locate p ;;
  st <- get ;;
  liftResult (FS.stat c (fs st)).

(** Apply a change of the tree, keeping the old tree when it fails. *)
Definition update (f : node -> Result node) : M unit :=
  fun st =>
    match f (fs st) with
    | Ok n => (Ok tt, with_fs n st)
    | Throw e => (Throw e, st)
    end.

(** [fs.promises.access(p)]. *)
Definition access (p : string) : M unit :=
  _ <- statNode p ;; ret tt.

(** [fs.existsSync(p)]. *)
Definition existsSync (p : string) : M bool :=
  tryCatch (_ <- statNode p ;; ret true) (fun _ => ret false).

(** [fs.statSync(p).isDirectory()]. *)
Definition statSyncIsDirectory (p : string) : M bool :=
  n <- statNode p ;; ret (isDirectory n).

(** [fs.mkdirSync(p, { recursive: true })] and its promise twin. *)
Definition mkdirRecursive (p : string) : M unit :=
  log (EvMkdir p) ;;
  c <- locate p ;;
  update (FS.mkdirp c).

(** [rename(src, dest)]. *)
Definition rename (src dest : string) : M unit :=
  log (EvRename src dest) ;;
  s <- locate src ;;
  d <- locate dest ;;
  update (FS.rename s d).

(** [fs.promises.copyFile(src, dest)]. *)
Definition copyFile (src dest : string) : M unit :=
  log (EvCopyFile src dest) ;;
  n <- statNode src ;;
  match n with
  | Dir _ => throw (sysError "EISDIR" src)
  | File data =>
      d <- locate dest ;;
      st <- get ;;
      match FS.stat d (fs st) with
      | Ok (Dir _) => throw (sysError "EISDIR" dest)
      | _ => update (FS.put d (File data))
      end
  end.

(** Writing [data] over the file at [dest], which is made when missing. *)
Definition writeFile (dest : string) (data : list byte) : M unit :=
  d <- locate dest ;;
  st <- get ;;
  match FS.stat d (fs st) with
  | Ok (Dir _) => throw (sysError "EISDIR" dest)
  | _ => update (FS.put d (File data))
  end.

(** [fs.unlinkSync(p)]. *)
Definition unlinkSync (p : string) : M unit :=
  log (EvUnlink p) ;;
  n <- statNode p ;;
  match n with
  | Dir _ => throw (sysError "EISDIR" p)
  | File _ => c <- locate p ;; update (FS.del c)
  end.

(** Recursive removal that tolerates a missing path. *)
Definition removeRecursive (p : string) : M unit :=
  log (EvRemove p) ;;
  c <- locate p ;;
  tryCatch (update (FS.del c)) (fun _ => ret tt).

(** A write stream on [dest].  [fs.createWriteStream(dest)] opens the file
    with flag [w] as soon as the stream is made, which creates it or
    truncates it; an error of that [open] surfaces when the stream is
    used. *)
Record WriteStream : Type := mkWriteStream {
  ws_path : string;
  ws_opened : Result unit
}.

Definition createWriteStream (dest : string) : M WriteStream :=
  log (EvOpenWrite dest) ;;
  fun st =>
    match writeFile dest [] st with
    | (r, st') => (Ok (mkWriteStream dest r), st')
    end.

(** The body of an HTTP response: the bytes that arrive, and the error that
    ends the stream early if there is one. *)
Record Body : Type := mkBody {
  delivered : list byte;
  failure : option Error
}.

(** [pipeline(body, writeStream)]. *)
Definition pipeline (body : Body) (ws : WriteStream) : M unit :=
  match ws_opened ws with
  | Throw e => throw e
  | Ok _ =>
      log (EvWrite (ws_path ws)) ;;
      writeFile (ws_path ws) (delivered body) ;;
      match failure body with
      | Some e => throw e
      | None => ret tt
      end
  end.

(* ===================================================================== *)
(** ** External collaborators                                             *)
(* ===================================================================== *)

(** The result of [new URL(s)], as far as [download.ts] reads it. *)
Record URL : Type := mkURL { protocol : string; pathname : string }.

Record Response : Type := mkResponse {
  ok : bool;
  status : Z;
  statusText : string;
  body : option Body
}.

(** What the code does not define itself: the URL parser, the HTTP client,
    the content sniffer of [file_types], the [tar] and [extract-zip]
    decoders, [execa], and the names of temporary files.  Decoders and child
    processes may change the tree in any way. *)
Record Host : Type := mkHost {
  parseURL : string -> option URL;
  fetch : string -> Result Response;
  getType : list string -> node -> Result string;
  tarExtract : list string -> list string -> option Z -> node -> Result unit * node;
  zipExtract : list string -> string -> node -> Result unit * node;
  execa : string -> option (list string) -> list string -> node -> Result Z * node;
  tmpName : nat -> string
}.

Inductive ArchiveFormat : Type := tar | zip.

Section Program.

Variable H : Host.

(** Run a collaborator that works on the tree. *)
Definition external {A} (f : node -> Result A * node) : M A :=
  fun st => let (r, n) := f (fs st) in (r, with_fs n st).

(* ------------------------------------------------------------------- *)
(** *** [tempfile.ts] *)

(** Modelled from the spec: the unique name that [tempfile.ts], which is not
    among the sources, gives to a temporary resource.  The names come from
    the host; a name that is in use is refused. *)
Definition freshTemp : M string :=
  st <- get ;;
  let temp := tmpName H (tmpCount st) in
  modify (with_tmpCount (S (tmpCount st))) ;;
  exists_ <- existsSync temp ;;
  if exists_ : bool then throw (sysError "EEXIST" temp) else ret temp.

(** Modelled from the spec: the removal that [tempfile.ts] guarantees after
    the task has settled, [try { return await m } finally { cleanup }]; a
    failure of the cleanup does not replace the outcome of the task. *)
Definition finally {A} (m : M A) (cleanup : M unit) : M A :=
  fun st =>
    match m st with
    | (r, st') => (r, snd (cleanup st'))
    end.

(** Modelled from the spec: the allocation of the temporary file by
    [tempFileTask] of [tempfile.ts]. *)
Definition freshTempFile : M string :=
  temp <- freshTemp ;;
  writeFile temp [] ;;
  ret temp.

(** Modelled from the spec: [tempFileTask] of [tempfile.ts], which is not
    among the sources.  A temporary file with a name not in use is made, the
    task runs with its path, and the file is removed after the task has
    settled, whether it returned or threw; the task's outcome is the outcome
    of the whole. *)
Definition tempFileTask {A} (task : string -> M A) : M A :=
  temp <- freshTempFile ;;
  finally (task temp) (removeRecursive temp).

(** Modelled from the spec: the removal of a temporary directory by
    [tempfile.ts], skipped when nothing is left at the path. *)
Definition removeIfPresent (temp : string) : M unit :=
  present <- existsSync temp ;;
  if present : bool then removeRecursive temp else ret tt.

(** Modelled from the spec: the allocation of the temporary directory by
    [tempDirectoryTask] of [tempfile.ts]; the directory is empty. *)
Definition freshTempDir : M string :=
  temp <- freshTemp ;;
  c <- locate temp ;;
  update (FS.put c (Dir [])) ;;
  ret temp.

(** Modelled from the spec: [tempDirectoryTask] of [tempfile.ts], which is
    not among the sources.  As [tempFileTask] for a directory; the removal
    is skipped when nothing is left at the path because the task has moved
    the directory away. *)
Definition tempDirectoryTask {A} (task : string -> M A) : M A :=
  temp <- freshTempDir ;;
  finally (task temp) (removeIfPresent temp).

(* ------------------------------------------------------------------- *)
(** *** [unarchive.ts] *)

(** [extractTar]: the decoder applies [strip] itself. *)
Definition extractTar (filepath dest : string) (strip : option Z) : M unit :=
  log (EvTar filepath dest strip) ;;
  f <- locate filepath ;;
  d <- locate dest ;;
  external (tarExtract H f d strip).

(** [walkDir] below the directory [n] that is at [filepath].  The entries
    are those of [n]; [readdir(entryPath)] of an entry that is a directory
    lists the entries of that child. *)
Fixpoint walkDirIn (n : node) (filepath : string) (maxDepth currDepth : Z)
  {struct n} : Result (list string) :=
  if maxDepth <? currDepth then Ok []
  else
    match n with
    | File _ => Throw (sysError "ENOTDIR" filepath)
    | Dir entries =>
        (fix loop (entries : list (string * node)) (res : list string)
           {struct entries} : Result (list string) :=
           match entries with
           | [] => Ok res
           | (name, entry) :: rest =>
               let entryPath := Path.join [filepath; name] in
               match entry with
               | Dir _ =>
                   if currDepth + 1 <? maxDepth then
                     match walkDirIn entry entryPath maxDepth (currDepth + 1) with
                     | Ok sub => loop rest (res ++ sub)
                     | Throw e => Throw e
                     end
                   else loop rest (res ++ [entryPath])
               | File _ => loop rest (res ++ [entryPath])
               end
           end) entries []
    end.

(** [walkDir(filepath, maxDepth, currDepth)]. *)
Definition walkDir (filepath : string) (maxDepth currDepth : Z)
  : M (list string) :=
  if maxDepth <? currDepth then ret []
  else
    n <- statNode filepath ;;
    liftResult (walkDirIn n filepath maxDepth currDepth).

(** [path.resolve(dest)]. *)
Definition pathResolve (dest : string) : M string :=
  st <- get ;;
  ret ("/" ++ String.concat "/" (FS.resolve (cwd (process st)) dest))%string.

(** The call [zip(filepath, { dir: path.resolve(dest) })]. *)
Definition zipDecode (filepath dest : string) : M unit :=
  dir <- pathResolve dest ;;
  log (EvZip filepath dir) ;;
  f <- locate filepath ;;
  external (zipExtract H f dir).

(** [extractZip]. *)
Definition extractZip (filepath dest : string) (strip : option Z) : M unit :=
  zipDecode filepath dest ;;
  match strip with
  | None => ret tt
  | Some strip =>
      leaves <- walkDir dest (strip + 1) 0 ;;
      forEach leaves (fun leaf =>
        tryCatch
          (let dst := stripDirs leaf strip in
           rename leaf dst)
          (fun err =>
             throw (newError ("Cannot strip " ++ showZ strip ++ " levels for "
                              ++ leaf ++ ": " ++ toString err)%string)))
  end.

(** [extract(filepath, dest, format, strip)]; the two formats are all the
    values of the type [ArchiveFormat]. *)
Definition extract (filepath dest : string) (format : ArchiveFormat)
  (strip : option Z) : M unit :=
  match format with
  | tar => extractTar filepath dest strip
  | zip => extractZip filepath dest strip
  end.

(* ------------------------------------------------------------------- *)
(** *** [download.ts] *)

Definition isURL (pathLike : string) : bool :=
  match parseURL H pathLike with
  | Some _ => true
  | None => false
  end.

Definition isLocalPath (pathLike : string) : bool :=
  if isURL pathLike then
    match parseURL H pathLike with
    | Some url =>
        if negb (String.eqb (protocol url) "file:") then false else true
    | None => true
    end
  else true.

Definition trimLocalURL (pathLike : string) : string :=
  match parseURL H pathLike with
  | Some url => pathname url
  | None => pathLike
  end.

Definition copyLocalFile (src dest : string) : M unit :=
  copyFile src dest.

Definition downloadFromURL (url dest : string) : M unit :=
  resp <- (log (EvFetch url) ;; liftResult (fetch H url)) ;;
  writeStream <- createWriteStream dest ;;
  if negb (ok resp) then
    throw (newError ("HTTP error (" ++ showZ (status resp) ++ "): "
                     ++ statusText resp)%string)
  else
    match body resp with
    | None => throw (newError "Empty response body!")
    | Some body =>
        tryCatch (pipeline body writeStream)
          (fun err =>
             tryCatch (unlinkSync dest) (fun _ => ret tt) ;;
             throw (newError ("Failed to download " ++ url ++ ": "
                              ++ toString err)%string))
    end.

Definition download (url dest : string) : M unit :=
  if isLocalPath url then copyLocalFile (trimLocalURL url) dest
  else downloadFromURL url dest.

(** The [switch(mime)] of [downloadAndExtract]. *)
Definition formatOf (url mime : string) : Result ArchiveFormat :=
  if String.eqb mime "application/gzip" then Ok tar
  else if String.eqb mime "application/x-bzip2" then Ok tar
  else if String.eqb mime "application/zip" then Ok zip
  else Throw (newError ("Unsupported format for " ++ url ++ ": " ++ mime)%string).

(** [getType(temp)] of [file_types.ts], a collaborator that reads the
    file. *)
Definition getTypeOf (temp : string) : M string :=
  t <- locate temp ;;
  st <- get ;;
  liftResult (getType H t (fs st)).

Definition downloadAndExtract (url dest : string) (strip : option Z) : M unit :=
  tempFileTask (fun temp =>
    download url temp ;;
    mime <- getTypeOf temp ;;
    format <- liftResult (formatOf url mime) ;;
    extract temp dest format strip).

End Program.

(* ===================================================================== *)
(** ** [builder.ts]: the class [BinBuilder]                               *)
(* ===================================================================== *)

(** How [build()] ends: the settlement of the promise that [build()]
    returns, the state when it settles, the settlement of the promise of
    [tempDirectoryTask] (which exists once [ensureExist] has returned), and
    the state when everything has settled. *)
Record BuildOutcome : Type := mkBuildOutcome {
  returned : Result unit;
  at_return : State;
  detached : option (Result unit);
  final : State
}.

Definition with_process (p : Process) (st : State) : State :=
  mkState (this st) (fs st) p (trace st) (tmpCount st).

Module Builder.
Section WithHost.

Variable H : Host.

(** [constructor()]. *)
Definition new : BinBuilder := mkBinBuilder [] "" [] [] [].

Definition onThis (f : BinBuilder -> BinBuilder) : M unit :=
  modify (fun st => with_this (f (this st)) st).

(** Modelled from the spec: [osArchPair] of [platform.ts], which is not
    among the sources; the string [OS-ARCH] of the current host. *)
Definition osArchPair : M string :=
  st <- get ;;
  ret (platform (process st) ++ "-" ++ arch (process st))%string.

(** [src(url, os = process.platform, arch = process.arch)]: a default
    value is taken when the argument is [undefined], at the call. *)
Definition src (url : string) (os : option Platform) (arch_ : option Arch)
  : M unit :=
  st <- get ;;
  let os := match os with Some o => o | None => platform (process st) end in
  let arch_ := match arch_ with Some a => a | None => arch (process st) end in
  onThis (fun b =>
    mkBinBuilder (sources b ++ [Source.mk os arch_ url]) (destination b)
      (downloaded b) (cmds b) (fileRemaps b)).

(** [downloadedSrcs()]. *)
Definition downloadedSrcs : M (list string) :=
  st <- get ;; ret (downloaded (this st)).

Definition exist (path : string) : M bool := existsSync path.
Definition isDirectory (path : string) : M bool := statSyncIsDirectory path.
Definition createDir (path : string) : M unit := mkdirRecursive path.

(** [dest()]. *)
Definition dest : M string :=
  st <- get ;; ret (destination (this st)).

(** [dest(dest)]. *)
Definition dest_set (dest : string) : M unit :=
  e <- exist dest ;;
  notDir <- (if e : bool then d <- isDirectory dest ;; ret (negb d)
             else ret false) ;;
  if notDir : bool then
    throw (newError ("Destination " ++ dest ++ " is not a directory")%string)
  else
    onThis (fun b =>
      mkBinBuilder (sources b) dest (downloaded b) (cmds b) (fileRemaps b)).

(** [remaps()]. *)
Definition remaps : M (list Remap.t) :=
  st <- get ;; ret (fileRemaps (this st)).

(** [remaps(remaps)]. *)
Definition remaps_set (remaps : list Remap.t) : M unit :=
  onThis (fun b =>
    mkBinBuilder (sources b) (destination b) (downloaded b) (cmds b) remaps).

(** [commands()]. *)
Definition commands : M (list Command.t) :=
  st <- get ;; ret (cmds (this st)).

(** [commands(cmds)]. *)
Definition commands_set (cmds : list Command.t) : M unit :=
  onThis (fun b =>
    mkBinBuilder (sources b) (destination b) (downloaded b) cmds
      (fileRemaps b)).

(** The helper [exists(filepath)] at the end of the file. *)
Definition exists_ (filepath : string) : M bool :=
  tryCatch (access filepath ;; ret true)
    (fun err => if hasCode "ENOENT" err then ret false else throw err).

(** [getSrcs()]. *)
Definition getSrcs : M (list Source.t) :=
  st <- get ;;
  ret (filter (fun src =>
                 String.eqb (Source.os src) (platform (process st)) &&
                 String.eqb (Source.arch src) (arch (process st)))
         (sources (this st))).

(** [download(dest)]. *)
Definition download (dest : string) : M unit :=
  srcs <- getSrcs ;;
  if Z.of_nat (List.length srcs) <? 1 then
    pair <- osArchPair ;;
    throw (newError ("No binary for " ++ pair)%string)
  else
    _ <- promiseAll (map (fun src =>
           downloadAndExtract H (Source.url src) dest (Some 1) ;;
           onThis (fun b =>
             mkBinBuilder (sources b) (destination b)
               (downloaded b ++ [Source.url src]) (cmds b) (fileRemaps b)))
         srcs) ;;
    ret tt.

(** [ensureExist()]. *)
Definition ensureExist : M unit :=
  d <- dest ;;
  e <- exists_ d ;;
  if e : bool then ret tt
  else
    d <- dest ;;
    createDir d.

(** [execa(cmd.cmd, cmd.args, { ..., cwd: buildDir })], giving the exit
    code. *)
Definition runExeca (cmd : Command.t) (buildDir : string) : M Z :=
  log (EvExec (Command.cmd cmd) (Command.args cmd) buildDir) ;;
  c <- locate buildDir ;;
  external (execa H (Command.cmd cmd) (Command.args cmd) c).

(** The loop over [this.commands()] in [build()]. *)
Definition runCommands (buildDir : string) : M unit :=
  cs <- commands ;;
  forEach cs (fun cmd =>
    exitCode <- runExeca cmd buildDir ;;
    if negb (exitCode =? 0) then
      throw (newError ("Build error: " ++ Command.cmd cmd ++ " returns "
                       ++ showZ exitCode)%string)
    else ret tt).

(** [remap.dest || remap.src]: an absent or empty [dest] gives [src]. *)
Definition destOrSrc (remap : Remap.t) : string :=
  match Remap.dest remap with
  | Some d => if String.eqb d "" then Remap.src remap else d
  | None => Remap.src remap
  end.

(** The [if(this.remaps().length > 0) ... else ...] of [build()]. *)
Definition remapFiles (buildDir : string) : M unit :=
  rs <- remaps ;;
  if 0 <? Z.of_nat (List.length rs) then
    rs <- remaps ;;
    forEach rs (fun remap =>
      d <- dest ;;
      let src := Path.join [buildDir; Remap.src remap] in
      let dst := Path.join [d; destOrSrc remap] in
      let dstDir := Path.dirname dst in
      dstDirExists <- exists_ dstDir ;;
      (if negb dstDirExists then mkdirRecursive dstDir else ret tt) ;;
      rename src dst)
  else
    d <- dest ;;
    rename buildDir d.

(** The task that [build()] hands to [tempDirectoryTask]. *)
Definition buildTask (buildDir : string) : M unit :=
  download buildDir ;;
  runCommands buildDir ;;
  remapFiles buildDir.

(** [build()].  The promise of [tempDirectoryTask] is neither awaited nor
    returned: the promise of [build()] is fulfilled as soon as
    [ensureExist()] has returned, and the task settles on its own. *)
Definition build (st : State) : BuildOutcome :=
  match ensureExist st with
  | (Throw e, st1) => mkBuildOutcome (Throw e) st1 None st1
  | (Ok _, st1) =>
      let (r, st2) := tempDirectoryTask H buildTask st1 in
      mkBuildOutcome (Ok tt) st1 (Some r) st2
  end.

End WithHost.
End Builder.

(* ===================================================================== *)
(** ** [builder.ts], first revision                                       *)
(* ===================================================================== *)

(** The sources keep the first revision of [builder.ts] beside the current
    one.  Its [src], [dest], [commands], [getSrcs], [exist], [isDirectory]
    and [createDir] are the same text as in the current revision; [build],
    [ensureExist] and [download] differ: there is no temporary build
    directory and no remap, the archives are unpacked into the target
    directory, and every promise is awaited. *)
Module BuilderV0.
Section WithHost.

Variable H : Host.

(** [download()]. *)
Definition download : M unit :=
  srcs <- Builder.getSrcs ;;
  if Z.of_nat (List.length srcs) <? 1 then
    pair <- Builder.osArchPair ;;
    throw (newError ("No binary for " ++ pair)%string)
  else
    _ <- promiseAll (map (fun src =>
           d <- Builder.dest ;;
           downloadAndExtract H (Source.url src) d (Some 1) ;;
           Builder.onThis (fun b =>
             mkBinBuilder (sources b) (destination b)
               (downloaded b ++ [Source.url src]) (cmds b) (fileRemaps b)))
         srcs) ;;
    ret tt.

(** [ensureExist()]. *)
Definition ensureExist : M unit :=
  d <- Builder.dest ;;
  e <- existsSync d ;;
  if e : bool then ret tt
  else
    d <- Builder.dest ;;
    Builder.createDir d ;;
    download.

(** [build()]. *)
Definition build : M unit :=
  ensureExist ;;
  cs <- Builder.commands ;;
  forEach cs (fun cmd =>
    d <- Builder.dest ;;
    exitCode <- Builder.runExeca H cmd d ;;
    if negb (exitCode =? 0) then
      throw (newError ("Build error: " ++ Command.cmd cmd ++ " returns "
                       ++ showZ exitCode)%string)
    else ret tt).

End WithHost.
End BuilderV0.

(* ===================================================================== *)
(** ** A sample host                                                      *)
(* ===================================================================== *)

(** A small host on which the program can be run: two web addresses, a
    sniffer that looks at the first byte, decoders that unpack a fixed
    archive, and commands that exit with 0 except [B] and [false], for
    which [execa] rejects. *)
Module Sample.

Definition after (prefix s : string) : option string :=
  if String.prefix prefix s
  then Some (String.substring (String.length prefix)
               (String.length s - String.length prefix) s)
  else None.

(** The URL parser percent-encodes the path of an address and [pathname]
    gives it encoded.  Of the characters that are encoded the sample parser
    knows the space. *)
Fixpoint percentEncode (s : string) : string :=
  match s with
  | EmptyString => EmptyString
  | String c s' =>
      if Ascii.eqb c " " then ("%20" ++ percentEncode s')%string
      else String c (percentEncode s')
  end.

Definition parseURL (s : string) : option URL :=
  match after "file://" s with
  | Some rest => Some (mkURL "file:" (percentEncode rest))
  | None =>
      match after "https://example.com" s with
      | Some rest => Some (mkURL "https:" (percentEncode rest))
      | None => None
      end
  end.

Definition gz : list byte := [x1f; x8b; x08].
Definition pk : list byte := [x50; x4b; x03; x04].

Definition fetch (url : string) : Result Response :=
  if String.eqb url "https://example.com/tool.tgz" then
    Ok (mkResponse true 200 "OK" (Some (mkBody gz None)))
  else if String.eqb url "https://example.com/tool.zip" then
    Ok (mkResponse true 200 "OK" (Some (mkBody pk None)))
  else Ok (mkResponse false 404 "Not Found" (Some (mkBody [] None))).

Definition getType (file : list string) (n : node) : Result string :=
  match FS.stat file n with
  | Ok (File (x1f :: _)) => Ok "application/gzip"
  | Ok (File (x50 :: _)) => Ok "application/zip"
  | Ok (File _) => Ok "text/plain"
  | Ok (Dir _) => Throw (sysError "EISDIR" "read")
  | Throw e => Throw e
  end.

Definition tool : node := File [x23; x21].
Definition readme : node := File [x68; x69].

Definition unpack (entries : list (string * node)) (dir : list string)
  (n : node) : Result unit * node :=
  match FS.stat dir n with
  | Ok (Dir old) =>
      match FS.put dir (Dir (old ++ entries)) n with
      | Ok n' => (Ok tt, n')
      | Throw e => (Throw e, n)
      end
  | Ok (File _) => (Throw (sysError "ENOTDIR" "extract"), n)
  | Throw e => (Throw e, n)
  end.

(** The archive holds [pkg/tool]; [tar] drops the first [strip]
    components itself. *)
Definition tarExtract (file cwd : list string) (strip : option Z) (n : node)
  : Result unit * node :=
  match strip with
  | Some 1 => unpack [("tool", tool)] cwd n
  | _ => unpack [("pkg", Dir [("tool", tool)])] cwd n
  end.

(** The zip archive holds [README] and [pkg/tool]. *)
Definition zipExtract (file : list string) (dir : string) (n : node)
  : Result unit * node :=
  unpack [("README", readme); ("pkg", Dir [("tool", tool)])]
    (FS.resolve [] dir) n.

(** The command line that [execa] puts into its errors. *)
Definition commandLine (cmd : string) (args : option (list string)) : string :=
  String.concat " " (cmd :: match args with Some a => a | None => [] end).

(** [execa] in its default mode, which [builder.ts] does not change: the
    promise is rejected when the command exits with a code other than 0.
    [B] and [false] exit with 1, the other commands with 0. *)
Definition execa (cmd : string) (args : option (list string))
  (cwd : list string) (n : node) : Result Z * node :=
  if String.eqb cmd "B" || String.eqb cmd "false" then
    (Throw (newError ("Command failed with exit code 1: "
                      ++ commandLine cmd args)%string), n)
  else (Ok 0, n).

Definition tmpName (k : nat) : string :=
  ("/tmp/binbuild-" ++ showZ (Z.of_nat k))%string.

Definition host : Host :=
  mkHost parseURL fetch getType tarExtract zipExtract execa tmpName.

Definition linux : Process := mkProcess "linux" "x64" ["work"].

Definition disk : node := Dir [("tmp", Dir []); ("work", Dir [])].

Definition start (b : BinBuilder) : State := mkState b disk linux [] 0.

End Sample.


(* ===================================================================== *)
(** ** Vocabulary of the statements                                       *)
(* ===================================================================== *)

(** A call [src(url, os, arch)] together with the [process] values of the
    host at the time of the call. *)
Record SrcCall : Type := mkSrcCall {
  call_host : Process;
  call_url : string;
  call_os : option Platform;
  call_arch : option Arch
}.

(** The calls made one after the other. *)
Fixpoint registerAll (calls : list SrcCall) (st : State) : State :=
  match calls with
  | [] => st
  | c :: calls' =>
      registerAll calls'
        (snd (Builder.src (call_url c) (call_os c) (call_arch c)
                (with_process (call_host c) st)))
  end.

(** The source that a call stands for: absent tags are those of the host
    that made the call. *)
Definition pinned (c : SrcCall) : Source.t :=
  Source.mk
    (match call_os c with Some o => o | None => platform (call_host c) end)
    (match call_arch c with Some a => a | None => arch (call_host c) end)
    (call_url c).

Definition matchesHost (host : Process) (s : Source.t) : bool :=
  String.eqb (Source.os s) (platform host) &&
  String.eqb (Source.arch s) (arch host).






(** The body of the loop over the leaves in [extractZip]. *)
Definition stripLeaf (strip : Z) (leaf : string) : M unit :=
  tryCatch
    (let dst := stripDirs leaf strip in
     rename leaf dst)
    (fun err =>
       throw (newError ("Cannot strip " ++ showZ strip ++ " levels for "
                        ++ leaf ++ ": " ++ toString err)%string)).


(** The public configuration operations of a [BinBuilder]. *)
Inductive ConfigOp : Type :=
| OpSrc (url : string) (os : option Platform) (arch_ : option Arch)
| OpDest (dest : string)
| OpRemaps (remaps : list Remap.t)
| OpCommands (cmds : list Command.t).

Definition configOp (op : ConfigOp) : M unit :=
  match op with
  | OpSrc url os arch_ => Builder.src url os arch_
  | OpDest dest => Builder.dest_set dest
  | OpRemaps remaps => Builder.remaps_set remaps
  | OpCommands cmds => Builder.commands_set cmds
  end.

(** The state after a sequence of configuration calls; a call that throws
    leaves the builder as it was. *)
Fixpoint configure (ops : list ConfigOp) (st : State) : State :=
  match ops with
  | [] => st
  | op :: ops' => configure ops' (snd (configOp op st))
  end.

(** A call of the tar decoder passes strip level 1. *)
Definition tarStripsOne (e : Event) : Prop :=
  match e with
  | EvTar _ _ strip => strip = Some 1
  | _ => True
  end.

Definition notTar (e : Event) : Prop :=
  match e with
  | EvTar _ _ _ => False
  | _ => True
  end.

(** What [download] does for one matching source. *)
Definition fetchSource (H : Host) (dest : string) (strip : option Z)
  (src : Source.t) : M unit :=
  downloadAndExtract H (Source.url src) dest strip ;;
  Builder.onThis (fun b =>
    mkBinBuilder (sources b) (destination b)
      (downloaded b ++ [Source.url src]) (cmds b) (fileRemaps b)).

Definition isExec (e : Event) : bool :=
  match e with
  | EvExec _ _ _ => true
  | _ => false
  end.

(** Builders on the sample host: one whose only source answers 404, and one
    with the commands [A], [B], [C] of which [B] exits with 1. *)
Definition builder404 : BinBuilder :=
  mkBinBuilder [Source.mk "linux" "x64" "https://example.com/missing.tgz"]
    "out" [] [] [].

Definition builderABC : BinBuilder :=
  mkBinBuilder [Source.mk "linux" "x64" "https://example.com/tool.tgz"]
    "out" []
    [Command.mk "A" None; Command.mk "B" None; Command.mk "C" None] [].

(** The body of the loop over the commands in [build()]. *)
Definition commandStep (H : Host) (buildDir : string) (cmd : Command.t)
  : M unit :=
  exitCode <- Builder.runExeca H cmd buildDir ;;
  if negb (exitCode =? 0) then
    throw (newError ("Build error: " ++ Command.cmd cmd ++ " returns "
                     ++ showZ exitCode)%string)
  else ret tt.

(** The node at a path string in a state. *)
Definition nodeAt (p : string) (st : State) : Result node :=
  FS.stat (FS.resolve (cwd (process st)) p) (fs st).

Definition anyEvent (e : Event) : Prop := True.

Definition builderOK : BinBuilder :=
  mkBinBuilder [Source.mk "linux" "x64" "https://example.com/tool.tgz"]
    "out" [] [Command.mk "A" None] [].

(** Neither a copy of a file nor a request to the network. *)
Definition notCopyNorFetch (e : Event) : Prop :=
  match e with
  | EvCopyFile _ _ | EvFetch _ => False
  | _ => True
  end.

(** What a computation may do to the state besides changing the tree, the
    counter of temporary names and the list of downloaded sources: nothing
    to the process and to the configuration of the builder, and only calls
    that satisfy [P]. *)
Definition evolves (P : Event -> Prop) (st st' : State) : Prop :=
  process st' = process st /\
  sources (this st') = sources (this st) /\
  destination (this st') = destination (this st) /\
  cmds (this st') = cmds (this st) /\
  fileRemaps (this st') = fileRemaps (this st) /\
  exists evs, trace st' = trace st ++ evs /\ Forall P evs.

Definition steps (P : Event -> Prop) {A} (m : M A) : Prop :=
  forall st r st', m st = (r, st') -> evolves P st st'.

(** *** Further vocabulary *)

(** There is a file (not a directory) at the path. *)
Definition isFileAt (p : string) (st : State) : bool :=
  negb (String.eqb p "") &&
  match nodeAt p st with
  | Ok (File _) => true
  | _ => false
  end.

(** The builder with another target directory. *)
Definition withDestination (d : string) (b : BinBuilder) : BinBuilder :=
  mkBinBuilder (sources b) d (downloaded b) (cmds b) (fileRemaps b).

(** What [fs.promises.access] answers for a path. *)
Definition accessOf (p : string) (st : State) : Result node :=
  if String.eqb p "" then Throw (sysError "ENOENT" p) else nodeAt p st.

(** A computation that leaves the builder object as it is. *)
Definition keeps {A} (m : M A) : Prop :=
  forall st r st', m st = (r, st') -> this st' = this st.

Definition isRename (e : Event) : bool :=
  match e with
  | EvRename _ _ => true
  | _ => false
  end.

Definition mkdirOrRename (e : Event) : Prop :=
  match e with
  | EvMkdir _ | EvRename _ _ => True
  | _ => False
  end.

(** The body of the loop over the remaps in [build()]. *)
Definition remapStep (buildDir : string) (remap : Remap.t) : M unit :=
  d <- Builder.dest ;;
  let src := Path.join [buildDir; Remap.src remap] in
  let dst := Path.join [d; Builder.destOrSrc remap] in
  let dstDir := Path.dirname dst in
  dstDirExists <- Builder.exists_ dstDir ;;
  (if negb dstDirExists then mkdirRecursive dstDir else ret tt) ;;
  rename src dst.

(** The rename that a remap asks for. *)
Definition remapRename (buildDir target : string) (remap : Remap.t) : Event :=
  EvRename (Path.join [buildDir; Remap.src remap])
           (Path.join [target; Builder.destOrSrc remap]).

(** The call of [execa] for a command. *)
Definition execEvent (cwd_ : string) (cmd : Command.t) : Event :=
  EvExec (Command.cmd cmd) (Command.args cmd) cwd_.

(** The body of the loop over the commands in the first revision. *)
Definition commandStepV0 (H : Host) (cmd : Command.t) : M unit :=
  d <- Builder.dest ;;
  exitCode <- Builder.runExeca H cmd d ;;
  if negb (exitCode =? 0) then
    throw (newError ("Build error: " ++ Command.cmd cmd ++ " returns "
                     ++ showZ exitCode)%string)
  else ret tt.

(** A host like the sample host whose only address answers 200 with a body
    that breaks off after two bytes. *)
Definition brokenStream : Error := newError "socket hang up".

Definition flakyHost : Host :=
  mkHost Sample.parseURL
    (fun _ => Ok (mkResponse true 200 "OK"
                    (Some (mkBody [x1f; x8b] (Some brokenStream)))))
    Sample.getType Sample.tarExtract Sample.zipExtract Sample.execa
    Sample.tmpName.

(** A host without network. *)
Definition offline : Error := newError "fetch failed".

Definition offlineHost : Host :=
  mkHost Sample.parseURL (fun _ => Throw offline)
    Sample.getType Sample.tarExtract Sample.zipExtract Sample.execa
    Sample.tmpName.

(** A builder with one remap, and a state in which the build directory
    [/tmp/b] holds the file that the remap names. *)
Definition builderRemap : BinBuilder :=
  mkBinBuilder [] "out" [] [] [Remap.mk "tool" (Some "bin/tool")].

Definition remapStart : State :=
  mkState builderRemap
    (Dir [("tmp", Dir [("b", Dir [("tool", Sample.tool)])]);
          ("work", Dir [("out", Dir [])])])
    Sample.linux [] 0.

(** The call of [rename] that [extractZip] makes for a leaf. *)
Definition stripRename (strip : Z) (leaf : string) : Event :=
  EvRename leaf (stripDirs leaf strip).

(** A state in which the target directory [out] already holds a directory
    [tool], and the zip archive of the sample host is at [/tmp/a.zip]. *)
Definition zipClash : State :=
  mkState (mkBinBuilder [] "out" [] [] [])
    (Dir [("tmp", Dir [("a.zip", File Sample.pk)]);
          ("work", Dir [("out", Dir [("tool", Dir [])])])])
    Sample.linux [] 0.

(** [execa] in its default mode, which [builder.ts] leaves as it is,
    rejects when the command exits with a code other than 0: a result that
    it returns carries the exit code 0. *)
Definition rejectsNonZero (H : Host) : Prop :=
  forall cmd args cwd_ n code n',
    execa H cmd args cwd_ n = (Ok code, n') -> code = 0.

(** A disk with a file whose name holds a space. *)
Definition spacedStart : State :=
  mkState Builder.new
    (Dir [("tmp", Dir []); ("work", Dir [("my file", File [x68; x69])])])
    Sample.linux [] 0.

(** A builder whose only source is a zip archive. *)
Definition builderZip : BinBuilder :=
  mkBinBuilder [Source.mk "linux" "x64" "https://example.com/tool.zip"]
    "out" [] [] [].

(** A builder whose only source is for another platform than the sample
    host. *)
Definition builderDarwin : BinBuilder :=
  mkBinBuilder [Source.mk "darwin" "arm64" "https://example.com/tool.tgz"]
    "out" [] [] [].

(* ===================================================================== *)
(** * Properties                                                          *)
(* ===================================================================== *)

(** ** The path functions on some inputs *)

Example dirname_ex1 : Path.dirname "a//b" = "a/". Proof. reflexivity. Qed.
Example dirname_ex2 : Path.dirname "/a" = "/". Proof. reflexivity. Qed.
Example dirname_ex3 : Path.dirname "//a" = "//". Proof. reflexivity. Qed.
Example dirname_ex4 : Path.dirname "out/pkg/bin" = "out/pkg". Proof. reflexivity. Qed.
Example dirname_ex5 : Path.dirname "a/" = ".". Proof. reflexivity. Qed.
Example basename_ex1 : Path.basename "/tmp/x/y.txt/" = "y.txt". Proof. reflexivity. Qed.
Example norm_ex1 : Path.normalize "/a/./b/../../c/" = "/c/". Proof. reflexivity. Qed.
Example norm_ex2 : Path.normalize "../a/../../b" = "../../b". Proof. reflexivity. Qed.
Example join_ex1 : Path.join [""; "tmp"; "build"; "file"] = "tmp/build/file".
Proof. reflexivity. Qed.
Example strip_ex1 : stripDirs "out/pkg/bin" 1 = "out/bin". Proof. reflexivity. Qed.
Example strip_ex3 : stripDirs "a" 3 = "a". Proof. reflexivity. Qed.
Example strip_ex4 : stripDirs "" 0 = ".". Proof. reflexivity. Qed.

(** The leading separator of an absolute path is an empty first component
    for [split], which [path.join] then ignores. *)
Example strip_absolute : stripDirs "/a/b" 0 = "a/b".
Proof. reflexivity. Qed.

(** ** Paths in normal form *)

(** A component of a normalized relative path: not empty, not [.] or [..],
    without separator. *)
Definition segment (s : string) : bool :=
  forallb Path.not_sep (Path.chars s).

Definition proper (s : string) : bool :=
  negb (String.eqb s "") && negb (String.eqb s ".") &&
  negb (String.eqb s "..") && segment s.

Lemma chars_app (a b : string) :
  Path.chars (a ++ b) = Path.chars a ++ Path.chars b.
Proof.
  unfold Path.chars. induction a as [|c a IH]; simpl; [reflexivity|].
  now rewrite IH.
Qed.

Lemma str_chars (s : string) : Path.str (Path.chars s) = s.
Proof. apply string_of_list_ascii_of_string. Qed.

Lemma proper_segment s : proper s = true -> segment s = true.
Proof.
  unfold proper. intros Hp.
  apply andb_true_iff in Hp. tauto.
Qed.

Lemma proper_cons s :
  proper s = true ->
  exists c s', s = String c s' /\ Path.is_sep c = false /\ segment s' = true.
Proof.
  intros Hp. pose proof (proper_segment _ Hp) as Hs.
  destruct s as [|c s'].
  - discriminate Hp.
  - exists c, s'. split; [reflexivity|].
    unfold segment in Hs. simpl in Hs. apply andb_true_iff in Hs.
    destruct Hs as [Hc Hs']. unfold Path.not_sep in Hc.
    apply negb_true_iff in Hc. auto.
Qed.

Lemma split_segment s : segment s = true -> Path.split s = [s].
Proof.
  unfold segment. induction s as [|c s IH]; simpl; [reflexivity|].
  intros Hs. apply andb_true_iff in Hs. destruct Hs as [Hc Hs].
  unfold Path.not_sep in Hc. apply negb_true_iff in Hc. rewrite Hc.
  rewrite (IH Hs). reflexivity.
Qed.

Lemma split_app_sep a r :
  segment a = true ->
  Path.split (a ++ String "/" r) = a :: Path.split r.
Proof.
  unfold segment. induction a as [|c a IH]; simpl; [reflexivity|].
  intros Hs. apply andb_true_iff in Hs. destruct Hs as [Hc Hs].
  unfold Path.not_sep in Hc. apply negb_true_iff in Hc. rewrite Hc.
  rewrite (IH Hs). reflexivity.
Qed.

Lemma concat_cons2 x y l :
  String.concat "/" (x :: y :: l) = (x ++ String "/" (String.concat "/" (y :: l)))%string.
Proof. reflexivity. Qed.

Lemma split_concat xs :
  xs <> [] -> forallb segment xs = true ->
  Path.split (String.concat "/" xs) = xs.
Proof.
  induction xs as [|x xs IH]; [congruence|]. intros _ Hall.
  simpl in Hall. apply andb_true_iff in Hall. destruct Hall as [Hx Hxs].
  destruct xs as [|y l].
  - simpl. now apply split_segment.
  - rewrite concat_cons2, split_app_sep by assumption.
    f_equal. apply IH; [discriminate | assumption].
Qed.

Lemma append_assoc (a b c : string) :
  ((a ++ b) ++ c = a ++ (b ++ c))%string.
Proof. induction a as [|x a IH]; simpl; [reflexivity | now rewrite IH]. Qed.

Lemma append_nil_r (a : string) : (a ++ "")%string = a.
Proof. induction a as [|x a IH]; simpl; [reflexivity | now rewrite IH]. Qed.

Lemma concat_snoc ds leaf :
  ds <> [] ->
  String.concat "/" (ds ++ [leaf]) =
  (String.concat "/" ds ++ String "/" leaf)%string.
Proof.
  induction ds as [|d ds IH]; [congruence|]. intros _.
  destruct ds as [|d' ds].
  - reflexivity.
  - change ((d :: d' :: ds) ++ [leaf]) with (d :: d' :: (ds ++ [leaf])).
    rewrite !concat_cons2.
    change (d' :: ds ++ [leaf]) with ((d' :: ds) ++ [leaf]).
    rewrite IH by discriminate.
    rewrite append_assoc. reflexivity.
Qed.

Lemma forallb_rev (f : ascii -> bool) l :
  forallb f (rev l) = forallb f l.
Proof.
  induction l as [|c l IH]; simpl; [reflexivity|].
  rewrite forallb_app, IH. simpl. rewrite andb_true_r. apply andb_comm.
Qed.

Lemma dropWhile_all f l : forallb f l = true -> Path.dropWhile f l = [].
Proof.
  induction l as [|c l IH]; simpl; [reflexivity|].
  intros Hl. apply andb_true_iff in Hl. destruct Hl as [Hc Hl].
  rewrite Hc. auto.
Qed.

Lemma dropWhile_stop f l x r :
  forallb f l = true -> f x = false ->
  Path.dropWhile f (l ++ x :: r) = x :: r.
Proof.
  induction l as [|c l IH]; simpl; intros Hl Hx.
  - now rewrite Hx.
  - apply andb_true_iff in Hl. destruct Hl as [Hc Hl]. rewrite Hc. auto.
Qed.

Lemma takeWhile_all f l : forallb f l = true -> Path.takeWhile f l = l.
Proof.
  induction l as [|c l IH]; simpl; [reflexivity|].
  intros Hl. apply andb_true_iff in Hl. destruct Hl as [Hc Hl].
  rewrite Hc. f_equal. auto.
Qed.

Lemma takeWhile_stop f l x r :
  forallb f l = true -> f x = false ->
  Path.takeWhile f (l ++ x :: r) = l.
Proof.
  induction l as [|c l IH]; simpl; intros Hl Hx.
  - now rewrite Hx.
  - apply andb_true_iff in Hl. destruct Hl as [Hc Hl]. rewrite Hc.
    f_equal. auto.
Qed.

(** The characters of a proper component read from the right: they start
    with a character that is not a separator and contain none. *)
Lemma proper_rev_chars s :
  proper s = true ->
  forallb Path.not_sep (rev (Path.chars s)) = true /\
  exists c l, rev (Path.chars s) = c :: l /\ Path.is_sep c = false.
Proof.
  intros Hp. pose proof (proper_segment _ Hp) as Hs. unfold segment in Hs.
  assert (Hr : forallb Path.not_sep (rev (Path.chars s)) = true)
    by now rewrite forallb_rev.
  split; [assumption|].
  destruct (rev (Path.chars s)) as [|c l] eqn:E.
  - apply (f_equal (@rev ascii)) in E. rewrite rev_involutive in E.
    destruct s; [discriminate Hp | discriminate E].
  - exists c, l. split; [reflexivity|].
    simpl in Hr. apply andb_true_iff in Hr. destruct Hr as [Hc _].
    unfold Path.not_sep in Hc. now apply negb_true_iff in Hc.
Qed.

Lemma is_sep_slash : Path.is_sep "/" = true.
Proof. reflexivity. Qed.

Lemma not_sep_slash : Path.not_sep "/" = false.
Proof. reflexivity. Qed.

Lemma basename_leaf leaf : proper leaf = true -> Path.basename leaf = leaf.
Proof.
  intros Hp. destruct (proper_rev_chars _ Hp) as [Hall (c & l & E & Hc)].
  unfold Path.basename. rewrite E in *. simpl. rewrite Hc.
  rewrite takeWhile_all by assumption.
  rewrite <- E, rev_involutive. apply str_chars.
Qed.

Lemma basename_snoc d leaf :
  proper leaf = true ->
  Path.basename (d ++ String "/" leaf) = leaf.
Proof.
  intros Hp. destruct (proper_rev_chars _ Hp) as [Hall (c & l & E & Hc)].
  unfold Path.basename. rewrite chars_app. simpl.
  rewrite rev_app_distr. simpl. rewrite <- app_assoc. simpl.
  fold (Path.chars leaf).
  rewrite E in *. simpl. rewrite Hc.
  change (c :: l ++ "/"%char :: rev (Path.chars d))
    with ((c :: l) ++ "/"%char :: rev (Path.chars d)).
  rewrite takeWhile_stop by (assumption || reflexivity).
  rewrite <- E, rev_involutive. apply str_chars.
Qed.

Lemma dirname_leaf leaf : proper leaf = true -> Path.dirname leaf = ".".
Proof.
  intros Hp. destruct (proper_cons _ Hp) as (c & s' & -> & Hc & Hs').
  unfold Path.dirname. simpl. fold (Path.chars s').
  rewrite Hc.
  assert (Hr : forallb Path.not_sep (rev (Path.chars s')) = true)
    by (rewrite forallb_rev; exact Hs').
  destruct (rev (Path.chars s')) as [|x r] eqn:E.
  - reflexivity.
  - simpl in Hr. apply andb_true_iff in Hr. destruct Hr as [Hx Hr].
    assert (Hx' : Path.is_sep x = false)
      by (unfold Path.not_sep in Hx; now apply negb_true_iff in Hx).
    simpl. rewrite Hx'. simpl. rewrite Hx.
    rewrite dropWhile_all by assumption. reflexivity.
Qed.

Lemma dirname_snoc d leaf :
  Path.isAbsolute d = false -> d <> ""%string -> proper leaf = true ->
  Path.dirname (d ++ String "/" leaf) = d.
Proof.
  intros Habs Hne Hp.
  destruct (proper_rev_chars _ Hp) as [Hall (c & l & E & Hc)].
  destruct d as [|c0 d']; [congruence|]. simpl in Habs.
  unfold Path.dirname. simpl. fold (Path.chars (d' ++ String "/" leaf)).
  rewrite chars_app. simpl. fold (Path.chars leaf).
  rewrite rev_app_distr. simpl. rewrite <- app_assoc. simpl.
  rewrite E. simpl. rewrite Hc. simpl.
  assert (Hnc : Path.not_sep c = true)
    by (unfold Path.not_sep; now rewrite Hc).
  rewrite Hnc.
  rewrite E in Hall. simpl in Hall. apply andb_true_iff in Hall.
  destruct Hall as [_ Hl].
  rewrite dropWhile_stop by (assumption || reflexivity).
  rewrite Habs. simpl. rewrite rev_involutive.
  change (Path.str (c0 :: Path.chars d') = String c0 d').
  unfold Path.str. simpl. f_equal. apply str_chars.
Qed.

Lemma proper_not_special s :
  proper s = true ->
  String.eqb s "" = false /\ String.eqb s "." = false /\
  String.eqb s ".." = false.
Proof.
  unfold proper. intros Hp.
  repeat (apply andb_true_iff in Hp; destruct Hp as [Hp ?]).
  repeat split; now apply negb_true_iff.
Qed.

Lemma normalizeSegs_proper a xs res :
  forallb proper xs = true ->
  Path.normalizeSegs a xs res = rev res ++ xs.
Proof.
  revert res. induction xs as [|x xs IH]; intros res Hall; simpl.
  - now rewrite app_nil_r.
  - simpl in Hall. apply andb_true_iff in Hall. destruct Hall as [Hx Hxs].
    destruct (proper_not_special _ Hx) as (-> & -> & ->). simpl.
    rewrite IH by assumption. simpl. now rewrite <- app_assoc.
Qed.

Lemma forallb_proper_segment xs :
  forallb proper xs = true -> forallb segment xs = true.
Proof.
  induction xs as [|x xs IH]; simpl; [reflexivity|].
  intros Hall. apply andb_true_iff in Hall. destruct Hall as [Hx Hxs].
  rewrite (proper_segment _ Hx). auto.
Qed.

Lemma concat_proper_shape xs :
  xs <> [] -> forallb proper xs = true ->
  String.eqb (String.concat "/" xs) "" = false /\
  Path.isAbsolute (String.concat "/" xs) = false.
Proof.
  destruct xs as [|x xs]; [congruence|]. intros _ Hall.
  simpl in Hall. apply andb_true_iff in Hall. destruct Hall as [Hx _].
  destruct (proper_cons _ Hx) as (c & s' & -> & Hc & _).
  destruct xs; simpl; auto.
Qed.

Lemma endsWithSep_proper_last ds leaf :
  proper leaf = true ->
  Path.endsWithSep (String.concat "/" (ds ++ [leaf])) = false.
Proof.
  intros Hp. destruct (proper_rev_chars _ Hp) as [_ (c & l & E & Hc)].
  unfold Path.endsWithSep.
  destruct ds as [|d ds].
  - simpl. now rewrite E.
  - rewrite concat_snoc by discriminate. rewrite chars_app. simpl.
    fold (Path.chars leaf).
    rewrite rev_app_distr. simpl. rewrite <- app_assoc. simpl.
    now rewrite E.
Qed.

(** [path.normalize] leaves a normalized relative path as it is. *)
Lemma normalize_proper ds leaf :
  forallb proper (ds ++ [leaf]) = true ->
  Path.normalize (String.concat "/" (ds ++ [leaf])) =
  String.concat "/" (ds ++ [leaf]).
Proof.
  intros Hall.
  assert (Hne : ds ++ [leaf] <> []) by (destruct ds; discriminate).
  assert (Hleaf : proper leaf = true).
  { rewrite forallb_app in Hall. apply andb_true_iff in Hall.
    destruct Hall as [_ Hl]. simpl in Hl. now rewrite andb_true_r in Hl. }
  destruct (concat_proper_shape _ Hne Hall) as [Hnil Habs].
  unfold Path.normalize. rewrite Hnil, Habs, endsWithSep_proper_last by assumption.
  rewrite split_concat by (auto using forallb_proper_segment).
  rewrite normalizeSegs_proper by assumption. simpl.
  rewrite Hnil. now rewrite append_nil_r.
Qed.

Lemma filter_nonempty_proper xs :
  forallb proper xs = true ->
  filter (fun a => negb (String.eqb a "")) xs = xs.
Proof.
  induction xs as [|x xs IH]; simpl; [reflexivity|].
  intros Hall. apply andb_true_iff in Hall. destruct Hall as [Hx Hxs].
  destruct (proper_not_special _ Hx) as (-> & _). simpl. f_equal. auto.
Qed.

Lemma join_proper ds leaf :
  forallb proper (ds ++ [leaf]) = true ->
  Path.join (ds ++ [leaf]) = String.concat "/" (ds ++ [leaf]).
Proof.
  intros Hall. unfold Path.join.
  rewrite filter_nonempty_proper by assumption.
  destruct (ds ++ [leaf]) as [|x xs] eqn:E.
  - destruct ds; discriminate.
  - rewrite <- E in *. now apply normalize_proper.
Qed.

Lemma join_dot_leaf leaf :
  proper leaf = true -> Path.join ["."; leaf] = leaf.
Proof.
  intros Hp. destruct (proper_not_special _ Hp) as (Hnil & Hdot & Hdd).
  assert (Hend : Path.endsWithSep (String "." (String "/" leaf)) = false)
    by exact (endsWithSep_proper_last ["."%string] leaf Hp).
  unfold Path.join. simpl. rewrite Hnil. simpl.
  unfold Path.normalize.
  change ("." ++ String "/" leaf)%string with (String "." (String "/" leaf)).
  rewrite Hend.
  cbn [Path.split Path.is_sep Ascii.eqb Bool.eqb String.eqb Path.isAbsolute negb].
  rewrite (split_segment leaf) by now apply proper_segment.
  cbn [Path.normalizeSegs String.eqb Ascii.eqb Bool.eqb orb].
  rewrite Hnil, Hdot, Hdd. simpl. rewrite Hnil. now rewrite append_nil_r.
Qed.

Lemma popN_firstn n (dirs : list string) :
  popN n dirs = firstn (List.length dirs - n) dirs.
Proof.
  revert dirs. induction n as [|n IH]; intros dirs; simpl.
  - rewrite Nat.sub_0_r. symmetry. apply firstn_all.
  - rewrite IH. rewrite removelast_firstn_len.
    rewrite length_firstn, firstn_firstn.
    f_equal. lia.
Qed.

Lemma forallb_firstn {A} (f : A -> bool) m (l : list A) :
  forallb f l = true -> forallb f (firstn m l) = true.
Proof.
  revert l. induction m as [|m IH]; intros [|x l]; simpl; auto.
  intros Hl. apply andb_true_iff in Hl. destruct Hl as [-> Hl]. simpl. auto.
Qed.

Lemma forallb_snoc {A} (f : A -> bool) (l : list A) x :
  forallb f (l ++ [x]) = true -> forallb f l = true /\ f x = true.
Proof.
  rewrite forallb_app. simpl. rewrite andb_true_r.
  intros Hl. now apply andb_true_iff in Hl.
Qed.

(** [stripDirs] on a normalized relative path [ds/leaf]: the pieces that the
    function reads. *)
Lemma stripDirs_pieces ds leaf :
  forallb proper (ds ++ [leaf]) = true ->
  Path.basename (String.concat "/" (ds ++ [leaf])) = leaf /\
  Path.split (Path.dirname (String.concat "/" (ds ++ [leaf]))) =
    match ds with [] => ["."%string] | _ => ds end.
Proof.
  intros Hall. destruct (forallb_snoc _ _ _ Hall) as [Hds Hleaf].
  destruct ds as [|d ds'].
  - simpl. rewrite basename_leaf, dirname_leaf by assumption. now split.
  - rewrite concat_snoc by discriminate.
    destruct (concat_proper_shape (d :: ds')) as [Hnil Habs];
      [discriminate | assumption |].
    rewrite basename_snoc by assumption.
    rewrite dirname_snoc; try assumption.
    + split; [reflexivity|].
      apply split_concat; [discriminate | now apply forallb_proper_segment].
    + intros E. rewrite E in Hnil. discriminate.
Qed.

Lemma stripDirs_relative ds leaf n :
  forallb proper (ds ++ [leaf]) = true ->
  stripDirs (String.concat "/" (ds ++ [leaf])) n =
  if (0 <? n) && (n <=? Z.of_nat (List.length ds))
  then String.concat "/" (firstn (List.length ds - Z.to_nat n) ds ++ [leaf])
  else String.concat "/" (ds ++ [leaf]).
Proof.
  intros Hall. destruct (forallb_snoc _ _ _ Hall) as [Hds Hleaf].
  destruct (stripDirs_pieces _ _ Hall) as [Hbase Hdirs].
  unfold stripDirs. rewrite Hbase, Hdirs.
  destruct ds as [|d ds'].
  - (* a bare leaf: [dirs] is [["."]] *)
    replace ((0 <? n) && (n <=? Z.of_nat (List.length (@nil string))))
      with false by (simpl; lia).
    simpl List.length. simpl String.concat.
    destruct (Z.ltb_spec (Z.of_nat 1) n) as [Hn|Hn].
    + now apply join_dot_leaf.
    + destruct (Z.to_nat n) as [|k] eqn:E; simpl.
      * now apply join_dot_leaf.
      * replace (popN k []) with (@nil string)
          by (clear; induction k; simpl; auto).
        simpl. apply (join_proper [] leaf). assumption.
  - set (dsa := d :: ds') in *.
    destruct (Z.ltb_spec (Z.of_nat (List.length dsa)) n) as [Hn|Hn].
    + replace ((0 <? n) && (n <=? Z.of_nat (List.length dsa)))
        with false by lia.
      now apply join_proper.
    + rewrite popN_firstn.
      destruct (Z.ltb_spec 0 n) as [Hp|Hp]; cbn [andb].
      * replace (n <=? Z.of_nat (List.length dsa)) with true by lia.
        apply join_proper. rewrite forallb_app.
        rewrite forallb_firstn by assumption. simpl. now rewrite Hleaf.
      * replace (Z.to_nat n) with 0%nat by lia.
        rewrite Nat.sub_0_r, firstn_all. now apply join_proper.
Qed.

(** C4 (amended).  For a relative path in normal form, [ds/leaf] with [k]
    directory components [ds], and an integer level [n]: when [1 <= n <= k]
    [stripDirs] removes the [n] directory components next to the leaf and
    keeps the leaf; otherwise (level 0 or less, or more levels than
    directory components) it returns the path as it is.  In particular level
    0 changes nothing and a bare leaf comes back unchanged at every level. *)
Theorem stripDirs_normal_relative (ds : list string) (leaf : string) (n : Z) :
  forallb proper (ds ++ [leaf]) = true ->
  let p := String.concat "/" (ds ++ [leaf]) in
  stripDirs p n =
    (if (0 <? n) && (n <=? Z.of_nat (List.length ds))
     then String.concat "/" (firstn (List.length ds - Z.to_nat n) ds ++ [leaf])
     else p)
  /\ stripDirs p 0 = p
  /\ (ds = [] -> stripDirs p n = leaf).
Proof.
  intros Hall p. subst p. split; [|split].
  - now apply stripDirs_relative.
  - rewrite stripDirs_relative by assumption. reflexivity.
  - intros ->. rewrite stripDirs_relative by assumption.
    replace ((0 <? n) && (n <=? Z.of_nat (List.length (@nil string))))
      with false by (simpl; lia).
    reflexivity.
Qed.

(** The path [out/pkg/tool] at levels 1 and 0. *)
Lemma stripDirs_normal_relative_witness :
  forallb proper (["out"; "pkg"] ++ ["tool"])%list = true /\
  stripDirs "out/pkg/tool" 1 = "out/tool" /\
  stripDirs "out/pkg/tool" 0 = "out/pkg/tool".
Proof.
  split; [reflexivity|].
  destruct (stripDirs_normal_relative ["out"; "pkg"] "tool" 1 eq_refl)
    as (H1 & H0 & _).
  split; [exact H1 | exact H0].
Defined.

(** C4 as stated fails: at level 0 the result is the input only up to the
    normalization done by [path.join]. *)
Lemma stripDirs_level0_not_identity :
  ~ (forall p : string, stripDirs p 0 = p).
Proof.
  intros Hid. specialize (Hid "./bin/tool"%string).
  vm_compute in Hid. discriminate Hid.
Qed.

(** ** The source registry *)

Lemma src_run url os arch_ st :
  Builder.src url os arch_ st =
  (Ok tt,
   with_this
     (mkBinBuilder
        (sources (this st) ++
         [Source.mk
            (match os with Some o => o | None => platform (process st) end)
            (match arch_ with Some a => a | None => arch (process st) end)
            url])
        (destination (this st)) (downloaded (this st)) (cmds (this st))
        (fileRemaps (this st))) st).
Proof. reflexivity. Qed.

Lemma registerAll_sources calls : forall st,
  sources (this (registerAll calls st)) =
  sources (this st) ++ map pinned calls.
Proof.
  induction calls as [|c calls IH]; intros st; simpl.
  - now rewrite app_nil_r.
  - rewrite IH. simpl. rewrite <- app_assoc. reflexivity.
Qed.

(** C9.  After any sequence of calls of [src], [getSrcs] on a host returns
    the registered sources whose [os] and [arch] equal the host's, in the
    order of registration: it is the filter of the list of registered
    sources.  A call without [os] or [arch] has stored the values of the
    host that made the call, whatever the host is when [getSrcs] runs. *)
Theorem getSrcs_matching (calls : list SrcCall) (st : State) (host : Process) :
  let st' := with_process host (registerAll calls st) in
  let registered := sources (this st) ++ map pinned calls in
  sources (this st') = registered /\
  Builder.getSrcs st' = (Ok (filter (matchesHost host) registered), st') /\
  (forall s, In s (filter (matchesHost host) registered) <->
             In s registered /\
             Source.os s = platform host /\ Source.arch s = arch host) /\
  (forall c, In c calls -> call_os c = None -> call_arch c = None ->
             In (Source.mk (platform (call_host c)) (arch (call_host c))
                   (call_url c)) registered).
Proof.
  intros st' registered.
  assert (Hsrc : sources (this st') = registered)
    by (subst st' registered; simpl; apply registerAll_sources).
  split; [exact Hsrc|]. split; [|split].
  - unfold Builder.getSrcs, bind, get, ret. rewrite Hsrc. reflexivity.
  - intros s. rewrite filter_In. unfold matchesHost.
    rewrite andb_true_iff, !String.eqb_eq. tauto.
  - intros c Hin Hos Harch. subst registered. apply in_or_app. right.
    apply in_map_iff. exists c. split; [|assumption].
    unfold pinned. now rewrite Hos, Harch.
Qed.

(** ** Reasoning about computations *)

Lemma bind_ok {A B} (m : M A) (k : A -> M B) st a st' :
  m st = (Ok a, st') -> bind m k st = k a st'.
Proof. unfold bind. now intros ->. Qed.

Lemma bind_throw {A B} (m : M A) (k : A -> M B) st e st' :
  m st = (Throw e, st') -> bind m k st = (Throw e, st').
Proof. unfold bind. now intros ->. Qed.

Lemma bind_inv {A B} (m : M A) (k : A -> M B) st r st' :
  bind m k st = (r, st') ->
  (exists a st1, m st = (Ok a, st1) /\ k a st1 = (r, st')) \/
  (exists e, m st = (Throw e, st') /\ r = Throw e).
Proof.
  unfold bind. destruct (m st) as [[a|e] st1]; intros Hk.
  - left. eauto.
  - right. inversion Hk; subst. eauto.
Qed.


Section Steps.

Variable P : Event -> Prop.

Lemma evolves_refl st : evolves P st st.
Proof.
  repeat split. exists []. split; [now rewrite app_nil_r | constructor].
Qed.

Lemma evolves_trans a b c : evolves P a b -> evolves P b c -> evolves P a c.
Proof.
  intros (H1 & H2 & H3 & H4 & H5 & e1 & Ht1 & Hp1)
         (G1 & G2 & G3 & G4 & G5 & e2 & Ht2 & Hp2).
  repeat split; try congruence.
  exists (e1 ++ e2). split.
  - rewrite Ht2, Ht1. now rewrite app_assoc.
  - apply Forall_app. now split.
Qed.

Lemma evolves_fs st n : evolves P st (with_fs n st).
Proof.
  repeat split. exists []. split; [simpl; now rewrite app_nil_r | constructor].
Qed.

Lemma evolves_tmp st k : evolves P st (with_tmpCount k st).
Proof.
  repeat split. exists []. split; [simpl; now rewrite app_nil_r | constructor].
Qed.

Lemma evolves_event st e : P e -> evolves P st (with_event e st).
Proof.
  intros He. repeat split. exists [e]. split; [reflexivity|].
  now constructor.
Qed.

Lemma steps_ret {A} (a : A) : steps P (ret a).
Proof. intros st r st' E. inversion E. apply evolves_refl. Qed.

Lemma steps_throw {A} e : steps P (@throw A e).
Proof. intros st r st' E. inversion E. apply evolves_refl. Qed.

Lemma steps_get : steps P get.
Proof. intros st r st' E. inversion E. apply evolves_refl. Qed.

Lemma steps_liftResult {A} (x : Result A) : steps P (liftResult x).
Proof. intros st r st' E. inversion E. apply evolves_refl. Qed.

Lemma steps_bind {A B} (m : M A) (k : A -> M B) :
  steps P m -> (forall a, steps P (k a)) -> steps P (bind m k).
Proof.
  intros Hm Hk st r st' E.
  destruct (bind_inv _ _ _ _ _ E) as [(a & st1 & E1 & E2)|(e & E1 & _)].
  - eapply evolves_trans; [eapply Hm | eapply Hk]; eassumption.
  - eapply Hm; eassumption.
Qed.

Lemma steps_tryCatch {A} (m : M A) (h : Error -> M A) :
  steps P m -> (forall e, steps P (h e)) -> steps P (tryCatch m h).
Proof.
  intros Hm Hh st r st' E. unfold tryCatch in E.
  destruct (m st) as [[a|e] st1] eqn:E1.
  - inversion E; subst. eapply Hm; eassumption.
  - eapply evolves_trans; [eapply Hm | eapply Hh]; eassumption.
Qed.

Lemma steps_finally {A} (m : M A) (c : M unit) :
  steps P m -> steps P c -> steps P (finally m c).
Proof.
  intros Hm Hc st r st' E. unfold finally in E.
  destruct (m st) as [r1 st1] eqn:E1. inversion E; subst.
  destruct (c st1) as [r2 st2] eqn:E2. simpl.
  eapply evolves_trans; [eapply Hm | eapply Hc]; eassumption.
Qed.

Lemma steps_forEach {A} (xs : list A) (body : A -> M unit) :
  (forall x, steps P (body x)) -> steps P (forEach xs body).
Proof.
  intros Hb. induction xs as [|x xs IH]; simpl.
  - apply steps_ret.
  - apply steps_bind; auto.
Qed.

Lemma steps_promiseAll {A} (tasks : list (M A)) :
  Forall (steps P) tasks -> steps P (promiseAll tasks).
Proof.
  induction 1 as [|t tasks Ht _ IH]; simpl.
  - apply steps_ret.
  - intros st r st' E.
    destruct (t st) as [[a|e] st1] eqn:E1.
    + destruct (promiseAll tasks st1) as [[rest|e] st2] eqn:E2;
        inversion E; subst;
        (eapply evolves_trans; [eapply Ht | eapply IH]; eassumption).
    + destruct (promiseAll tasks st1) as [r2 st2] eqn:E2.
      inversion E; subst. simpl.
      eapply evolves_trans; [eapply Ht | eapply IH]; eassumption.
Qed.

Lemma steps_log e : P e -> steps P (log e).
Proof.
  intros He st r st' E. inversion E. now apply evolves_event.
Qed.

Lemma steps_tmpCount k : steps P (modify (with_tmpCount k)).
Proof. intros st r st' E. inversion E. apply evolves_tmp. Qed.

Lemma steps_update f : steps P (update f).
Proof.
  intros st r st' E. unfold update in E.
  destruct (f (fs st)); inversion E; subst;
    [apply evolves_fs | apply evolves_refl].
Qed.

Lemma steps_external {A} (f : node -> Result A * node) :
  steps P (external f).
Proof.
  intros st r st' E. unfold external in E.
  destruct (f (fs st)). inversion E. apply evolves_fs.
Qed.

Lemma steps_locate p : steps P (locate p).
Proof.
  intros st r st' E. unfold locate in E.
  destruct (String.eqb p ""); inversion E; apply evolves_refl.
Qed.

(** The builder's own change during a build: one more downloaded source. *)
Lemma steps_pushDownloaded url :
  steps P (Builder.onThis (fun b =>
    mkBinBuilder (sources b) (destination b) (downloaded b ++ [url])
      (cmds b) (fileRemaps b))).
Proof.
  intros st r st' E. inversion E.
  repeat split. exists []. split; [simpl; now rewrite app_nil_r | constructor].
Qed.

End Steps.

(** Decomposing a computation along its structure. *)
Ltac steps_structure :=
  repeat first
    [ apply steps_ret | apply steps_throw | apply steps_get
    | apply steps_liftResult | apply steps_update | apply steps_external
    | apply steps_locate | apply steps_tmpCount | apply steps_pushDownloaded
    | apply steps_bind; [|intros ?]
    | apply steps_tryCatch; [|intros ?]
    | apply steps_finally
    | apply steps_forEach; intros ?
    | match goal with
      | |- steps _ (if ?b then _ else _) => destruct b
      | |- steps _ (match ?x with _ => _ end) => destruct x
      end ].

Section StepsOfCalls.

Variable P : Event -> Prop.

Lemma steps_statNode p : steps P (statNode p).
Proof. unfold statNode. steps_structure. Qed.

Lemma steps_access p : steps P (access p).
Proof. unfold access. apply steps_bind; [apply steps_statNode|]. intros; apply steps_ret. Qed.

Lemma steps_existsSync p : steps P (existsSync p).
Proof.
  unfold existsSync. apply steps_tryCatch.
  - apply steps_bind; [apply steps_statNode|]. intros; apply steps_ret.
  - intros; apply steps_ret.
Qed.

Lemma steps_writeFile p data : steps P (writeFile p data).
Proof. unfold writeFile. steps_structure. Qed.

Lemma steps_mkdirRecursive p : P (EvMkdir p) -> steps P (mkdirRecursive p).
Proof.
  intros. unfold mkdirRecursive.
  apply steps_bind; [now apply steps_log|]. intros. steps_structure.
Qed.

Lemma steps_rename s d : P (EvRename s d) -> steps P (rename s d).
Proof.
  intros. unfold rename.
  apply steps_bind; [now apply steps_log|]. intros. steps_structure.
Qed.

Lemma steps_copyFile s d : P (EvCopyFile s d) -> steps P (copyFile s d).
Proof.
  intros. unfold copyFile.
  apply steps_bind; [now apply steps_log|]. intros.
  apply steps_bind; [apply steps_statNode|]. intros. steps_structure.
Qed.

Lemma steps_unlinkSync p : P (EvUnlink p) -> steps P (unlinkSync p).
Proof.
  intros. unfold unlinkSync.
  apply steps_bind; [now apply steps_log|]. intros.
  apply steps_bind; [apply steps_statNode|]. intros. steps_structure.
Qed.

Lemma steps_removeRecursive p : P (EvRemove p) -> steps P (removeRecursive p).
Proof.
  intros. unfold removeRecursive.
  apply steps_bind; [now apply steps_log|]. intros. steps_structure.
Qed.

Lemma steps_createWriteStream p :
  P (EvOpenWrite p) -> steps P (createWriteStream p).
Proof.
  intros. unfold createWriteStream.
  apply steps_bind; [now apply steps_log|]. intros _.
  intros st r st' E.
  destruct (writeFile p [] st) as [r1 st1] eqn:E1. inversion E; subst.
  eapply steps_writeFile; eassumption.
Qed.

Lemma steps_pipeline b ws :
  P (EvWrite (ws_path ws)) -> steps P (pipeline b ws).
Proof.
  intros. unfold pipeline. destruct (ws_opened ws); [|apply steps_throw].
  apply steps_bind; [now apply steps_log|]. intros.
  apply steps_bind; [apply steps_writeFile|]. intros. steps_structure.
Qed.

End StepsOfCalls.

(** ** The file system: reading after writing *)

Lemma assoc_set_same x v es : FS.assoc x (FS.set x v es) = Some v.
Proof.
  induction es as [|[y n] es IH]; simpl.
  - now rewrite String.eqb_refl.
  - destruct (String.eqb x y) eqn:E; simpl.
    + now rewrite String.eqb_refl.
    + now rewrite E.
Qed.

Lemma assoc_set_other x y v es :
  String.eqb y x = false -> FS.assoc y (FS.set x v es) = FS.assoc y es.
Proof.
  intros Hxy. induction es as [|[z n] es IH]; simpl.
  - now rewrite Hxy.
  - destruct (String.eqb x z) eqn:E; simpl.
    + apply String.eqb_eq in E. subst z. now rewrite Hxy.
    + now rewrite IH.
Qed.

Lemma assoc_unset_same x es : FS.assoc x (FS.unset x es) = None.
Proof.
  induction es as [|[y n] es IH]; simpl; [reflexivity|].
  destruct (String.eqb x y) eqn:E; simpl; [assumption|].
  now rewrite E.
Qed.

Lemma put_cons2 x y p v es :
  FS.put (x :: y :: p) v (Dir es) =
  match FS.assoc x es with
  | Some c =>
      match FS.put (y :: p) v c with
      | Ok c' => Ok (Dir (FS.set x c' es))
      | Throw e => Throw e
      end
  | None => Throw (sysError "ENOENT" x)
  end.
Proof. reflexivity. Qed.

Lemma stat_cons x p es :
  FS.stat (x :: p) (Dir es) =
  match FS.assoc x es with
  | Some c => FS.stat p c
  | None => Throw (sysError "ENOENT" x)
  end.
Proof. reflexivity. Qed.

Lemma stat_put_same p : forall v n n',
  FS.put p v n = Ok n' -> FS.stat p n' = Ok v.
Proof.
  induction p as [|x p IH]; intros v n n' Hput; simpl in Hput.
  - now inversion Hput.
  - destruct n as [|es]; [discriminate|].
    destruct p as [|y p'].
    + inversion Hput; subst. simpl. now rewrite assoc_set_same.
    + destruct (FS.assoc x es) as [c|]; [|discriminate].
      destruct (FS.put (y :: p') v c) as [c'|] eqn:E; [|discriminate].
      inversion Hput; subst.
      change (FS.stat (x :: y :: p') (Dir (FS.set x c' es)))
        with (match FS.assoc x (FS.set x c' es) with
              | Some c => FS.stat (y :: p') c
              | None => Throw (sysError "ENOENT" x)
              end).
      rewrite assoc_set_same. eapply IH; eassumption.
Qed.

Lemma stat_del_same p : forall n n',
  FS.del p n = Ok n' -> exists e, FS.stat p n' = Throw e.
Proof.
  induction p as [|x p IH]; intros n n' Hdel; simpl in Hdel.
  - discriminate.
  - destruct n as [|es]; [discriminate|].
    destruct (FS.assoc x es) as [c|]; [|discriminate].
    destruct p as [|y p'].
    + inversion Hdel; subst. simpl. rewrite assoc_unset_same. eauto.
    + destruct (FS.del (y :: p') c) as [c'|] eqn:E; [|discriminate].
      inversion Hdel; subst.
      change (FS.stat (x :: y :: p') (Dir (FS.set x c' es)))
        with (match FS.assoc x (FS.set x c' es) with
              | Some c => FS.stat (y :: p') c
              | None => Throw (sysError "ENOENT" x)
              end).
      rewrite assoc_set_same. eapply IH; eassumption.
Qed.

(** Writing at [dst] does not bring back what is missing at a path [src]
    that neither contains [dst] nor lies below it. *)
Lemma stat_put_throw src : forall dst v n n' e,
  FS.put dst v n = Ok n' ->
  FS.is_prefix dst src = false -> FS.is_prefix src dst = false ->
  FS.stat src n = Throw e -> exists e', FS.stat src n' = Throw e'.
Proof.
  induction src as [|x s IH]; intros dst v n n' e Hput Hds Hsd Hstat.
  - discriminate Hsd.
  - destruct dst as [|y d]; [discriminate Hds|].
    simpl in Hds, Hsd.
    destruct n as [|es]; [discriminate Hput|].
    destruct (String.eqb x y) eqn:Exy.
    + apply String.eqb_eq in Exy. subst y.
      rewrite String.eqb_refl in Hds. simpl in Hds, Hsd.
      destruct d as [|z d']; [discriminate Hds|].
      rewrite put_cons2 in Hput. rewrite stat_cons in Hstat.
      destruct (FS.assoc x es) as [c|]; [|discriminate Hput].
      destruct (FS.put (z :: d') v c) as [c'|] eqn:E; [|discriminate].
      inversion Hput; subst.
      rewrite stat_cons, assoc_set_same. eapply IH; eassumption.
    + assert (Hn' : exists w, n' = Dir (FS.set y w es)).
      { destruct d as [|z d'].
        - simpl in Hput. inversion Hput; eauto.
        - rewrite put_cons2 in Hput.
          destruct (FS.assoc y es) as [c|]; [|discriminate].
          destruct (FS.put (z :: d') v c); inversion Hput; eauto. }
      destruct Hn' as [w ->].
      rewrite stat_cons in Hstat |- *. rewrite assoc_set_other by assumption.
      rewrite Hstat. eauto.
Qed.

(** A path with something below it is a directory that is not empty. *)
Lemma stat_above dst : forall src n m,
  FS.is_prefix dst src = true -> FS.same_path src dst = false ->
  FS.stat src n = Ok m ->
  exists e es, FS.stat dst n = Ok (Dir (e :: es)).
Proof.
  induction dst as [|y d IH]; intros src n m Hpre Hsame Hstat.
  - destruct src as [|x s]; [discriminate Hsame|].
    simpl in Hstat. destruct n as [|es]; [discriminate|].
    destruct es as [|e es]; [discriminate|]. simpl. eauto.
  - destruct src as [|x s]; [discriminate Hpre|].
    simpl in Hpre, Hsame. apply andb_true_iff in Hpre.
    destruct Hpre as [Hyx Hpre]. apply String.eqb_eq in Hyx. subst y.
    rewrite String.eqb_refl in Hsame. simpl in Hsame.
    simpl in Hstat |- *. destruct n as [|es]; [discriminate|].
    destruct (FS.assoc x es) as [c|]; [|discriminate].
    eapply IH; eassumption.
Qed.

(** [rename] moves the node: what was at [src] is at [dst] afterwards, and
    nothing is left at [src]. *)
Lemma rename_moves src dst n n' :
  FS.rename src dst n = Ok n' -> FS.same_path src dst = false ->
  exists moved,
    FS.stat src n = Ok moved /\ FS.stat dst n' = Ok moved /\
    exists e, FS.stat src n' = Throw e.
Proof.
  unfold FS.rename. intros Hren Hsame.
  destruct (FS.stat src n) as [moved|] eqn:Hsrc; [|discriminate].
  rewrite Hsame in Hren.
  destruct (FS.is_prefix src dst) eqn:Hsd; [discriminate|].
  destruct (FS.clash moved (FS.stat dst n)) eqn:Hclash; [discriminate|].
  destruct (FS.del src n) as [n1|] eqn:Hdel; [|discriminate].
  exists moved. split; [reflexivity|]. split.
  - eapply stat_put_same; eassumption.
  - destruct (stat_del_same _ _ _ Hdel) as [e He].
    destruct (FS.is_prefix dst src) eqn:Hds.
    + destruct (stat_above _ _ _ _ Hds Hsame Hsrc) as (e1 & es & Hd).
      rewrite Hd in Hclash. destruct moved; discriminate.
    + eapply stat_put_throw; eassumption.
Qed.

Lemma mkdirp_stat p : forall n n',
  FS.mkdirp p n = Ok n' -> exists es, FS.stat p n' = Ok (Dir es).
Proof.
  induction p as [|x p IH]; intros n n' Hmk; simpl in Hmk.
  - destruct n; inversion Hmk; subst. simpl. eauto.
  - destruct n as [|es]; [discriminate|].
    destruct (FS.mkdirp p _) as [c'|] eqn:E; [|discriminate].
    inversion Hmk; subst. simpl. rewrite assoc_set_same. eapply IH; eassumption.
Qed.

(** ** Inverting the calls on the file system *)

Lemma log_run e st : log e st = (Ok tt, with_event e st).
Proof. reflexivity. Qed.

Lemma locate_inv p st r st' :
  locate p st = (r, st') ->
  st' = st /\
  ((r = Ok (FS.resolve (cwd (process st)) p) /\ String.eqb p "" = false) \/
   (exists e, r = Throw e)).
Proof.
  unfold locate. destruct (String.eqb p ""); intros E; inversion E; subst;
    split; eauto.
Qed.

Lemma statNode_inv p st r st' :
  statNode p st = (r, st') ->
  st' = st /\
  ((r = FS.stat (FS.resolve (cwd (process st)) p) (fs st) /\
    String.eqb p "" = false) \/
   (exists e, r = Throw e /\ String.eqb p "" = true)).
Proof.
  unfold statNode, bind, get, liftResult, locate.
  destruct (String.eqb p ""); intros E; inversion E; subst; split; eauto.
Qed.

Lemma update_inv f st r st' :
  update f st = (r, st') ->
  (exists n, f (fs st) = Ok n /\ r = Ok tt /\ st' = with_fs n st) \/
  (exists e, f (fs st) = Throw e /\ r = Throw e /\ st' = st).
Proof.
  unfold update. destruct (f (fs st)) eqn:E; intros E'; inversion E'; subst;
    eauto.
Qed.

Lemma existsSync_inv p st r st' :
  existsSync p st = (r, st') ->
  st' = st /\
  ((r = Ok true /\
    exists n, FS.stat (FS.resolve (cwd (process st)) p) (fs st) = Ok n) \/
   (r = Ok false /\
    (String.eqb p "" = true \/
     exists e, FS.stat (FS.resolve (cwd (process st)) p) (fs st) = Throw e))).
Proof.
  unfold existsSync, tryCatch, bind, ret.
  destruct (statNode p st) as [[n|e] st1] eqn:E1;
    destruct (statNode_inv _ _ _ _ E1) as [-> [[Hr Hp]|(e' & Hr & Hp)]];
    intros E; inversion E; subst; (split; [reflexivity|]); eauto;
    try discriminate.
Qed.

(** ** [download.ts] *)

Lemma copyFile_spec s d st r st' :
  copyFile s d st = (r, st') ->
  trace st' = trace st ++ [EvCopyFile s d] /\
  (r = Ok tt ->
   exists data,
     FS.stat (FS.resolve (cwd (process st)) s) (fs st) = Ok (File data) /\
     FS.stat (FS.resolve (cwd (process st)) d) (fs st') = Ok (File data)).
Proof.
  unfold copyFile. rewrite (bind_ok _ _ _ _ _ (log_run _ _)).
  set (st0 := with_event (EvCopyFile s d) st).
  intros E.
  destruct (bind_inv _ _ _ _ _ E) as [(n & st1 & E1 & E2)|(e & E1 & ->)];
    destruct (statNode_inv _ _ _ _ E1) as [-> Hstat]; clear E E1;
    [|split; [reflexivity | discriminate]].
  destruct Hstat as [[Hn _]|(e & Hn & _)]; [|discriminate Hn].
  destruct n as [data|es];
    [|inversion E2; subst; split; [reflexivity | discriminate]].
  destruct (bind_inv _ _ _ _ _ E2) as [(c & st1 & E1 & E3)|(e & E1 & ->)];
    destruct (locate_inv _ _ _ _ E1) as [-> Hc]; clear E2 E1;
    [|split; [reflexivity | discriminate]].
  destruct Hc as [[Hc _]|(e & Hc)]; [|discriminate Hc].
  inversion Hc; subst c. clear Hc.
  unfold bind at 1 in E3. unfold get in E3.
  change (process st0) with (process st) in *.
  change (fs st0) with (fs st) in *.
  assert (Hput : update (FS.put (FS.resolve (cwd (process st)) d) (File data)) st0
                 = (r, st') \/ (exists e, r = Throw e /\ st' = st0)).
  { destruct (FS.stat (FS.resolve (cwd (process st)) d) (fs st)) as [[?|?]|?];
      auto.
    inversion E3; subst. eauto. }
  destruct Hput as [Hput|(e & -> & ->)];
    [|split; [reflexivity | discriminate]].
  destruct (update_inv _ _ _ _ Hput) as [(n' & Hn' & -> & ->)|(e & _ & -> & ->)];
    [|split; [reflexivity | discriminate]].
  split; [reflexivity|]. intros _. exists data. split.
  - symmetry. exact Hn.
  - simpl. eapply stat_put_same. exact Hn'.
Qed.


Lemma downloadFromURL_events H url dest st r st' :
  downloadFromURL H url dest st = (r, st') ->
  exists evs, trace st' = trace st ++ EvFetch url :: evs /\
              Forall notCopyNorFetch evs.
Proof.
  unfold downloadFromURL. intros E.
  destruct (bind_inv _ _ _ _ _ E) as [(resp & st1 & E1 & E2)|(e & E1 & _)].
  - destruct (bind_inv _ _ _ _ _ E1) as [([] & st0 & E0 & E0')|(e & E0 & _)];
      [|discriminate E0].
    inversion E0; subst. inversion E0'; subst. clear E0 E0' E1.
    assert (Hrest : steps notCopyNorFetch
              (writeStream <- createWriteStream dest ;;
               if negb (ok resp) then
                 throw (newError ("HTTP error (" ++ showZ (status resp) ++ "): "
                                  ++ statusText resp)%string)
               else
                 match body resp with
                 | None => throw (newError "Empty response body!")
                 | Some body =>
                     tryCatch (pipeline body writeStream)
                       (fun err =>
                          tryCatch (unlinkSync dest) (fun _ => ret tt) ;;
                          throw (newError ("Failed to download " ++ url ++ ": "
                                           ++ toString err)%string))
                 end)).
    { apply steps_bind; [now apply steps_createWriteStream|]. intros ws.
      destruct (negb (ok resp)); [apply steps_throw|].
      destruct (body resp); [|apply steps_throw].
      apply steps_tryCatch; [now apply steps_pipeline|]. intros err.
      apply steps_bind; [|intros; apply steps_throw].
      apply steps_tryCatch; [now apply steps_unlinkSync | intros; apply steps_ret]. }
    destruct (Hrest _ _ _ E2) as (_ & _ & _ & _ & _ & evs & Ht & Hp).
    exists evs. split; [|assumption].
    rewrite Ht. simpl. now rewrite <- app_assoc.
  - destruct (bind_inv _ _ _ _ _ E1) as [([] & st0 & E0 & E0')|(e' & E0 & _)];
      [|discriminate E0].
    inversion E0; subst. inversion E0'; subst.
    exists []. split; [reflexivity | constructor].
Qed.

(** [download] takes a source for local exactly when it is not a URL or is
    a URL whose scheme is [file:].  A local source is copied with
    [copyFile] from the [pathname] that the URL parser gives for it, or from
    the string itself when it is no URL: the only call made is that copy,
    and when it succeeds the destination holds the bytes of the file at
    that path.  A remote source goes to [downloadFromURL]: the first call
    is the [fetch] of the address and no file is copied. *)
Lemma download_dispatch (H : Host) (src dest : string) (st : State) :
  (isLocalPath H src = true <->
     parseURL H src = None \/
     exists u, parseURL H src = Some u /\ protocol u = "file:"%string) /\
  (isLocalPath H src = true ->
     let path := match parseURL H src with
                 | Some u => pathname u
                 | None => src
                 end in
     download H src dest st = copyFile path dest st /\
     forall r st', download H src dest st = (r, st') ->
       trace st' = trace st ++ [EvCopyFile path dest] /\
       (r = Ok tt ->
        exists data,
          FS.stat (FS.resolve (cwd (process st)) path) (fs st) = Ok (File data) /\
          FS.stat (FS.resolve (cwd (process st)) dest) (fs st') = Ok (File data))) /\
  (isLocalPath H src = false ->
     download H src dest st = downloadFromURL H src dest st /\
     forall r st', download H src dest st = (r, st') ->
       exists evs, trace st' = trace st ++ EvFetch src :: evs /\
                   Forall notCopyNorFetch evs).
Proof.
  split; [|split].
  - unfold isLocalPath, isURL.
    destruct (parseURL H src) as [u|] eqn:Hu.
    + destruct (String.eqb (protocol u) "file:") eqn:Hp; simpl.
      * apply String.eqb_eq in Hp. split; [|reflexivity].
        intros _. right. exists u. auto.
      * apply String.eqb_neq in Hp. split; [discriminate|].
        intros [Hn|(u' & Hu' & Hp')]; [discriminate|].
        inversion Hu'; subst. contradiction.
    + split; [auto | reflexivity].
  - intros Hlocal path.
    assert (Hd : download H src dest st = copyFile path dest st).
    { unfold download. rewrite Hlocal. reflexivity. }
    split; [exact Hd|]. intros r st' E. rewrite Hd in E.
    now apply copyFile_spec.
  - intros Hremote.
    assert (Hd : download H src dest st = downloadFromURL H src dest st).
    { unfold download. rewrite Hremote. reflexivity. }
    split; [exact Hd|]. intros r st' E. rewrite Hd in E.
    eapply downloadFromURL_events; eassumption.
Qed.

(** C8.  A source [file://<path>] is taken for local, but the file is not
    copied from [path]: [trimLocalURL] takes the [pathname] of the parsed
    URL, which the URL parser gives percent-encoded, and does not decode
    it.  When the pathname that the parser answers names nothing on disk
    while the file is there at [path], the one call that [download] makes
    is [copyFile] from that pathname, and it throws without having copied
    anything.  On the sample host this is the source
    [file:///work/my file], whose pathname is [/work/my%20file]. *)
Theorem download_file_url_copies_from_pathname (H : Host)
  (path enc dest : string) (st : State) (data : list byte) (e : Error) :
  parseURL H ("file://" ++ path) = Some (mkURL "file:" enc) ->
  nodeAt path st = Ok (File data) ->
  nodeAt enc st = Throw e ->
  let src := ("file://" ++ path)%string in
  isLocalPath H src = true /\
  trimLocalURL H src = enc /\
  enc <> path /\
  exists e' st',
    download H src dest st = (Throw e', st') /\
    trace st' = trace st ++ [EvCopyFile enc dest] /\
    fs st' = fs st.
Proof.
  intros Hparse Hfile Hnone src. subst src.
  assert (Hlocal : isLocalPath H ("file://" ++ path) = true).
  { unfold isLocalPath, isURL. rewrite Hparse. reflexivity. }
  assert (Htrim : trimLocalURL H ("file://" ++ path) = enc).
  { unfold trimLocalURL. rewrite Hparse. reflexivity. }
  split; [exact Hlocal|]. split; [exact Htrim|]. split.
  { intros ->. rewrite Hfile in Hnone. discriminate Hnone. }
  unfold download, copyLocalFile. rewrite Hlocal, Htrim.
  unfold copyFile. rewrite (bind_ok _ _ _ _ _ (log_run _ _)).
  unfold statNode, locate, bind, get, liftResult.
  destruct (String.eqb enc "").
  - do 2 eexists. split; [reflexivity|]. split; reflexivity.
  - change (FS.stat (FS.resolve (cwd (process (with_event (EvCopyFile enc dest) st))) enc)
              (fs (with_event (EvCopyFile enc dest) st)))
      with (nodeAt enc st).
    rewrite Hnone.
    do 2 eexists. split; [reflexivity|]. split; reflexivity.
Qed.

Lemma download_file_url_copies_from_pathname_witness :
  let src := "file:///work/my file"%string in
  nodeAt "/work/my file" spacedStart = Ok (File [x68; x69]) /\
  isLocalPath Sample.host src = true /\
  trimLocalURL Sample.host src = "/work/my%20file"%string /\
  exists e' st',
    download Sample.host src "/tmp/copy" spacedStart = (Throw e', st') /\
    trace st' = [EvCopyFile "/work/my%20file" "/tmp/copy"] /\
    fs st' = fs spacedStart.
Proof.
  intros src.
  assert (Hp : parseURL Sample.host ("file://" ++ "/work/my file") =
               Some (mkURL "file:" "/work/my%20file"))
    by (vm_compute; reflexivity).
  assert (Hf : nodeAt "/work/my file" spacedStart = Ok (File [x68; x69]))
    by (vm_compute; reflexivity).
  assert (Hn : nodeAt "/work/my%20file" spacedStart =
               Throw (sysError "ENOENT" "my%20file"))
    by (vm_compute; reflexivity).
  destruct (download_file_url_copies_from_pathname Sample.host
              "/work/my file" "/work/my%20file" "/tmp/copy" spacedStart
              [x68; x69] _ Hp Hf Hn)
    as (Hl & Ht & _ & e' & st' & Hd & Htr & Hfs).
  split; [exact Hf|]. split; [exact Hl|]. split; [exact Ht|].
  exists e', st'. split; [exact Hd|]. split; [exact Htr | exact Hfs].
Defined.

(** When the response is not [ok], [downloadFromURL] throws the HTTP error
    with the status code and text, after the write stream has been made. *)
Lemma downloadFromURL_not_ok H url dest st resp :
  fetch H url = Ok resp -> ok resp = false ->
  downloadFromURL H url dest st =
  (Throw (newError ("HTTP error (" ++ showZ (status resp) ++ "): "
                    ++ statusText resp)%string),
   snd (createWriteStream dest (with_event (EvFetch url) st))).
Proof.
  intros Hf Hok. unfold downloadFromURL.
  assert (E0 : (log (EvFetch url) ;; liftResult (fetch H url)) st
               = (Ok resp, with_event (EvFetch url) st)).
  { unfold bind, log, modify, liftResult. now rewrite Hf. }
  rewrite (bind_ok _ _ _ _ _ E0).
  unfold bind at 1.
  destruct (createWriteStream dest (with_event (EvFetch url) st))
    as [[ws|e] st1] eqn:E1.
  - rewrite Hok. reflexivity.
  - exfalso. unfold createWriteStream, bind, log, modify in E1.
    destruct (writeFile dest [] _); discriminate.
Qed.

Lemma writeFile_inv p data st st' :
  writeFile p data st = (Ok tt, st') ->
  nodeAt p st' = Ok (File data) /\ process st' = process st.
Proof.
  unfold writeFile. intros E.
  destruct (bind_inv _ _ _ _ _ E) as [(c & sa & Ec & E1)|(e & _ & He)];
    [|discriminate He].
  destruct (locate_inv _ _ _ _ Ec) as [-> [[Hc _]|(e & Hc)]];
    [|discriminate Hc].
  inversion Hc; subst c.
  unfold bind at 1 in E1. unfold get in E1.
  assert (Hput : update (FS.put (FS.resolve (cwd (process st)) p) (File data)) st
                 = (Ok tt, st')).
  { destruct (FS.stat (FS.resolve (cwd (process st)) p) (fs st)) as [[?|?]|?];
      auto.
    discriminate E1. }
  destruct (update_inv _ _ _ _ Hput) as [(n' & Hn' & _ & ->)|(e & _ & He & _)];
    [|discriminate He].
  split; [|reflexivity]. unfold nodeAt. simpl.
  eapply stat_put_same. exact Hn'.
Qed.

(** For every host: when the response is not [ok] and the destination can be
    opened for writing, an empty file is at the destination after the
    error. *)
Lemma downloadFromURL_not_ok_leaves_file H url dest st resp st1 :
  fetch H url = Ok resp -> ok resp = false ->
  writeFile dest [] (with_event (EvOpenWrite dest) (with_event (EvFetch url) st))
    = (Ok tt, st1) ->
  nodeAt dest (snd (downloadFromURL H url dest st)) = Ok (File []).
Proof.
  intros Hf Hok Hw. rewrite (downloadFromURL_not_ok H url dest st resp Hf Hok).
  simpl. unfold createWriteStream.
  rewrite (bind_ok _ _ _ _ _ (log_run _ _)). rewrite Hw. simpl.
  now destruct (writeFile_inv _ _ _ _ Hw).
Qed.

(** C2.  A response with status 404 for a destination that does not exist
    yet: [download] takes the address for remote and throws the error with
    the status code and the status text, and an empty file is left at the
    destination, made by [createWriteStream] before the status is looked
    at. *)
Theorem downloadFromURL_http_error_leaves_empty_file :
  let st := Sample.start Builder.new in
  let url := "https://example.com/missing.tgz"%string in
  let dest := "/tmp/tool.tgz"%string in
  isLocalPath Sample.host url = false /\
  fetch Sample.host url =
    Ok (mkResponse false 404 "Not Found" (Some (mkBody [] None))) /\
  nodeAt dest st = Throw (sysError "ENOENT" "tool.tgz") /\
  fst (download Sample.host url dest st) =
    Throw (newError "HTTP error (404): Not Found") /\
  nodeAt dest (snd (download Sample.host url dest st)) = Ok (File []).
Proof. vm_compute. repeat split. Qed.

(** C7.  Once the source is in the temporary file and its content type has
    been sniffed, [downloadAndExtract] extracts with the tar decoder for
    [application/gzip] and [application/x-bzip2] and with the zip decoder
    for [application/zip], into [dest] and with the strip level it was
    given; for any other type it throws the error that names the url and the
    type, and nothing is extracted.  The temporary file is removed in every
    case. *)
Theorem downloadAndExtract_formats (H : Host) (url dest : string)
  (strip : option Z) (st st1 st2 : State) (temp mime : string) :
  freshTempFile H st = (Ok temp, st1) ->
  download H url temp st1 = (Ok tt, st2) ->
  getTypeOf H temp st2 = (Ok mime, st2) ->
  (mime = "application/gzip"%string \/ mime = "application/x-bzip2"%string ->
   downloadAndExtract H url dest strip st =
   finally (extractTar H temp dest strip) (removeRecursive temp) st2) /\
  (mime = "application/zip"%string ->
   downloadAndExtract H url dest strip st =
   finally (extractZip H temp dest strip) (removeRecursive temp) st2) /\
  (mime <> "application/gzip"%string -> mime <> "application/x-bzip2"%string ->
   mime <> "application/zip"%string ->
   downloadAndExtract H url dest strip st =
   (Throw (newError ("Unsupported format for " ++ url ++ ": " ++ mime)%string),
    snd (removeRecursive temp st2))).
Proof.
  intros Htemp Hdl Hmime.
  assert (Hrun : forall format,
    formatOf url mime = Ok format ->
    downloadAndExtract H url dest strip st =
    finally (extract H temp dest format strip) (removeRecursive temp) st2).
  { intros format Hf. unfold downloadAndExtract, tempFileTask.
    rewrite (bind_ok _ _ _ _ _ Htemp). unfold finally.
    rewrite (bind_ok _ _ _ _ _ Hdl), (bind_ok _ _ _ _ _ Hmime).
    rewrite Hf. reflexivity. }
  split; [|split].
  - intros [->| ->]; now rewrite (Hrun tar).
  - intros ->. now rewrite (Hrun zip).
  - intros Hgz Hbz Hzip. unfold downloadAndExtract, tempFileTask.
    rewrite (bind_ok _ _ _ _ _ Htemp). unfold finally.
    rewrite (bind_ok _ _ _ _ _ Hdl), (bind_ok _ _ _ _ _ Hmime).
    unfold formatOf.
    apply String.eqb_neq in Hgz, Hbz, Hzip. rewrite Hgz, Hbz, Hzip.
    reflexivity.
Qed.

(** A gzip archive on the sample host goes to the tar decoder. *)
Lemma downloadAndExtract_formats_witness :
  let st := Sample.start Builder.new in
  let url := "https://example.com/tool.tgz"%string in
  let temp := "/tmp/binbuild-0"%string in
  let st1 := snd (freshTempFile Sample.host st) in
  let st2 := snd (download Sample.host url temp st1) in
  downloadAndExtract Sample.host url "out" (Some 1) st =
  finally (extractTar Sample.host temp "out" (Some 1)) (removeRecursive temp) st2.
Proof.
  intros st url temp st1 st2.
  refine (proj1 (downloadAndExtract_formats Sample.host url "out" (Some 1)
                   st st1 st2 temp "application/gzip" _ _ _) (or_introl eq_refl));
    vm_compute; reflexivity.
Defined.

(** ** [unarchive.ts]: the walk and the renames of [extractZip] *)








Lemma rename_trace s d st r st' :
  rename s d st = (r, st') -> trace st' = trace st ++ [EvRename s d].
Proof.
  unfold rename. rewrite (bind_ok _ _ _ _ _ (log_run _ _)). intros E.
  assert (Hs : steps (fun _ => False)
                 (s0 <- locate s ;; d0 <- locate d ;; update (FS.rename s0 d0)))
    by steps_structure.
  destruct (Hs _ _ _ E) as (_ & _ & _ & _ & _ & evs & Ht & Hp).
  destruct evs as [|e evs]; [|inversion Hp; contradiction].
  rewrite Ht. simpl. now rewrite app_nil_r.
Qed.

Lemma stripLeaf_trace strip leaf st st' :
  stripLeaf strip leaf st = (Ok tt, st') ->
  trace st' = trace st ++ [EvRename leaf (stripDirs leaf strip)].
Proof.
  unfold stripLeaf, tryCatch.
  destruct (rename leaf (stripDirs leaf strip) st) as [[[]|e] st1] eqn:E.
  - intros E'. inversion E'; subst. eapply rename_trace; eassumption.
  - discriminate.
Qed.






(** ** The download phase *)

Section DownloadSteps.

Variable P : Event -> Prop.
Variable H : Host.
Hypothesis P_notTar : forall e, notTar e -> P e.

Lemma steps_freshTemp : steps P (freshTemp H).
Proof.
  unfold freshTemp. apply steps_bind; [apply steps_get|]. intros st.
  apply steps_bind; [apply steps_tmpCount|]. intros _.
  apply steps_bind; [apply steps_existsSync|]. intros [|]; steps_structure.
Qed.

Lemma steps_freshTempFile : steps P (freshTempFile H).
Proof.
  unfold freshTempFile. apply steps_bind; [apply steps_freshTemp|]. intros t.
  apply steps_bind; [apply steps_writeFile | intros; apply steps_ret].
Qed.

Lemma steps_freshTempDir : steps P (freshTempDir H).
Proof.
  unfold freshTempDir. apply steps_bind; [apply steps_freshTemp|]. intros t.
  steps_structure.
Qed.

Lemma steps_downloadFromURL url dest : steps P (downloadFromURL H url dest).
Proof.
  unfold downloadFromURL.
  apply steps_bind.
  { apply steps_bind; [apply steps_log; now apply P_notTar|].
    intros; apply steps_liftResult. }
  intros resp.
  apply steps_bind; [apply steps_createWriteStream; now apply P_notTar|].
  intros ws.
  destruct (negb (ok resp)); [apply steps_throw|].
  destruct (body resp); [|apply steps_throw].
  apply steps_tryCatch; [apply steps_pipeline; now apply P_notTar|].
  intros err. apply steps_bind; [|intros; apply steps_throw].
  apply steps_tryCatch;
    [apply steps_unlinkSync; now apply P_notTar | intros; apply steps_ret].
Qed.

Lemma steps_download url dest : steps P (download H url dest).
Proof.
  unfold download, copyLocalFile. destruct (isLocalPath H url).
  - apply steps_copyFile. now apply P_notTar.
  - apply steps_downloadFromURL.
Qed.

Lemma steps_walkDir filepath maxDepth currDepth :
  steps P (walkDir filepath maxDepth currDepth).
Proof.
  unfold walkDir. destruct (maxDepth <? currDepth); [apply steps_ret|].
  apply steps_bind; [apply steps_statNode | intros; apply steps_liftResult].
Qed.

Lemma steps_extractZip filepath dest strip :
  steps P (extractZip H filepath dest strip).
Proof.
  unfold extractZip, zipDecode, pathResolve.
  apply steps_bind.
  { apply steps_bind; [steps_structure|]. intros dir.
    apply steps_bind; [apply steps_log; now apply P_notTar|]. intros.
    steps_structure. }
  intros _. destruct strip as [strip|]; [|apply steps_ret].
  apply steps_bind; [apply steps_walkDir|]. intros leaves.
  apply steps_forEach. intros leaf.
  apply steps_tryCatch; [|intros; apply steps_throw].
  apply steps_rename. now apply P_notTar.
Qed.

Lemma steps_extractTar filepath dest strip :
  P (EvTar filepath dest strip) -> steps P (extractTar H filepath dest strip).
Proof.
  intros Ht. unfold extractTar.
  apply steps_bind; [now apply steps_log|]. intros. steps_structure.
Qed.

Lemma steps_downloadAndExtract url dest strip :
  (forall f c, P (EvTar f c strip)) ->
  steps P (downloadAndExtract H url dest strip).
Proof.
  intros Ht. unfold downloadAndExtract, tempFileTask.
  apply steps_bind; [apply steps_freshTempFile|]. intros temp.
  apply steps_finally; [|apply steps_removeRecursive; now apply P_notTar].
  apply steps_bind; [apply steps_download|]. intros _.
  apply steps_bind.
  { unfold getTypeOf. steps_structure. }
  intros mime. apply steps_bind; [apply steps_liftResult|].
  intros [|]; simpl.
  - now apply steps_extractTar.
  - apply steps_extractZip.
Qed.

Lemma steps_fetchSource dest strip src :
  (forall f c, P (EvTar f c strip)) ->
  steps P (fetchSource H dest strip src).
Proof.
  intros Ht. unfold fetchSource.
  apply steps_bind; [now apply steps_downloadAndExtract|].
  intros. apply steps_pushDownloaded.
Qed.

End DownloadSteps.

Lemma download_run H dest st :
  Builder.download H dest st =
  let srcs := filter (matchesHost (process st)) (sources (this st)) in
  if Z.of_nat (List.length srcs) <? 1 then
    (Throw (newError ("No binary for " ++ platform (process st) ++ "-"
                      ++ arch (process st))%string), st)
  else
    (_ <- promiseAll (map (fetchSource H dest (Some 1)) srcs) ;; ret tt) st.
Proof.
  unfold Builder.download, Builder.getSrcs.
  unfold bind at 1. unfold bind at 1. unfold get, ret.
  cbv zeta. fold (matchesHost (process st)).
  change (fun src : Source.t =>
            String.eqb (Source.os src) (platform (process st)) &&
            String.eqb (Source.arch src) (arch (process st)))
    with (matchesHost (process st)).
  destruct (Z.of_nat (List.length (filter (matchesHost (process st))
                                     (sources (this st)))) <? 1);
    reflexivity.
Qed.

Lemma steps_builder_download H dest :
  steps tarStripsOne (Builder.download H dest).
Proof.
  intros st r st' E. rewrite download_run in E. cbv zeta in E.
  destruct (Z.of_nat _ <? 1).
  - inversion E; subst. apply evolves_refl.
  - revert E. apply steps_bind; [|intros; apply steps_ret].
    apply steps_promiseAll. apply Forall_forall. intros t Ht.
    apply in_map_iff in Ht. destruct Ht as (src & <- & _).
    apply steps_fetchSource.
    + intros [] Hn; simpl in *; (exact I || contradiction).
    + intros f c. reflexivity.
Qed.

(** Whatever configuration calls have been made on the builder, the
    download phase runs [downloadAndExtract] with strip level 1 for every
    source that matches the host ([fetchSource] with [Some 1] is that call
    followed by the note of the downloaded url); in particular every call of
    the tar decoder made during the phase passes strip level 1. *)
Lemma download_hands_strip_one (H : Host) (ops : list ConfigOp)
  (dest : string) (st0 : State) :
  let st := configure ops st0 in
  let srcs := filter (matchesHost (process st)) (sources (this st)) in
  Builder.download H dest st =
    (if Z.of_nat (List.length srcs) <? 1 then
       (Throw (newError ("No binary for " ++ platform (process st) ++ "-"
                         ++ arch (process st))%string), st)
     else
       (_ <- promiseAll (map (fetchSource H dest (Some 1)) srcs) ;; ret tt) st)
  /\
  exists evs,
    trace (snd (Builder.download H dest st)) = trace st ++ evs /\
    Forall tarStripsOne evs.
Proof.
  intros st srcs. split.
  - apply download_run.
  - destruct (Builder.download H dest st) as [r st'] eqn:E.
    destruct (steps_builder_download H dest _ _ _ E)
      as (_ & _ & _ & _ & _ & evs & Ht & Hp).
    exists evs. auto.
Qed.

(** ** [build()] *)

(** A loop stops at the first iteration that throws. *)
Lemma forEach_halts {A} (pre post : list A) (x : A) (body : A -> M unit)
  st st1 st2 e :
  forEach pre body st = (Ok tt, st1) ->
  body x st1 = (Throw e, st2) ->
  forEach (pre ++ x :: post) body st = (Throw e, st2).
Proof.
  revert st. induction pre as [|y pre IH]; intros st Hpre Hx; simpl in *.
  - inversion Hpre; subst. now rewrite (bind_throw _ _ _ _ _ Hx).
  - destruct (bind_inv _ _ _ _ _ Hpre) as [([] & st0 & E1 & E2)|(e' & _ & He)];
      [|discriminate He].
    rewrite (bind_ok _ _ _ _ _ E1). now apply IH.
Qed.

(** C1.  The promise that [build()] returns settles as [ensureExist()]
    does, whatever the phases do afterwards: for every host and state it is
    the outcome of [ensureExist], at the state that [ensureExist] leaves.
    On the sample host with a source that answers 404, [build()] is
    fulfilled while the download fails with the HTTP error, which only
    the promise of the task carries. *)
Theorem build_settles_before_phases :
  (forall (H : Host) (st : State),
     returned (Builder.build H st) = fst (Builder.ensureExist st) /\
     at_return (Builder.build H st) = snd (Builder.ensureExist st)) /\
  (let o := Builder.build Sample.host (Sample.start builder404) in
   returned o = Ok tt /\
   detached o = Some (Throw (newError "HTTP error (404): Not Found"))).
Proof.
  split.
  - intros H st. unfold Builder.build.
    destruct (Builder.ensureExist st) as [[[]|e] st1]; simpl.
    + destruct (tempDirectoryTask H (Builder.buildTask H) st1). simpl. auto.
    + auto.
  - vm_compute. auto.
Qed.

(** C6.  On the sample host with the commands [A] (exit 0), [B] (exit 1)
    and [C]: [A] and [B] run in this order in the temporary build directory,
    [C] does not run, and the task fails with the error that names [B] and
    its exit code; the promise that [build()] has returned is fulfilled all
    the same.  The error of the task is the rejection of [execa], which
    comes before the test of the exit code in [build()] is reached. *)
Theorem build_command_failure_not_surfaced :
  let o := Builder.build Sample.host (Sample.start builderABC) in
  filter isExec (trace (final o)) =
    [EvExec "A" None "/tmp/binbuild-0"; EvExec "B" None "/tmp/binbuild-0"] /\
  detached o =
    Some (Throw (newError "Command failed with exit code 1: B")) /\
  returned o = Ok tt.
Proof. vm_compute. auto. Qed.

Lemma runCommands_run H buildDir st :
  Builder.runCommands H buildDir st =
  forEach (cmds (this st)) (commandStep H buildDir) st.
Proof. reflexivity. Qed.

(** The commands run in order, and a command for which [execa] rejects ends
    the loop with that rejection: the commands after it are not run. *)
Lemma runCommands_rejects H buildDir pre c post st st1 st2 e :
  cmds (this st) = pre ++ c :: post ->
  forEach pre (commandStep H buildDir) st = (Ok tt, st1) ->
  Builder.runExeca H c buildDir st1 = (Throw e, st2) ->
  Builder.runCommands H buildDir st = (Throw e, st2).
Proof.
  intros Hc Hpre Hexec. rewrite runCommands_run, Hc.
  eapply forEach_halts; [eassumption|].
  unfold commandStep. now rewrite (bind_throw _ _ _ _ _ Hexec).
Qed.

Lemma steps_runCommands H buildDir : steps anyEvent (Builder.runCommands H buildDir).
Proof.
  intros st r st' E. rewrite runCommands_run in E. revert E.
  apply steps_forEach. intros cmd. unfold commandStep, Builder.runExeca.
  apply steps_bind.
  - apply steps_bind; [now apply steps_log|]. intros. steps_structure.
  - intros code. destruct (negb (code =? 0)); steps_structure.
Qed.

Lemma steps_exists_ p : steps anyEvent (Builder.exists_ p).
Proof.
  unfold Builder.exists_. apply steps_tryCatch.
  - apply steps_bind; [apply steps_access | intros; apply steps_ret].
  - intros e. destruct (hasCode "ENOENT" e); steps_structure.
Qed.

Lemma steps_ensureExist : steps anyEvent Builder.ensureExist.
Proof.
  unfold Builder.ensureExist, Builder.dest, Builder.createDir.
  apply steps_bind; [steps_structure|]. intros d.
  apply steps_bind; [apply steps_exists_|]. intros [|]; [apply steps_ret|].
  apply steps_bind; [steps_structure|]. intros d'.
  now apply steps_mkdirRecursive.
Qed.

Lemma steps_builder_download_any H dest :
  steps anyEvent (Builder.download H dest).
Proof.
  intros st r st' E.
  destruct (steps_builder_download H dest _ _ _ E)
    as (H1 & H2 & H3 & H4 & H5 & evs & Ht & _).
  repeat split; try assumption. exists evs. split; [assumption|].
  apply Forall_forall. intros; exact I.
Qed.

Lemma same_path_eq p : forall q, FS.same_path p q = true -> p = q.
Proof.
  induction p as [|x p IH]; intros [|y q] Hs; simpl in Hs; try discriminate.
  - reflexivity.
  - apply andb_true_iff in Hs. destruct Hs as [Hx Hs].
    apply String.eqb_eq in Hx. subst. f_equal. auto.
Qed.

Lemma access_inv p st r st' :
  access p st = (r, st') ->
  st' = st /\ (r = Ok tt -> exists n, nodeAt p st = Ok n).
Proof.
  unfold access. intros E.
  destruct (bind_inv _ _ _ _ _ E) as [(n & sb & Es & Er)|(e & Es & ->)];
    destruct (statNode_inv _ _ _ _ Es) as [-> Hn].
  - inversion Er; subst. split; [reflexivity|]. intros _.
    destruct Hn as [[Hn _]|(e & Hn & _)]; [|discriminate Hn].
    exists n. unfold nodeAt. now rewrite <- Hn.
  - split; [reflexivity | discriminate].
Qed.

Lemma exists__inv p st r st' :
  Builder.exists_ p st = (r, st') ->
  st' = st /\ (r = Ok true -> exists n, nodeAt p st = Ok n).
Proof.
  unfold Builder.exists_, tryCatch. intros E.
  destruct ((access p ;; ret true) st) as [[b|err] sa] eqn:Ea.
  - inversion E; subst.
    destruct (bind_inv _ _ _ _ _ Ea) as [([] & sb & Eb & Er)|(e & _ & He)];
      [|discriminate He].
    destruct (access_inv _ _ _ _ Eb) as [-> Hn]. inversion Er; subst.
    split; [reflexivity|]. intros _. now apply Hn.
  - assert (sa = st) as ->.
    { destruct (bind_inv _ _ _ _ _ Ea) as [([] & sb & Eb & Er)|(e & Eb & _)].
      - discriminate Er.
      - now destruct (access_inv _ _ _ _ Eb). }
    destruct (hasCode "ENOENT" err); inversion E; subst;
      (split; [reflexivity | discriminate]).
Qed.

Lemma mkdirRecursive_inv p st st' :
  mkdirRecursive p st = (Ok tt, st') ->
  exists n',
    FS.mkdirp (FS.resolve (cwd (process st)) p) (fs st) = Ok n' /\
    st' = with_fs n' (with_event (EvMkdir p) st).
Proof.
  unfold mkdirRecursive. rewrite (bind_ok _ _ _ _ _ (log_run _ _)). intros E.
  destruct (bind_inv _ _ _ _ _ E) as [(c & sb & Ec & Eu)|(e & _ & He)];
    [|discriminate He].
  destruct (locate_inv _ _ _ _ Ec) as [-> [[Hc _]|(e & Hc)]];
    [|discriminate Hc].
  inversion Hc; subst c.
  destruct (update_inv _ _ _ _ Eu) as [(n' & Hn' & _ & ->)|(e & _ & He & _)];
    [|discriminate He].
  exists n'. split; [exact Hn' | reflexivity].
Qed.

Lemma dest_run st : Builder.dest st = (Ok (destination (this st)), st).
Proof. reflexivity. Qed.

(** After [ensureExist] has returned there is something at the target
    path. *)
Lemma ensureExist_target st st1 :
  Builder.ensureExist st = (Ok tt, st1) ->
  exists n, nodeAt (destination (this st)) st1 = Ok n.
Proof.
  unfold Builder.ensureExist. rewrite (bind_ok _ _ _ _ _ (dest_run st)).
  intros E.
  destruct (bind_inv _ _ _ _ _ E) as [(e & st0 & E1 & E2)|(e & _ & He)];
    [|discriminate He].
  destruct (exists__inv _ _ _ _ E1) as [-> Hn].
  destruct e.
  - inversion E2; subst. now apply Hn.
  - rewrite (bind_ok _ _ _ _ _ (dest_run st)) in E2.
    destruct (mkdirRecursive_inv _ _ _ E2) as (n' & Hn' & ->).
    destruct (mkdirp_stat _ _ _ Hn') as [es Hes].
    exists (Dir es). exact Hes.
Qed.

Lemma freshTemp_inv H st temp st' :
  freshTemp H st = (Ok temp, st') ->
  st' = with_tmpCount (S (tmpCount st)) st /\
  (String.eqb temp "" = true \/ exists e, nodeAt temp st = Throw e).
Proof.
  unfold freshTemp. unfold bind at 1. unfold get.
  unfold bind at 1. unfold modify. intros E.
  destruct (bind_inv _ _ _ _ _ E) as [(b & sa & Eb & Er)|(e & _ & He)];
    [|discriminate He].
  destruct (existsSync_inv _ _ _ _ Eb) as [-> [[Hb Hn]|[Hb Hn]]];
    inversion Hb; subst b; inversion Er; subst.
  split; [reflexivity|]. exact Hn.
Qed.

Lemma freshTempDir_inv H st temp st' :
  freshTempDir H st = (Ok temp, st') ->
  String.eqb temp "" = false /\ exists e, nodeAt temp st = Throw e.
Proof.
  unfold freshTempDir. intros E.
  destruct (bind_inv _ _ _ _ _ E) as [(t & sa & Et & E1)|(e & _ & He)];
    [|discriminate He].
  destruct (freshTemp_inv _ _ _ _ Et) as [-> Hfresh].
  destruct (bind_inv _ _ _ _ _ E1) as [(c & sb & Ec & E2)|(e & _ & He)];
    [|discriminate He].
  destruct (locate_inv _ _ _ _ Ec) as [-> [[_ Hne]|(e & Hc)]];
    [|discriminate Hc].
  destruct (bind_inv _ _ _ _ _ E2) as [([] & sc & _ & E3)|(e & _ & He)];
    [|discriminate He].
  inversion E3; subst.
  split; [exact Hne|].
  destruct Hfresh as [Hnil|Hfresh]; [congruence | exact Hfresh].
Qed.

Lemma rename_inv s d st st' :
  rename s d st = (Ok tt, st') ->
  FS.rename (FS.resolve (cwd (process st)) s) (FS.resolve (cwd (process st)) d)
    (fs st) = Ok (fs st') /\
  trace st' = trace st ++ [EvRename s d] /\
  process st' = process st.
Proof.
  intros E. pose proof (rename_trace _ _ _ _ _ E) as Ht.
  unfold rename in E. rewrite (bind_ok _ _ _ _ _ (log_run _ _)) in E.
  destruct (bind_inv _ _ _ _ _ E) as [(a & sa & Ea & E1)|(e & _ & He)];
    [|discriminate He].
  destruct (locate_inv _ _ _ _ Ea) as [-> [[Ha _]|(e & Ha)]];
    [|discriminate Ha].
  inversion Ha; subst a.
  destruct (bind_inv _ _ _ _ _ E1) as [(b & sb & Eb & E2)|(e & _ & He)];
    [|discriminate He].
  destruct (locate_inv _ _ _ _ Eb) as [-> [[Hb _]|(e & Hb)]];
    [|discriminate Hb].
  inversion Hb; subst b.
  destruct (update_inv _ _ _ _ E2) as [(n' & Hn' & _ & ->)|(e & _ & He & _)];
    [|discriminate He].
  split; [exact Hn'|]. split; [exact Ht | reflexivity].
Qed.

Lemma removeIfPresent_absent p st e :
  nodeAt p st = Throw e -> removeIfPresent p st = (Ok tt, st).
Proof.
  unfold nodeAt. intros Hn.
  unfold removeIfPresent, existsSync, tryCatch, statNode, locate, bind, get,
    liftResult, ret.
  destruct (String.eqb p ""); [reflexivity|]. now rewrite Hn.
Qed.

(** C5.  With an empty remap list, a build that succeeds (its task settles
    without error, and so does the promise of [build()]) has moved the
    temporary build directory to the target path by one [rename] of the
    directory itself: the node that was at the build directory when the
    commands had finished is at the target path at the end, and nothing is
    left at the path of the build directory.  [st1] is
    the state after [ensureExist], [st0] the state in which the fresh build
    directory has been made, [mid] the state after the downloads and the
    commands. *)
Theorem build_empty_remaps_moves_build_dir (H : Host) (st : State) :
  fileRemaps (this st) = [] ->
  detached (Builder.build H st) = Some (Ok tt) ->
  let target := destination (this st) in
  let final_state := final (Builder.build H st) in
  returned (Builder.build H st) = Ok tt /\
  exists st1 buildDir st0 mid moved,
    Builder.ensureExist st = (Ok tt, st1) /\
    freshTempDir H st1 = (Ok buildDir, st0) /\
    (Builder.download H buildDir ;; Builder.runCommands H buildDir) st0
      = (Ok tt, mid) /\
    nodeAt buildDir mid = Ok moved /\
    nodeAt target final_state = Ok moved /\
    (exists e, nodeAt buildDir final_state = Throw e) /\
    trace final_state = trace mid ++ [EvRename buildDir target].
Proof.
  intros Hremaps Hdet target final_state. subst final_state.
  assert (Hret : returned (Builder.build H st) = Ok tt).
  { unfold Builder.build in *.
    destruct (Builder.ensureExist st) as [[[]|e] st1]; [|discriminate Hdet].
    now destruct (tempDirectoryTask H (Builder.buildTask H) st1). }
  split; [exact Hret|]. clear Hret.
  unfold Builder.build in *.
  destruct (Builder.ensureExist st) as [[[]|e] st1] eqn:Eens;
    [|discriminate Hdet].
  destruct (tempDirectoryTask H (Builder.buildTask H) st1) as [r st2] eqn:Etask.
  simpl in Hdet. inversion Hdet; subst r. clear Hdet. simpl final.
  (* the temporary directory *)
  unfold tempDirectoryTask in Etask.
  destruct (bind_inv _ _ _ _ _ Etask) as [(buildDir & st0 & Etmp & Efin)|(e & _ & He)];
    [|discriminate He].
  unfold finally in Efin.
  destruct (Builder.buildTask H buildDir st0) as [r st3] eqn:Ebuild.
  inversion Efin; subst r. clear Efin.
  (* the three phases *)
  unfold Builder.buildTask in Ebuild.
  destruct (bind_inv _ _ _ _ _ Ebuild) as [([] & sa & Edl & E1)|(e & _ & He)];
    [|discriminate He].
  destruct (bind_inv _ _ _ _ _ E1) as [([] & mid & Ecmd & Eremap)|(e & _ & He)];
    [|discriminate He].
  (* what the phases leave alone *)
  pose proof (steps_ensureExist _ _ _ Eens) as (Hp1 & _ & Hd1 & _ & Hr1 & _).
  pose proof (steps_freshTempDir anyEvent H _ _ _ Etmp) as (Hp0 & _ & Hd0 & _ & Hr0 & _).
  pose proof (steps_builder_download_any H _ _ _ _ Edl) as (Hpa & _ & Hda & _ & Hra & _).
  pose proof (steps_runCommands H _ _ _ _ Ecmd) as (Hpm & _ & Hdm & _ & Hrm & _).
  assert (Hproc0 : process st0 = process st1) by exact Hp0.
  assert (Hproc : process mid = process st1) by congruence.
  assert (Hdest : destination (this mid) = target)
    by (subst target; congruence).
  assert (Hrs : fileRemaps (this mid) = []) by congruence.
  (* the remap phase is one rename *)
  assert (Eren : rename buildDir target mid = (Ok tt, st3)).
  { unfold Builder.remapFiles, Builder.remaps, Builder.dest in Eremap.
    unfold bind at 1 in Eremap. unfold bind at 1 in Eremap.
    unfold get, ret in Eremap. rewrite Hrs in Eremap. simpl in Eremap.
    unfold bind at 1 in Eremap. unfold bind at 1 in Eremap.
    unfold get, ret in Eremap. rewrite Hdest in Eremap. exact Eremap. }
  destruct (rename_inv _ _ _ _ Eren) as (Hfs & Htrace & Hproc3).
  (* the two paths differ: the target is there when the name is taken *)
  destruct (ensureExist_target _ _ Eens) as [nt Hnt]. fold target in Hnt.
  destruct (freshTempDir_inv _ _ _ _ Etmp) as [_ [e0 Hfresh]].
  assert (Hsame : FS.same_path (FS.resolve (cwd (process mid)) buildDir)
                    (FS.resolve (cwd (process mid)) target) = false).
  { destruct (FS.same_path _ _) eqn:Es; [|reflexivity].
    apply same_path_eq in Es. unfold nodeAt in Hnt, Hfresh.
    rewrite Hproc in Es. rewrite Es in Hfresh. congruence. }
  destruct (rename_moves _ _ _ _ Hfs Hsame) as (moved & Hsrc & Hdst & e1 & Hgone).
  assert (Habsent : nodeAt buildDir st3 = Throw e1)
    by (unfold nodeAt; rewrite Hproc3; exact Hgone).
  rewrite (removeIfPresent_absent _ _ _ Habsent). simpl.
  exists st1, buildDir, st0, mid, moved.
  split; [reflexivity|]. split; [exact Etmp|]. split.
  { rewrite (bind_ok _ _ _ _ _ Edl). exact Ecmd. }
  split; [exact Hsrc|]. split.
  { unfold nodeAt. rewrite Hproc3. exact Hdst. }
  split; [eauto | exact Htrace].
Qed.

(** A build on the sample host with one source, one command and no
    remap. *)
Lemma build_empty_remaps_moves_build_dir_witness :
  let st := Sample.start builderOK in
  let final_state := final (Builder.build Sample.host st) in
  fileRemaps (this st) = [] /\
  detached (Builder.build Sample.host st) = Some (Ok tt) /\
  returned (Builder.build Sample.host st) = Ok tt /\
  exists st1 buildDir st0 mid moved,
    Builder.ensureExist st = (Ok tt, st1) /\
    freshTempDir Sample.host st1 = (Ok buildDir, st0) /\
    (Builder.download Sample.host buildDir ;;
     Builder.runCommands Sample.host buildDir) st0 = (Ok tt, mid) /\
    nodeAt buildDir mid = Ok moved /\
    nodeAt "out" final_state = Ok moved /\
    (exists e, nodeAt buildDir final_state = Throw e) /\
    trace final_state = trace mid ++ [EvRename buildDir "out"].
Proof.
  intros st final_state.
  split; [reflexivity|]. split; [vm_compute; reflexivity|].
  apply (build_empty_remaps_moves_build_dir Sample.host st);
    vm_compute; reflexivity.
Defined.

(** On the sample host the target directory ends up with the one entry that
    the archive brought into the build directory. *)
Example build_sample_target :
  nodeAt "out" (final (Builder.build Sample.host (Sample.start builderOK)))
  = Ok (Dir [("tool"%string, Sample.tool)]).
Proof. vm_compute. reflexivity. Qed.

(* ===================================================================== *)
(** * Further properties of the code                                      *)
(* ===================================================================== *)

(** ** Configuration of the builder *)

(** X1.  [dest(dest)] throws [Destination <dest> is not a directory] exactly
    when there is a file at the path, and then leaves the builder as it was;
    in every other case (a directory, nothing there, an unreadable path) it
    stores the path as the target directory and changes nothing else. *)
Theorem dest_set_guard (d : string) (st : State) :
  Builder.dest_set d st =
  if isFileAt d st then
    (Throw (newError ("Destination " ++ d ++ " is not a directory")%string), st)
  else (Ok tt, with_this (withDestination d (this st)) st).
Proof.
  unfold Builder.dest_set, Builder.exist, Builder.isDirectory, existsSync,
    statSyncIsDirectory, tryCatch, statNode, locate, bind, get, liftResult,
    ret, throw, Builder.onThis, modify, isFileAt, nodeAt, withDestination.
  destruct (String.eqb d "") eqn:Hd; simpl; [reflexivity|].
  destruct (FS.stat (FS.resolve (cwd (process st)) d) (fs st))
    as [[data|es]|e] eqn:E; simpl; rewrite ?Hd; simpl; rewrite ?E;
    reflexivity.
Qed.

Lemma dest_set_world d st :
  let st' := snd (Builder.dest_set d st) in
  fs st' = fs st /\ trace st' = trace st /\ process st' = process st /\
  tmpCount st' = tmpCount st /\
  downloaded (this st') = downloaded (this st) /\
  sources (this st') = sources (this st).
Proof.
  unfold Builder.dest_set, Builder.exist, Builder.isDirectory, existsSync,
    statSyncIsDirectory, tryCatch, statNode, locate, bind, get, liftResult,
    ret, throw, Builder.onThis, modify.
  destruct (String.eqb d "") eqn:Hd; simpl; [repeat split|].
  destruct (FS.stat (FS.resolve (cwd (process st)) d) (fs st))
    as [[data|es]|e] eqn:E; simpl; rewrite ?Hd; simpl; rewrite ?E;
    simpl; repeat split.
Qed.

Lemma configOp_world op st :
  let st' := snd (configOp op st) in
  fs st' = fs st /\ trace st' = trace st /\ process st' = process st /\
  tmpCount st' = tmpCount st /\
  downloaded (this st') = downloaded (this st) /\
  exists added, sources (this st') = sources (this st) ++ added.
Proof.
  destruct op as [url os arch_|d|rs|cs]; unfold configOp; cbv zeta.
  - rewrite src_run. simpl. repeat split. eauto.
  - destruct (dest_set_world d st) as (Hf & Ht & Hp & Hc & Hd & Hs).
    simpl. repeat split; try assumption.
    exists []. now rewrite app_nil_r.
  - simpl. repeat split. exists []. now rewrite app_nil_r.
  - simpl. repeat split. exists []. now rewrite app_nil_r.
Qed.

(** X2.  The configuration calls [src], [dest], [remaps] and [commands], in
    any number and order, change nothing outside the builder: the tree on
    disk, the values of [process] and the supply of temporary names are as
    before, and none of the calls that the trace records has been made (no
    [fetch], no write, [unlink], [copyFile], [mkdir], [rename] or removal,
    no decoder, no [execa]).  The disk is only read, by the check of
    [dest(dest)] with [existsSync] and [statSync].  Inside the builder the
    calls leave the list of downloaded sources alone and never remove or
    reorder a registered source. *)
Theorem configure_keeps_world (ops : list ConfigOp) (st : State) :
  let st' := configure ops st in
  fs st' = fs st /\ trace st' = trace st /\ process st' = process st /\
  tmpCount st' = tmpCount st /\
  downloaded (this st') = downloaded (this st) /\
  exists added, sources (this st') = sources (this st) ++ added.
Proof.
  revert st. induction ops as [|op ops IH]; intros st; simpl.
  - repeat split. exists []. now rewrite app_nil_r.
  - destruct (configOp_world op st) as (H1 & H2 & H3 & H4 & H5 & a1 & H6).
    destruct (IH (snd (configOp op st))) as (G1 & G2 & G3 & G4 & G5 & a2 & G6).
    repeat split; try congruence.
    exists (a1 ++ a2). rewrite G6, H6. now rewrite app_assoc.
Qed.

(** ** The target directory *)

Lemma exists__run p st :
  Builder.exists_ p st =
  (match accessOf p st with
   | Ok _ => Ok true
   | Throw e => if hasCode "ENOENT" e then Ok false else Throw e
   end, st).
Proof.
  unfold Builder.exists_, access, tryCatch, statNode, locate, bind, get,
    liftResult, ret, throw, accessOf, nodeAt.
  destruct (String.eqb p ""); simpl; [reflexivity|].
  destruct (FS.stat (FS.resolve (cwd (process st)) p) (fs st)) as [n|e];
    simpl; [reflexivity|].
  destruct (hasCode "ENOENT" e); reflexivity.
Qed.

(** X3.  The helper [exists(filepath)] answers [true] when the path can be
    reached, [false] when the error of [access] has the code [ENOENT], and
    throws every other error as it is (a path below a file gives
    [ENOTDIR]); it never changes anything. *)
Theorem exists__outcome (p : string) (st : State) :
  Builder.exists_ p st =
  (match accessOf p st with
   | Ok _ => Ok true
   | Throw e => if hasCode "ENOENT" e then Ok false else Throw e
   end, st).
Proof. exact (exists__run p st). Qed.

Lemma ensureExist_run st :
  Builder.ensureExist st =
  match accessOf (destination (this st)) st with
  | Ok _ => (Ok tt, st)
  | Throw e =>
      if hasCode "ENOENT" e then mkdirRecursive (destination (this st)) st
      else (Throw e, st)
  end.
Proof.
  unfold Builder.ensureExist. rewrite (bind_ok _ _ _ _ _ (dest_run st)).
  unfold bind at 1. rewrite exists__run.
  destruct (accessOf (destination (this st)) st) as [n|e]; [reflexivity|].
  destruct (hasCode "ENOENT" e); [|reflexivity].
  rewrite (bind_ok _ _ _ _ _ (dest_run st)). reflexivity.
Qed.

Lemma ensureExist_this st st1 :
  Builder.ensureExist st = (Ok tt, st1) -> this st1 = this st.
Proof.
  intros E. rewrite ensureExist_run in E.
  destruct (accessOf (destination (this st)) st) as [n|e].
  - now inversion E.
  - destruct (hasCode "ENOENT" e); [|discriminate E].
    destruct (mkdirRecursive_inv _ _ _ E) as (n' & _ & ->). reflexivity.
Qed.

(** X4.  When [ensureExist()] returns, either something was at the target
    path already and nothing has been done, or nothing was there and the
    one call made is the recursive [mkdir] of the target, which is a
    directory afterwards. *)
Theorem ensureExist_keeps_or_creates (st st1 : State) :
  Builder.ensureExist st = (Ok tt, st1) ->
  let target := destination (this st) in
  (st1 = st /\ exists n, nodeAt target st = Ok n) \/
  ((exists e, nodeAt target st = Throw e) /\
   (exists es, nodeAt target st1 = Ok (Dir es)) /\
   trace st1 = trace st ++ [EvMkdir target] /\
   this st1 = this st).
Proof.
  intros E target. rewrite ensureExist_run in E. fold target in E.
  unfold accessOf in E.
  destruct (String.eqb target "") eqn:Hnil.
  - simpl in E. unfold mkdirRecursive in E.
    rewrite (bind_ok _ _ _ _ _ (log_run _ _)) in E.
    unfold bind, locate in E. simpl in E. rewrite Hnil in E. discriminate E.
  - destruct (nodeAt target st) as [n|e] eqn:Hn.
    + inversion E; subst. left. eauto.
    + destruct (hasCode "ENOENT" e); [|discriminate E].
      destruct (mkdirRecursive_inv _ _ _ E) as (n' & Hn' & ->).
      destruct (mkdirp_stat _ _ _ Hn') as [es Hes].
      right. split; [eauto|]. split; [exists es; exact Hes|].
      split; reflexivity.
Qed.

(** Before any call: the target [out] of the sample disk is made. *)
Lemma ensureExist_keeps_or_creates_witness :
  let st := Sample.start builderOK in
  let st1 := snd (Builder.ensureExist st) in
  (st1 = st /\ exists n, nodeAt "out" st = Ok n) \/
  ((exists e, nodeAt "out" st = Throw e) /\
   (exists es, nodeAt "out" st1 = Ok (Dir es)) /\
   trace st1 = trace st ++ [EvMkdir "out"] /\
   this st1 = this st).
Proof.
  intros st st1.
  apply (ensureExist_keeps_or_creates st st1). vm_compute. reflexivity.
Defined.

(** X5.  [ensureExist()] is idempotent: called again in the state it has
    left, it returns without a call and without a change. *)
Theorem ensureExist_idempotent (st st1 : State) :
  Builder.ensureExist st = (Ok tt, st1) ->
  Builder.ensureExist st1 = (Ok tt, st1).
Proof.
  intros E.
  assert (Hnil : String.eqb (destination (this st)) "" = false).
  { rewrite ensureExist_run in E. unfold accessOf in E.
    destruct (String.eqb (destination (this st)) "") eqn:Hn; [|reflexivity].
    simpl in E. unfold mkdirRecursive in E.
    rewrite (bind_ok _ _ _ _ _ (log_run _ _)) in E.
    unfold bind, locate in E. simpl in E. rewrite Hn in E. discriminate E. }
  destruct (ensureExist_target _ _ E) as [n Hn].
  assert (Hd : destination (this st1) = destination (this st))
    by now rewrite (ensureExist_this _ _ E).
  rewrite ensureExist_run, Hd. unfold accessOf. rewrite Hnil, Hn. reflexivity.
Qed.

Lemma ensureExist_idempotent_witness :
  let st1 := snd (Builder.ensureExist (Sample.start builderOK)) in
  Builder.ensureExist st1 = (Ok tt, st1).
Proof.
  intros st1.
  apply (ensureExist_idempotent (Sample.start builderOK) st1).
  vm_compute. reflexivity.
Defined.

(** ** [downloadFromURL]: how a fetch ends *)

Lemma put_ok_of_stat p : forall v n c,
  FS.stat p n = Ok c -> exists n', FS.put p v n = Ok n'.
Proof.
  induction p as [|x p IH]; intros v n c Hs.
  - simpl. eauto.
  - destruct n as [|es]; [discriminate Hs|]. rewrite stat_cons in Hs.
    destruct (FS.assoc x es) as [c0|] eqn:Ha; [|discriminate Hs].
    destruct p as [|y p'].
    + simpl. eauto.
    + rewrite put_cons2, Ha.
      destruct (IH v c0 c Hs) as [n' ->]. eauto.
Qed.

Lemma del_ok_of_stat p : forall n c,
  p <> [] -> FS.stat p n = Ok c -> exists n', FS.del p n = Ok n'.
Proof.
  induction p as [|x p IH]; intros n c Hne Hs; [congruence|].
  destruct n as [|es]; [discriminate Hs|]. rewrite stat_cons in Hs.
  simpl. destruct (FS.assoc x es) as [c0|] eqn:Ha; [|discriminate Hs].
  destruct p as [|y p'].
  - eauto.
  - destruct (IH c0 c) as [n' Hn']; [discriminate | exact Hs |].
    rewrite Hn'. eauto.
Qed.

Lemma writeFile_ok_nonempty p data st st' :
  writeFile p data st = (Ok tt, st') -> String.eqb p "" = false.
Proof.
  unfold writeFile. intros E.
  destruct (bind_inv _ _ _ _ _ E) as [(c & sa & Ec & _)|(e & _ & He)];
    [|discriminate He].
  destruct (locate_inv _ _ _ _ Ec) as [_ [[_ Hp]|(e & Hc)]];
    [exact Hp | discriminate Hc].
Qed.

(** Writing over a file that is there succeeds. *)
Lemma writeFile_over p data st old :
  String.eqb p "" = false -> nodeAt p st = Ok (File old) ->
  exists n',
    FS.put (FS.resolve (cwd (process st)) p) (File data) (fs st) = Ok n' /\
    writeFile p data st = (Ok tt, with_fs n' st).
Proof.
  unfold nodeAt. intros Hp Hn.
  destruct (put_ok_of_stat _ (File data) _ _ Hn) as [n' Hn'].
  exists n'. split; [exact Hn'|].
  unfold writeFile, locate, bind, get, update. rewrite Hp. simpl.
  rewrite Hn, Hn'. reflexivity.
Qed.

Lemma createWriteStream_ok dest st st1 :
  writeFile dest [] (with_event (EvOpenWrite dest) st) = (Ok tt, st1) ->
  createWriteStream dest st = (Ok (mkWriteStream dest (Ok tt)), st1).
Proof.
  intros Hw. unfold createWriteStream.
  rewrite (bind_ok _ _ _ _ _ (log_run _ _)). now rewrite Hw.
Qed.

Lemma bind_throw_after {A B} (m : M A) (e : Error) st a st' :
  m st = (Ok a, st') -> (m ;; @throw B e) st = (Throw e, st').
Proof. intros E. now rewrite (bind_ok _ _ _ _ _ E). Qed.

(** X6.  When [fetch] itself rejects (no connection, a malformed address),
    [downloadFromURL] rejects with that error as it is, and the destination
    has not been opened: the fetch is the only call made. *)
Theorem downloadFromURL_fetch_rejects (H : Host) (url dest : string)
  (st : State) (e : Error) :
  fetch H url = Throw e ->
  downloadFromURL H url dest st = (Throw e, with_event (EvFetch url) st).
Proof.
  intros Hf. unfold downloadFromURL.
  apply bind_throw. unfold bind, log, modify, liftResult. now rewrite Hf.
Qed.

Lemma downloadFromURL_fetch_rejects_witness :
  downloadFromURL offlineHost "https://example.com/tool.tgz" "/tmp/tool.tgz"
    (Sample.start Builder.new) =
  (Throw offline,
   with_event (EvFetch "https://example.com/tool.tgz")
     (Sample.start Builder.new)).
Proof.
  apply (downloadFromURL_fetch_rejects offlineHost). reflexivity.
Defined.

(** X7.  When the body of an [ok] response breaks off while it is written,
    [downloadFromURL] removes the file it has begun and throws
    [Failed to download <url>: <cause>]: nothing is left at the destination
    (which is not the root directory). *)
Theorem downloadFromURL_stream_failure (H : Host) (url dest : string)
  (st st1 : State) (resp : Response) (b : Body) (cause : Error) :
  fetch H url = Ok resp -> ok resp = true -> body resp = Some b ->
  failure b = Some cause ->
  writeFile dest [] (with_event (EvOpenWrite dest) (with_event (EvFetch url) st))
    = (Ok tt, st1) ->
  FS.resolve (cwd (process st)) dest <> [] ->
  fst (downloadFromURL H url dest st) =
    Throw (newError ("Failed to download " ++ url ++ ": "
                     ++ toString cause)%string) /\
  exists e, nodeAt dest (snd (downloadFromURL H url dest st)) = Throw e.
Proof.
  intros Hf Hok Hb Hfail Hw Hroot.
  pose proof (writeFile_ok_nonempty _ _ _ _ Hw) as Hp.
  destruct (writeFile_inv _ _ _ _ Hw) as [Hn1 Hproc1].
  simpl in Hproc1.
  (* the stream is opened, the bytes that arrive are written *)
  set (st2 := with_event (EvWrite dest) st1).
  destruct (writeFile_over dest (delivered b) st2 [] Hp Hn1) as (n3 & Hn3 & Hw3).
  set (st3 := with_fs n3 st2) in *.
  assert (Hat3 : nodeAt dest st3 = Ok (File (delivered b))).
  { unfold nodeAt. simpl. eapply stat_put_same. exact Hn3. }
  (* the file is unlinked *)
  set (st4 := with_event (EvUnlink dest) st3).
  assert (Hres : FS.resolve (cwd (process st4)) dest <> [])
    by (simpl; now rewrite Hproc1).
  destruct (del_ok_of_stat _ _ _ Hres Hat3) as [n5 Hn5].
  assert (Hunlink : unlinkSync dest st3 = (Ok tt, with_fs n5 st4)).
  { unfold unlinkSync. rewrite (bind_ok _ _ _ _ _ (log_run _ _)).
    fold st4. unfold statNode, locate, bind, get, liftResult, update.
    rewrite Hp. simpl. unfold nodeAt in Hat3. simpl in Hat3. rewrite Hat3.
    simpl. rewrite ?Hp. simpl in Hn5. rewrite Hn5. reflexivity. }
  assert (Hpipe : pipeline b (mkWriteStream dest (Ok tt)) st1
                  = (Throw cause, st3)).
  { unfold pipeline. simpl.
    rewrite (bind_ok _ _ _ _ _ (log_run _ _)). fold st2.
    rewrite (bind_ok _ _ _ _ _ Hw3). now rewrite Hfail. }
  assert (Hrun : downloadFromURL H url dest st =
    (Throw (newError ("Failed to download " ++ url ++ ": "
                      ++ toString cause)%string), with_fs n5 st4)).
  { unfold downloadFromURL.
    assert (E0 : (log (EvFetch url) ;; liftResult (fetch H url)) st
                 = (Ok resp, with_event (EvFetch url) st)).
    { unfold bind, log, modify, liftResult. now rewrite Hf. }
    rewrite (bind_ok _ _ _ _ _ E0).
    rewrite (bind_ok _ _ _ _ _ (createWriteStream_ok _ _ _ Hw)).
    rewrite Hok, Hb. change (negb true) with false. cbv iota.
    unfold tryCatch at 1. rewrite Hpipe.
    apply (bind_throw_after _ _ _ tt). unfold tryCatch. now rewrite Hunlink. }
  rewrite Hrun. simpl. split; [reflexivity|].
  unfold nodeAt. simpl. eapply stat_del_same. exact Hn5.
Qed.

Lemma downloadFromURL_stream_failure_witness :
  let st := Sample.start Builder.new in
  let url := "https://example.com/tool.tgz"%string in
  fst (downloadFromURL flakyHost url "/tmp/tool.tgz" st) =
    Throw (newError "Failed to download https://example.com/tool.tgz: Error: socket hang up") /\
  exists e, nodeAt "/tmp/tool.tgz"
              (snd (downloadFromURL flakyHost url "/tmp/tool.tgz" st)) = Throw e.
Proof.
  intros st url.
  refine (downloadFromURL_stream_failure flakyHost url "/tmp/tool.tgz" st
            (snd (writeFile "/tmp/tool.tgz" []
                    (with_event (EvOpenWrite "/tmp/tool.tgz")
                       (with_event (EvFetch url) st))))
            _ _ brokenStream eq_refl eq_refl eq_refl eq_refl _ _).
  - vm_compute. reflexivity.
  - vm_compute. discriminate.
Defined.

(** X8.  When the response is [ok] and its body arrives whole,
    [downloadFromURL] returns and the file at the destination holds exactly
    the bytes of the body. *)
Theorem downloadFromURL_success (H : Host) (url dest : string)
  (st st1 : State) (resp : Response) (b : Body) :
  fetch H url = Ok resp -> ok resp = true -> body resp = Some b ->
  failure b = None ->
  writeFile dest [] (with_event (EvOpenWrite dest) (with_event (EvFetch url) st))
    = (Ok tt, st1) ->
  fst (downloadFromURL H url dest st) = Ok tt /\
  nodeAt dest (snd (downloadFromURL H url dest st)) = Ok (File (delivered b)).
Proof.
  intros Hf Hok Hb Hfail Hw.
  pose proof (writeFile_ok_nonempty _ _ _ _ Hw) as Hp.
  destruct (writeFile_inv _ _ _ _ Hw) as [Hn1 _].
  set (st2 := with_event (EvWrite dest) st1).
  destruct (writeFile_over dest (delivered b) st2 [] Hp Hn1) as (n3 & Hn3 & Hw3).
  assert (Hpipe : pipeline b (mkWriteStream dest (Ok tt)) st1
                  = (Ok tt, with_fs n3 st2)).
  { unfold pipeline. simpl.
    rewrite (bind_ok _ _ _ _ _ (log_run _ _)). fold st2.
    rewrite (bind_ok _ _ _ _ _ Hw3). now rewrite Hfail. }
  assert (Hrun : downloadFromURL H url dest st = (Ok tt, with_fs n3 st2)).
  { unfold downloadFromURL.
    assert (E0 : (log (EvFetch url) ;; liftResult (fetch H url)) st
                 = (Ok resp, with_event (EvFetch url) st)).
    { unfold bind, log, modify, liftResult. now rewrite Hf. }
    rewrite (bind_ok _ _ _ _ _ E0).
    rewrite (bind_ok _ _ _ _ _ (createWriteStream_ok _ _ _ Hw)).
    rewrite Hok, Hb. change (negb true) with false. cbv iota.
    unfold tryCatch. now rewrite Hpipe. }
  rewrite Hrun. simpl. split; [reflexivity|].
  unfold nodeAt. simpl. eapply stat_put_same. exact Hn3.
Qed.

Lemma downloadFromURL_success_witness :
  let st := Sample.start Builder.new in
  let url := "https://example.com/tool.tgz"%string in
  fst (downloadFromURL Sample.host url "/tmp/tool.tgz" st) = Ok tt /\
  nodeAt "/tmp/tool.tgz" (snd (downloadFromURL Sample.host url "/tmp/tool.tgz" st))
    = Ok (File Sample.gz).
Proof.
  intros st url.
  refine (downloadFromURL_success Sample.host url "/tmp/tool.tgz" st
            (snd (writeFile "/tmp/tool.tgz" []
                    (with_event (EvOpenWrite "/tmp/tool.tgz")
                       (with_event (EvFetch url) st))))
            _ (mkBody Sample.gz None) eq_refl eq_refl eq_refl eq_refl _).
  vm_compute. reflexivity.
Defined.

(** ** What leaves the builder object alone *)

Lemma keeps_ret {A} (a : A) : keeps (ret a).
Proof. intros st r st' E. now inversion E. Qed.

Lemma keeps_throw {A} e : keeps (@throw A e).
Proof. intros st r st' E. now inversion E. Qed.

Lemma keeps_get : keeps get.
Proof. intros st r st' E. now inversion E. Qed.

Lemma keeps_liftResult {A} (x : Result A) : keeps (liftResult x).
Proof. intros st r st' E. now inversion E. Qed.

Lemma keeps_bind {A B} (m : M A) (k : A -> M B) :
  keeps m -> (forall a, keeps (k a)) -> keeps (bind m k).
Proof.
  intros Hm Hk st r st' E.
  destruct (bind_inv _ _ _ _ _ E) as [(a & st1 & E1 & E2)|(e & E1 & _)].
  - rewrite (Hk _ _ _ _ E2). eapply Hm; eassumption.
  - eapply Hm; eassumption.
Qed.

Lemma keeps_tryCatch {A} (m : M A) (h : Error -> M A) :
  keeps m -> (forall e, keeps (h e)) -> keeps (tryCatch m h).
Proof.
  intros Hm Hh st r st' E. unfold tryCatch in E.
  destruct (m st) as [[a|e] st1] eqn:E1.
  - inversion E; subst. eapply Hm; eassumption.
  - rewrite (Hh _ _ _ _ E). eapply Hm; eassumption.
Qed.

Lemma keeps_finally {A} (m : M A) (c : M unit) :
  keeps m -> keeps c -> keeps (finally m c).
Proof.
  intros Hm Hc st r st' E. unfold finally in E.
  destruct (m st) as [r1 st1] eqn:E1. inversion E; subst.
  destruct (c st1) as [r2 st2] eqn:E2. simpl.
  rewrite (Hc _ _ _ E2). eapply Hm; eassumption.
Qed.

Lemma keeps_forEach {A} (xs : list A) (body : A -> M unit) :
  (forall x, keeps (body x)) -> keeps (forEach xs body).
Proof.
  intros Hb. induction xs as [|x xs IH]; simpl.
  - apply keeps_ret.
  - apply keeps_bind; auto.
Qed.

Lemma keeps_log e : keeps (log e).
Proof. intros st r st' E. now inversion E. Qed.

Lemma keeps_tmpCount k : keeps (modify (with_tmpCount k)).
Proof. intros st r st' E. now inversion E. Qed.

Lemma keeps_update f : keeps (update f).
Proof.
  intros st r st' E. unfold update in E.
  destruct (f (fs st)); now inversion E.
Qed.

Lemma keeps_external {A} (f : node -> Result A * node) : keeps (external f).
Proof.
  intros st r st' E. unfold external in E.
  destruct (f (fs st)). now inversion E.
Qed.

Lemma keeps_locate p : keeps (locate p).
Proof.
  intros st r st' E. unfold locate in E.
  destruct (String.eqb p ""); now inversion E.
Qed.

Ltac keeps_structure :=
  repeat first
    [ apply keeps_ret | apply keeps_throw | apply keeps_get
    | apply keeps_liftResult | apply keeps_update | apply keeps_external
    | apply keeps_locate | apply keeps_tmpCount | apply keeps_log
    | apply keeps_bind; [|intros ?]
    | apply keeps_tryCatch; [|intros ?]
    | apply keeps_finally
    | apply keeps_forEach; intros ?
    | match goal with
      | |- keeps (if ?b then _ else _) => destruct b
      | |- keeps (match ?x with _ => _ end) => destruct x
      end ].

Lemma keeps_writeFile p data : keeps (writeFile p data).
Proof. unfold writeFile. keeps_structure. Qed.

Lemma keeps_rename s d : keeps (rename s d).
Proof. unfold rename. keeps_structure. Qed.

Lemma keeps_createWriteStream p : keeps (createWriteStream p).
Proof.
  unfold createWriteStream. apply keeps_bind; [apply keeps_log|]. intros _.
  intros st r st' E. destruct (writeFile p [] st) as [r1 st1] eqn:E1.
  inversion E; subst. eapply keeps_writeFile; eassumption.
Qed.

Lemma keeps_download H url dest : keeps (download H url dest).
Proof.
  unfold download, copyLocalFile, copyFile, downloadFromURL, pipeline,
    unlinkSync, statNode.
  destruct (isLocalPath H url).
  - keeps_structure.
  - apply keeps_bind; [keeps_structure|]. intros resp.
    apply keeps_bind; [apply keeps_createWriteStream|]. intros ws.
    destruct (negb (ok resp)); [apply keeps_throw|].
    destruct (body resp); [|apply keeps_throw].
    apply keeps_tryCatch.
    + destruct (ws_opened ws); [|apply keeps_throw].
      apply keeps_bind; [apply keeps_log|]. intros.
      apply keeps_bind; [apply keeps_writeFile|]. intros. keeps_structure.
    + intros. keeps_structure.
Qed.

Lemma keeps_extract H filepath dest format strip :
  keeps (extract H filepath dest format strip).
Proof.
  destruct format; simpl.
  - unfold extractTar. keeps_structure.
  - unfold extractZip, zipDecode, pathResolve, walkDir, statNode.
    apply keeps_bind; [keeps_structure|]. intros _.
    destruct strip as [strip|]; [|apply keeps_ret].
    apply keeps_bind.
    { destruct (strip + 1 <? 0); keeps_structure. }
    intros leaves. apply keeps_forEach. intros leaf.
    apply keeps_tryCatch; [apply keeps_rename | intros; apply keeps_throw].
Qed.

Lemma keeps_downloadAndExtract H url dest strip :
  keeps (downloadAndExtract H url dest strip).
Proof.
  unfold downloadAndExtract, tempFileTask, freshTempFile, freshTemp,
    existsSync, statNode, removeRecursive, getTypeOf.
  apply keeps_bind.
  { apply keeps_bind; [|intros; apply keeps_bind;
                          [apply keeps_writeFile | intros; apply keeps_ret]].
    keeps_structure. }
  intros temp. apply keeps_finally; [|keeps_structure].
  apply keeps_bind; [apply keeps_download|]. intros _.
  apply keeps_bind; [keeps_structure|]. intros mime.
  apply keeps_bind; [apply keeps_liftResult|]. intros format.
  apply keeps_extract.
Qed.

(** ** The list of downloaded sources *)

Lemma fetchSource_downloaded H dest strip src st r st1 :
  fetchSource H dest strip src st = (r, st1) ->
  (r = Ok tt /\
   downloaded (this st1) = downloaded (this st) ++ [Source.url src]) \/
  ((exists e, r = Throw e) /\ downloaded (this st1) = downloaded (this st)).
Proof.
  unfold fetchSource. intros E.
  destruct (bind_inv _ _ _ _ _ E) as [([] & sa & E1 & E2)|(e & E1 & ->)].
  - left. inversion E2; subst. simpl.
    rewrite (keeps_downloadAndExtract _ _ _ _ _ _ _ E1). auto.
  - right. rewrite (keeps_downloadAndExtract _ _ _ _ _ _ _ E1). eauto.
Qed.

Lemma promiseAll_downloaded H dest strip srcs : forall st r st',
  promiseAll (map (fetchSource H dest strip) srcs) st = (r, st') ->
  exists noted,
    downloaded (this st') = downloaded (this st) ++ noted /\
    incl noted (map Source.url srcs) /\
    (List.length noted <= List.length srcs)%nat /\
    ((exists l, r = Ok l) -> noted = map Source.url srcs).
Proof.
  induction srcs as [|src srcs IH]; intros st r st' E; simpl in E.
  - inversion E; subst. exists []. rewrite app_nil_r.
    repeat split; auto using incl_nil_l.
  - destruct (fetchSource H dest strip src st) as [r1 st1] eqn:E1.
    destruct (promiseAll (map (fetchSource H dest strip) srcs) st1)
      as [r2 st2] eqn:E2.
    destruct (IH _ _ _ E2) as (noted & Hd & Hincl & Hlen & Hok).
    destruct (fetchSource_downloaded _ _ _ _ _ _ _ E1)
      as [[-> Hd1]|[[e ->] Hd1]].
    + assert (st' = st2) as -> by (destruct r2; now inversion E).
      exists (Source.url src :: noted). rewrite Hd, Hd1, <- app_assoc.
      split; [reflexivity|]. split; [|split].
      * apply incl_cons; [now left | now apply incl_tl].
      * simpl. lia.
      * intros [l Hl]. simpl. f_equal. apply Hok.
        destruct r2 as [rest|e]; [eauto | inversion E; subst; discriminate].
    + inversion E; subst. simpl.
      exists noted. rewrite Hd, Hd1. split; [reflexivity|]. split; [|split].
      * now apply incl_tl.
      * simpl. lia.
      * intros [l Hl]. discriminate Hl.
Qed.

(** X9.  The download phase only ever adds to the list that
    [downloadedSrcs()] returns, and what it adds are urls of sources that
    match the host, at most one per matching source: a url is noted when the
    fetch and the extraction of its source have both succeeded.  When the
    phase succeeds the urls of all the matching sources have been added. *)
Theorem download_notes_downloaded (H : Host) (dest : string)
  (st st' : State) (r : Result unit) :
  Builder.download H dest st = (r, st') ->
  let urls := map Source.url
                (filter (matchesHost (process st)) (sources (this st))) in
  exists noted,
    Builder.downloadedSrcs st' = (Ok (downloaded (this st) ++ noted), st') /\
    incl noted urls /\
    (List.length noted <= List.length urls)%nat /\
    (r = Ok tt -> Permutation noted urls).
Proof.
  intros E urls. rewrite download_run in E. cbv zeta in E. subst urls.
  set (srcs := filter (matchesHost (process st)) (sources (this st))) in *.
  unfold Builder.downloadedSrcs, bind, get, ret.
  destruct (Z.of_nat (List.length srcs) <? 1) eqn:Hnone.
  - inversion E; subst. exists []. rewrite app_nil_r.
    split; [reflexivity|]. split; [apply incl_nil_l|]. split; [simpl; lia|].
    discriminate.
  - destruct (bind_inv _ _ _ _ _ E) as [(l & sa & E1 & E2)|(e & E1 & ->)].
    + inversion E2; subst.
      destruct (promiseAll_downloaded _ _ _ _ _ _ _ E1)
        as (noted & Hd & Hincl & Hlen & Hok).
      exists noted. rewrite Hd. split; [reflexivity|]. split; [exact Hincl|].
      split; [now rewrite length_map|]. intros _.
      rewrite (Hok (ex_intro _ l eq_refl)). apply Permutation_refl.
    + destruct (promiseAll_downloaded _ _ _ _ _ _ _ E1)
        as (noted & Hd & Hincl & Hlen & _).
      exists noted. rewrite Hd. split; [reflexivity|]. split; [exact Hincl|].
      split; [now rewrite length_map | discriminate].
Qed.

Lemma download_notes_downloaded_witness :
  let st := snd (Builder.ensureExist (Sample.start builderOK)) in
  let st' := snd (Builder.download Sample.host "out" st) in
  exists noted,
    Builder.downloadedSrcs st' = (Ok (downloaded (this st) ++ noted), st') /\
    incl noted ["https://example.com/tool.tgz"%string] /\
    (List.length noted <= 1)%nat /\
    (Ok tt = Ok tt -> Permutation noted ["https://example.com/tool.tgz"%string]).
Proof.
  intros st st'.
  apply (download_notes_downloaded Sample.host "out" st st' (Ok tt)).
  vm_compute. reflexivity.
Defined.

(** ** The command loop and the remap loop of [build()] *)

Lemma runExeca_trace H cmd buildDir st (r : Result Z) st' :
  Builder.runExeca H cmd buildDir st = (r, st') ->
  trace st' = trace st ++ [execEvent buildDir cmd] /\ this st' = this st.
Proof.
  unfold Builder.runExeca. rewrite (bind_ok _ _ _ _ _ (log_run _ _)).
  intros E.
  assert (Hs : steps (fun _ => False)
                 (c <- locate buildDir ;;
                  external (execa H (Command.cmd cmd) (Command.args cmd) c)))
    by steps_structure.
  assert (Hk : keeps
                 (c <- locate buildDir ;;
                  external (execa H (Command.cmd cmd) (Command.args cmd) c)))
    by keeps_structure.
  destruct (Hs _ _ _ E) as (_ & _ & _ & _ & _ & evs & Ht & Hp).
  destruct evs as [|e evs]; [|inversion Hp; contradiction].
  rewrite Ht, (Hk _ _ _ E). simpl. now rewrite app_nil_r.
Qed.

Lemma commandStep_trace H buildDir cmd st r st' :
  commandStep H buildDir cmd st = (r, st') ->
  trace st' = trace st ++ [execEvent buildDir cmd] /\ this st' = this st.
Proof.
  unfold commandStep. intros E.
  destruct (bind_inv _ _ _ _ _ E) as [(code & s1 & E1 & E2)|(e & E1 & _)].
  - assert (st' = s1) as ->
      by (destruct (negb (code =? 0)); now inversion E2).
    eapply runExeca_trace; eassumption.
  - eapply runExeca_trace; eassumption.
Qed.

Lemma forEach_commandStep_prefix H buildDir cs : forall st r st',
  forEach cs (commandStep H buildDir) st = (r, st') ->
  exists ran rest,
    cs = ran ++ rest /\
    trace st' = trace st ++ map (execEvent buildDir) ran /\
    this st' = this st /\
    (r = Ok tt -> rest = []) /\
    ((exists e, r = Throw e) -> ran <> []).
Proof.
  induction cs as [|c cs IH]; intros st r st' E; simpl in E.
  - inversion E; subst. exists [], []. simpl. rewrite app_nil_r.
    split; [reflexivity|]. split; [reflexivity|]. split; [reflexivity|].
    split; [reflexivity|]. intros [e He]. discriminate He.
  - destruct (bind_inv _ _ _ _ _ E) as [([] & s1 & E1 & E2)|(e & E1 & ->)].
    + destruct (commandStep_trace _ _ _ _ _ _ E1) as [Ht1 Hk1].
      destruct (IH _ _ _ E2) as (ran & rest & -> & Ht & Hk & Hok & _).
      exists (c :: ran), rest. split; [reflexivity|].
      rewrite Ht, Ht1, Hk, Hk1, <- app_assoc.
      split; [reflexivity|]. split; [reflexivity|]. split; [exact Hok|].
      intros _. discriminate.
    + destruct (commandStep_trace _ _ _ _ _ _ E1) as [Ht1 Hk1].
      exists [c], cs. rewrite Ht1, Hk1.
      split; [reflexivity|]. split; [reflexivity|]. split; [reflexivity|].
      split; [discriminate|]. intros _. discriminate.
Qed.

(** X10.  The commands of [build()] are run one at a time, in the order of
    the list and all in the build directory, up to the first that fails:
    the calls of [execa] made are those of a prefix of the list, the whole
    list when the loop returns and a prefix that is not empty when it
    throws.  The loop makes no other call and changes nothing in the
    builder. *)
Theorem runCommands_runs_prefix (H : Host) (buildDir : string) (st : State) :
  let r := fst (Builder.runCommands H buildDir st) in
  let st' := snd (Builder.runCommands H buildDir st) in
  exists ran rest,
    cmds (this st) = ran ++ rest /\
    trace st' = trace st ++ map (execEvent buildDir) ran /\
    this st' = this st /\
    (r = Ok tt -> rest = []) /\
    ((exists e, r = Throw e) -> ran <> []).
Proof.
  intros r st'. subst r st'. rewrite runCommands_run.
  destruct (forEach (cmds (this st)) (commandStep H buildDir) st)
    as [r st'] eqn:E.
  exact (forEach_commandStep_prefix _ _ _ _ _ _ E).
Qed.

Lemma runExeca_returns_zero H cmd buildDir st code st' :
  rejectsNonZero H ->
  Builder.runExeca H cmd buildDir st = (Ok code, st') -> code = 0.
Proof.
  intros Hrej. unfold Builder.runExeca.
  rewrite (bind_ok _ _ _ _ _ (log_run _ _)). intros E.
  destruct (bind_inv _ _ _ _ _ E) as [(c & s1 & Ec & Ex)|(e & _ & He)];
    [|discriminate He].
  unfold external in Ex.
  destruct (execa H (Command.cmd cmd) (Command.args cmd) c (fs s1))
    as [r n] eqn:Ee.
  inversion Ex; subst r. exact (Hrej _ _ _ _ _ _ Ee).
Qed.

Lemma commandStep_throws H buildDir cmd st e st' :
  rejectsNonZero H ->
  commandStep H buildDir cmd st = (Throw e, st') ->
  Builder.runExeca H cmd buildDir st = (Throw e, st').
Proof.
  intros Hrej E. unfold commandStep in E.
  destruct (bind_inv _ _ _ _ _ E) as [(code & s1 & E1 & E2)|(e' & E1 & He)].
  - rewrite (runExeca_returns_zero _ _ _ _ _ _ Hrej E1) in E2.
    discriminate E2.
  - inversion He; subst e'. exact E1.
Qed.

Lemma forEach_commandStep_throws H buildDir cs : forall st e st',
  rejectsNonZero H ->
  forEach cs (commandStep H buildDir) st = (Throw e, st') ->
  exists pre c post st1,
    cs = pre ++ c :: post /\
    forEach pre (commandStep H buildDir) st = (Ok tt, st1) /\
    Builder.runExeca H c buildDir st1 = (Throw e, st') /\
    trace st' = trace st ++ map (execEvent buildDir) (pre ++ [c]).
Proof.
  induction cs as [|c cs IH]; intros st e st' Hrej E; simpl in E.
  - discriminate E.
  - destruct (bind_inv _ _ _ _ _ E) as [([] & s1 & E1 & E2)|(e' & E1 & He)].
    + destruct (IH _ _ _ Hrej E2) as (pre & c' & post & st1 & -> & Hp & Hx & Ht).
      destruct (commandStep_trace _ _ _ _ _ _ E1) as [Ht1 _].
      exists (c :: pre), c', post, st1.
      split; [reflexivity|]. split.
      { simpl. now rewrite (bind_ok _ _ _ _ _ E1). }
      split; [exact Hx|].
      rewrite Ht, Ht1, <- app_assoc. reflexivity.
    + inversion He; subst e'. clear He.
      exists [], c, cs, st. split; [reflexivity|]. split; [reflexivity|].
      split; [now apply commandStep_throws|].
      now destruct (commandStep_trace _ _ _ _ _ _ E1) as [Ht1 _].
Qed.

(** X11.  [execa] rejects when a command exits with a code other than 0, so
    the test of the exit code in the loop never fires: whenever the loop
    throws, the error is the rejection of the call of [execa] for one of
    the commands, passed on as it is.  The commands before that one have
    returned, the calls of [execa] made are those of the commands up to and
    including it, and none of the commands after it is run. *)
Theorem runCommands_throws_rejection (H : Host) (buildDir : string)
  (st st' : State) (e : Error) :
  rejectsNonZero H ->
  Builder.runCommands H buildDir st = (Throw e, st') ->
  exists pre c post st1,
    cmds (this st) = pre ++ c :: post /\
    forEach pre (commandStep H buildDir) st = (Ok tt, st1) /\
    Builder.runExeca H c buildDir st1 = (Throw e, st') /\
    trace st' = trace st ++ map (execEvent buildDir) (pre ++ [c]).
Proof.
  intros Hrej E. rewrite runCommands_run in E.
  exact (forEach_commandStep_throws _ _ _ _ _ _ Hrej E).
Qed.

Lemma sample_rejectsNonZero : rejectsNonZero Sample.host.
Proof.
  intros cmd args cwd_ n code n'. simpl. unfold Sample.execa.
  destruct (String.eqb cmd "B" || String.eqb cmd "false"); intros E;
    now inversion E.
Qed.

(** On the sample host [A] exits with 0 and [execa] rejects for [B]. *)
Lemma runCommands_throws_rejection_witness :
  let st := Sample.start builderABC in
  let out := Builder.runCommands Sample.host "/tmp" st in
  fst out = Throw (newError "Command failed with exit code 1: B") /\
  exists pre c post st1,
    cmds (this st) = pre ++ c :: post /\
    forEach pre (commandStep Sample.host "/tmp") st = (Ok tt, st1) /\
    Builder.runExeca Sample.host c "/tmp" st1 =
      (Throw (newError "Command failed with exit code 1: B"), snd out) /\
    trace (snd out) =
      trace st ++ map (execEvent "/tmp") (pre ++ [c]).
Proof.
  intros st out.
  assert (E : Builder.runCommands Sample.host "/tmp" st =
              (Throw (newError "Command failed with exit code 1: B"), snd out))
    by (vm_compute; reflexivity).
  split; [subst out; now rewrite E|].
  exact (runCommands_throws_rejection Sample.host "/tmp" st (snd out) _
           sample_rejectsNonZero E).
Defined.

Lemma mkdirRecursive_trace p st r st' :
  mkdirRecursive p st = (r, st') ->
  trace st' = trace st ++ [EvMkdir p] /\ this st' = this st.
Proof.
  unfold mkdirRecursive. rewrite (bind_ok _ _ _ _ _ (log_run _ _)). intros E.
  assert (Hs : steps (fun _ => False) (c <- locate p ;; update (FS.mkdirp c)))
    by steps_structure.
  assert (Hk : keeps (c <- locate p ;; update (FS.mkdirp c)))
    by keeps_structure.
  destruct (Hs _ _ _ E) as (_ & _ & _ & _ & _ & evs & Ht & Hp).
  destruct evs as [|e evs]; [|inversion Hp; contradiction].
  rewrite Ht, (Hk _ _ _ E). simpl. now rewrite app_nil_r.
Qed.

Lemma remapStep_trace buildDir remap st r st' :
  remapStep buildDir remap st = (r, st') ->
  this st' = this st /\
  exists evs,
    trace st' = trace st ++ evs /\ Forall mkdirOrRename evs /\
    (filter isRename evs = [remapRename buildDir (destination (this st)) remap]
     \/ (filter isRename evs = [] /\ exists e, r = Throw e)).
Proof.
  unfold remapStep. rewrite (bind_ok _ _ _ _ _ (dest_run st)).
  set (target := destination (this st)).
  set (src := Path.join [buildDir; Remap.src remap]).
  set (dst := Path.join [target; Builder.destOrSrc remap]).
  intros E.
  destruct (bind_inv _ _ _ _ _ E) as [(present & s1 & E1 & E2)|(e & E1 & ->)].
  2:{ destruct (exists__inv _ _ _ _ E1) as [-> _].
      split; [reflexivity|]. exists []. rewrite app_nil_r.
      split; [reflexivity|]. split; [constructor|]. right. eauto. }
  destruct (exists__inv _ _ _ _ E1) as [-> _].
  destruct (bind_inv _ _ _ _ _ E2) as [([] & s2 & E3 & E4)|(e & E3 & ->)].
  - (* the parent is there or has been made; the rename is attempted *)
    pose proof (rename_trace _ _ _ _ _ E4) as Ht4.
    pose proof (keeps_rename _ _ _ _ _ E4) as Hk4.
    destruct present; simpl in E3.
    + inversion E3; subst. split; [exact Hk4|].
      exists [EvRename src dst]. split; [exact Ht4|].
      split; [repeat constructor|]. left. reflexivity.
    + destruct (mkdirRecursive_trace _ _ _ _ E3) as [Ht3 Hk3].
      split; [congruence|].
      exists [EvMkdir (Path.dirname dst); EvRename src dst].
      split; [rewrite Ht4, Ht3, <- app_assoc; reflexivity|].
      split; [repeat constructor|]. left. reflexivity.
  - destruct present; simpl in E3; [discriminate E3|].
    destruct (mkdirRecursive_trace _ _ _ _ E3) as [Ht3 Hk3].
    split; [exact Hk3|].
    exists [EvMkdir (Path.dirname dst)]. split; [exact Ht3|].
    split; [repeat constructor|]. right. eauto.
Qed.

Lemma forEach_remapStep buildDir rs : forall st r st',
  forEach rs (remapStep buildDir) st = (r, st') ->
  this st' = this st /\
  exists moved rest evs,
    rs = moved ++ rest /\
    trace st' = trace st ++ evs /\ Forall mkdirOrRename evs /\
    filter isRename evs =
      map (remapRename buildDir (destination (this st))) moved /\
    (r = Ok tt -> rest = []).
Proof.
  induction rs as [|rm rs IH]; intros st r st' E; simpl in E.
  - inversion E; subst. split; [reflexivity|].
    exists [], [], []. simpl. rewrite app_nil_r. repeat split; auto.
  - destruct (bind_inv _ _ _ _ _ E) as [([] & s1 & E1 & E2)|(e & E1 & ->)].
    + destruct (remapStep_trace _ _ _ _ _ E1)
        as (Hk1 & ev1 & Ht1 & Hp1 & [Hf1|[_ [e He]]]); [|discriminate He].
      destruct (IH _ _ _ E2)
        as (Hk & moved & rest & evs & -> & Ht & Hp & Hf & Hok).
      split; [congruence|].
      exists (rm :: moved), rest, (ev1 ++ evs). split; [reflexivity|].
      split; [rewrite Ht, Ht1, <- app_assoc; reflexivity|].
      split; [now apply Forall_app|]. split; [|exact Hok].
      rewrite filter_app, Hf1, Hf, Hk1. reflexivity.
    + destruct (remapStep_trace _ _ _ _ _ E1)
        as (Hk1 & ev1 & Ht1 & Hp1 & Hf1).
      split; [exact Hk1|].
      destruct Hf1 as [Hf1|[Hf1 _]].
      * exists [rm], rs, ev1. repeat split; auto. discriminate.
      * exists [], (rm :: rs), ev1. repeat split; auto. discriminate.
Qed.

(** X12.  With a remap list that is not empty, the only calls of the remap
    phase of [build()] are recursive [mkdir]s and [rename]s: one [rename]
    per remap, from [join(buildDir, src)] to [join(target, dest)] with
    [dest] falling back to [src], in the order of the list.  The phase
    stops at the first call that fails and undoes nothing: the calls of
    [rename] made are those for a prefix of the list, for the whole list
    when the phase returns. *)
Theorem remapFiles_renames_in_order (buildDir : string) (st st' : State)
  (r : Result unit) :
  fileRemaps (this st) <> [] ->
  Builder.remapFiles buildDir st = (r, st') ->
  exists moved rest evs,
    fileRemaps (this st) = moved ++ rest /\
    trace st' = trace st ++ evs /\ Forall mkdirOrRename evs /\
    filter isRename evs =
      map (remapRename buildDir (destination (this st))) moved /\
    (r = Ok tt -> rest = []).
Proof.
  intros Hne E.
  assert (Hrun : Builder.remapFiles buildDir st =
                 forEach (fileRemaps (this st)) (remapStep buildDir) st).
  { assert (Hr : Builder.remaps st = (Ok (fileRemaps (this st)), st))
      by reflexivity.
    unfold Builder.remapFiles. rewrite (bind_ok _ _ _ _ _ Hr).
    replace (0 <? Z.of_nat (List.length (fileRemaps (this st)))) with true.
    - rewrite (bind_ok _ _ _ _ _ Hr). reflexivity.
    - destruct (fileRemaps (this st)); [congruence|].
      symmetry. apply Z.ltb_lt. simpl List.length. lia. }
  rewrite Hrun in E.
  destruct (forEach_remapStep _ _ _ _ _ E) as (_ & Hall). exact Hall.
Qed.

Lemma remapFiles_renames_in_order_witness :
  let out := Builder.remapFiles "/tmp/b" remapStart in
  fileRemaps (this remapStart) <> [] /\
  fst out = Ok tt /\
  exists moved rest evs,
    fileRemaps (this remapStart) = moved ++ rest /\
    trace (snd out) = trace remapStart ++ evs /\ Forall mkdirOrRename evs /\
    filter isRename evs =
      map (remapRename "/tmp/b" (destination (this remapStart))) moved /\
    (fst out = Ok tt -> rest = []).
Proof.
  intros out. split; [discriminate|]. split; [vm_compute; reflexivity|].
  apply (remapFiles_renames_in_order "/tmp/b" remapStart (snd out) (fst out)).
  - discriminate.
  - subst out. apply surjective_pairing.
Defined.

(** On that state the file ends up below the target directory, in the
    directory that the remap names and that the phase has made. *)
Example remapFiles_sample :
  nodeAt "out/bin/tool" (snd (Builder.remapFiles "/tmp/b" remapStart))
  = Ok Sample.tool /\
  trace (snd (Builder.remapFiles "/tmp/b" remapStart)) =
    [EvMkdir "out/bin"; EvRename "/tmp/b/tool" "out/bin/tool"].
Proof. vm_compute. auto. Qed.

(** ** [extractZip]: a leaf that cannot be moved *)

Lemma rename_throw_fs s d st e st' :
  rename s d st = (Throw e, st') -> fs st' = fs st.
Proof.
  unfold rename. rewrite (bind_ok _ _ _ _ _ (log_run _ _)). intros E.
  destruct (bind_inv _ _ _ _ _ E) as [(a & sa & Ea & E1)|(e' & Ea & _)].
  - destruct (locate_inv _ _ _ _ Ea) as [-> _].
    destruct (bind_inv _ _ _ _ _ E1) as [(b & sb & Eb & E2)|(e' & Eb & _)].
    + destruct (locate_inv _ _ _ _ Eb) as [-> _].
      destruct (update_inv _ _ _ _ E2)
        as [(n' & _ & He & _)|(e' & _ & _ & ->)];
        [discriminate He | reflexivity].
    + now destruct (locate_inv _ _ _ _ Eb) as [-> _].
  - now destruct (locate_inv _ _ _ _ Ea) as [-> _].
Qed.

Lemma forEach_stripLeaf_throw strip leaves : forall st e st',
  forEach leaves (stripLeaf strip) st = (Throw e, st') ->
  exists done leaf rest cause st2,
    leaves = done ++ leaf :: rest /\
    forEach done (stripLeaf strip) st = (Ok tt, st2) /\
    rename leaf (stripDirs leaf strip) st2 = (Throw cause, st') /\
    e = newError ("Cannot strip " ++ showZ strip ++ " levels for "
                  ++ leaf ++ ": " ++ toString cause)%string /\
    trace st' = trace st ++ map (stripRename strip) (done ++ [leaf]).
Proof.
  induction leaves as [|l ls IH]; intros st e st' E; simpl in E.
  - discriminate E.
  - destruct (bind_inv _ _ _ _ _ E) as [([] & s1 & E1 & E2)|(e' & E1 & He)].
    + destruct (IH _ _ _ E2)
        as (done & leaf & rest & cause & st2 & -> & Hd & Hr & -> & Ht).
      exists (l :: done), leaf, rest, cause, st2.
      split; [reflexivity|]. split.
      { simpl. now rewrite (bind_ok _ _ _ _ _ E1). }
      split; [exact Hr|]. split; [reflexivity|].
      rewrite Ht, (stripLeaf_trace _ _ _ _ E1), <- app_assoc. reflexivity.
    + inversion He; subst e'. clear He.
      unfold stripLeaf, tryCatch in E1.
      destruct (rename l (stripDirs l strip) st) as [[[]|cause] s] eqn:Er.
      * discriminate E1.
      * unfold throw in E1. inversion E1; subst.
        exists [], l, ls, cause, st.
        split; [reflexivity|]. split; [reflexivity|].
        split; [exact Er|]. split; [reflexivity|].
        exact (rename_trace _ _ _ _ _ Er).
Qed.

(** X13.  When [extractZip] with a strip level fails after the archive has
    been unpacked and the leaves collected, it has failed at the first leaf
    whose [rename] is refused: the error is
    [Cannot strip <strip> levels for <leaf>: <cause>], the leaves before it
    have been moved and stay moved, the refused [rename] has changed
    nothing, and no leaf after it has been touched. *)
Theorem extractZip_strip_failure (H : Host) (filepath dest : string)
  (strip : Z) (leaves : list string) (st st1 st' : State) (e : Error) :
  zipDecode H filepath dest st = (Ok tt, st1) ->
  walkDir dest (strip + 1) 0 st1 = (Ok leaves, st1) ->
  extractZip H filepath dest (Some strip) st = (Throw e, st') ->
  exists done leaf rest cause st2,
    leaves = done ++ leaf :: rest /\
    forEach done (stripLeaf strip) st1 = (Ok tt, st2) /\
    rename leaf (stripDirs leaf strip) st2 = (Throw cause, st') /\
    e = newError ("Cannot strip " ++ showZ strip ++ " levels for "
                  ++ leaf ++ ": " ++ toString cause)%string /\
    fs st' = fs st2 /\
    trace st' = trace st1 ++ map (stripRename strip) (done ++ [leaf]).
Proof.
  intros Hzip Hwalk E. unfold extractZip in E.
  rewrite (bind_ok _ _ _ _ _ Hzip), (bind_ok _ _ _ _ _ Hwalk) in E.
  destruct (forEach_stripLeaf_throw _ _ _ _ _ E)
    as (done & leaf & rest & cause & st2 & Hl & Hd & Hr & He & Ht).
  exists done, leaf, rest, cause, st2.
  repeat (split; [assumption|]).
  split; [exact (rename_throw_fs _ _ _ _ _ Hr) | exact Ht].
Qed.

Lemma extractZip_strip_failure_witness :
  let out := extractZip Sample.host "/tmp/a.zip" "out" (Some 1) zipClash in
  fst out =
    Throw (newError
             "Cannot strip 1 levels for out/pkg/tool: Error: EISDIR: rename") /\
  exists done leaf rest cause st2,
    ["out/README"; "out/pkg/tool"]%string = done ++ leaf :: rest /\
    forEach done (stripLeaf 1)
      (snd (zipDecode Sample.host "/tmp/a.zip" "out" zipClash))
      = (Ok tt, st2) /\
    rename leaf (stripDirs leaf 1) st2 = (Throw cause, snd out) /\
    fst out = Throw (newError ("Cannot strip " ++ showZ 1 ++ " levels for "
                  ++ leaf ++ ": " ++ toString cause)%string) /\
    fs (snd out) = fs st2 /\
    trace (snd out) =
      trace (snd (zipDecode Sample.host "/tmp/a.zip" "out" zipClash))
      ++ map (stripRename 1) (done ++ [leaf]).
Proof.
  intros out. split; [vm_compute; reflexivity|].
  destruct (extractZip_strip_failure Sample.host "/tmp/a.zip" "out" 1
              ["out/README"; "out/pkg/tool"]%string zipClash
              (snd (zipDecode Sample.host "/tmp/a.zip" "out" zipClash))
              (snd out)
              (newError
                 "Cannot strip 1 levels for out/pkg/tool: Error: EISDIR: rename")
              eq_refl eq_refl eq_refl)
    as (done & leaf & rest & cause & st2 & Hl & Hd & Hr & He & Hf & Ht).
  exists done, leaf, rest, cause, st2.
  split; [exact Hl|]. split; [exact Hd|]. split; [exact Hr|].
  split; [subst out; vm_compute fst; exact (f_equal Throw He)|].
  split; [exact Hf | exact Ht].
Defined.

(** ** [stripDirs] on absolute paths *)

Lemma join_skip_empty (l : list string) : Path.join (""%string :: l) = Path.join l.
Proof. reflexivity. Qed.

Lemma dirname_root_leaf leaf :
  proper leaf = true -> Path.dirname (String "/" leaf) = "/"%string.
Proof.
  intros Hp. destruct (proper_rev_chars _ Hp) as [Hall (c & l & E & Hc)].
  unfold Path.dirname. simpl. fold (Path.chars leaf).
  rewrite E in *. simpl. rewrite Hc.
  now rewrite dropWhile_all by assumption.
Qed.

Lemma dirname_root_snoc d leaf :
  d <> ""%string -> proper leaf = true ->
  Path.dirname (String "/" (d ++ String "/" leaf)) = String "/" d.
Proof.
  intros Hne Hp.
  destruct (proper_rev_chars _ Hp) as [Hall (c & l & E & Hc)].
  unfold Path.dirname. simpl. fold (Path.chars (d ++ String "/" leaf)).
  rewrite chars_app. simpl. fold (Path.chars leaf).
  rewrite rev_app_distr. simpl. rewrite <- app_assoc. simpl.
  rewrite E. simpl. rewrite Hc. simpl.
  assert (Hnc : Path.not_sep c = true)
    by (unfold Path.not_sep; now rewrite Hc).
  rewrite Hnc.
  rewrite E in Hall. simpl in Hall. apply andb_true_iff in Hall.
  destruct Hall as [_ Hl].
  rewrite dropWhile_stop by (assumption || reflexivity).
  rewrite length_rev.
  destruct d as [|c0 d']; [congruence|]. simpl List.length. simpl Nat.eqb.
  rewrite rev_involutive.
  change (Path.str ("/"%char :: Path.chars (String c0 d')) = String "/" (String c0 d')).
  unfold Path.str. simpl. do 2 f_equal. apply str_chars.
Qed.

(** [stripDirs] on a normalized absolute path [/ds/leaf]: the pieces that
    the function reads.  The leading separator gives [split] an empty first
    component. *)
Lemma stripDirs_pieces_absolute ds leaf :
  forallb proper (ds ++ [leaf]) = true ->
  Path.basename (String "/" (String.concat "/" (ds ++ [leaf]))) = leaf /\
  Path.split (Path.dirname (String "/" (String.concat "/" (ds ++ [leaf])))) =
    match ds with [] => [""%string; ""%string] | _ => ""%string :: ds end.
Proof.
  intros Hall. destruct (forallb_snoc _ _ _ Hall) as [Hds Hleaf].
  destruct ds as [|d ds'].
  - simpl String.concat. split.
    + exact (basename_snoc ""%string leaf Hleaf).
    + now rewrite dirname_root_leaf.
  - rewrite concat_snoc by discriminate.
    destruct (concat_proper_shape (d :: ds')) as [Hnil Habs];
      [discriminate | assumption |].
    split.
    + exact (basename_snoc (String "/" (String.concat "/" (d :: ds'))) leaf
               Hleaf).
    + rewrite dirname_root_snoc; try assumption.
      * change (Path.split (String "/" (String.concat "/" (d :: ds'))))
          with (""%string :: Path.split (String.concat "/" (d :: ds'))).
        f_equal.
        apply split_concat; [discriminate | now apply forallb_proper_segment].
      * intros E. rewrite E in Hnil. discriminate.
Qed.

Lemma stripDirs_absolute (ds : list string) (leaf : string) (n : Z) :
  forallb proper (ds ++ [leaf]) = true ->
  stripDirs ("/" ++ String.concat "/" (ds ++ [leaf])) n =
    if (0 <? n) && (n <=? Z.of_nat (List.length ds) + 1)
    then String.concat "/" (firstn (List.length ds - Z.to_nat n) ds ++ [leaf])
    else String.concat "/" (ds ++ [leaf]).
Proof.
  intros Hall. destruct (forallb_snoc _ _ _ Hall) as [Hds Hleaf].
  destruct (stripDirs_pieces_absolute _ _ Hall) as [Hbase Hdirs].
  change ("/" ++ String.concat "/" (ds ++ [leaf]))%string
    with (String "/" (String.concat "/" (ds ++ [leaf]))).
  unfold stripDirs. rewrite Hbase, Hdirs.
  assert (Hjl : Path.join [leaf] = leaf).
  { apply (join_proper [] leaf). simpl. now rewrite Hleaf. }
  destruct ds as [|d ds'].
  - (* [/leaf]: [dirs] is [[""; ""]] *)
    assert (Hrhs : (if (0 <? n) && (n <=? Z.of_nat (List.length (@nil string)) + 1)
                    then String.concat "/"
                           (firstn (List.length (@nil string) - Z.to_nat n) []
                            ++ [leaf])
                    else String.concat "/" ([] ++ [leaf])) = leaf).
    { rewrite firstn_nil. now destruct (_ && _). }
    rewrite Hrhs.
    destruct (Z.of_nat (List.length [""%string; ""%string]) <? n).
    + exact Hjl.
    + rewrite popN_firstn.
      destruct (List.length [""%string; ""%string] - Z.to_nat n)%nat
        as [|[|j]]; simpl firstn; try exact Hjl.
      destruct j; exact Hjl.
  - set (dsa := d :: ds') in *.
    change (List.length (""%string :: dsa)) with (S (List.length dsa)).
    destruct (Z.ltb_spec (Z.of_nat (S (List.length dsa))) n) as [Hn|Hn].
    + replace ((0 <? n) && (n <=? Z.of_nat (List.length dsa) + 1))
        with false by lia.
      change ((""%string :: dsa) ++ [leaf]) with (""%string :: (dsa ++ [leaf])).
      rewrite join_skip_empty. now apply join_proper.
    + rewrite popN_firstn.
      change (List.length (""%string :: dsa)) with (S (List.length dsa)).
      destruct (Z.ltb_spec 0 n) as [Hp|Hp]; cbn [andb].
      * replace (n <=? Z.of_nat (List.length dsa) + 1) with true by lia.
        destruct (Z.to_nat n) as [|m] eqn:Em; [lia|].
        change (S (List.length dsa) - S m)%nat with (List.length dsa - m)%nat.
        destruct (List.length dsa - m)%nat as [|j] eqn:Ej.
        -- replace (List.length dsa - S m)%nat with 0%nat by lia.
           simpl firstn. exact Hjl.
        -- replace (List.length dsa - S m)%nat with j by lia.
           change (firstn (S j) (""%string :: dsa))
             with (""%string :: firstn j dsa).
           change ((""%string :: firstn j dsa) ++ [leaf])
             with (""%string :: (firstn j dsa ++ [leaf])).
           rewrite join_skip_empty. apply join_proper.
           rewrite forallb_app, forallb_firstn by assumption.
           simpl. now rewrite Hleaf.
      * replace (Z.to_nat n) with 0%nat by lia.
        rewrite Nat.sub_0_r, firstn_all2 by (simpl; lia).
        change ((""%string :: dsa) ++ [leaf])
          with (""%string :: (dsa ++ [leaf])).
        rewrite join_skip_empty. now apply join_proper.
Qed.

(** X14.  On an absolute path in normal form, [/ds/leaf] with [k] directory
    components, the leading separator is lost at every level: it gives
    [split] an empty first component, which [path.join] ignores but which
    the levels count.  Levels [1 <= n <= k] remove the [n] directory
    components next to the leaf, level [k + 1] removes them all (on the
    relative path [ds/leaf] that level removes nothing), and every other
    level removes none. *)
Theorem stripDirs_normal_absolute (ds : list string) (leaf : string) (n : Z) :
  forallb proper (ds ++ [leaf]) = true ->
  stripDirs ("/" ++ String.concat "/" (ds ++ [leaf])) n =
    if (0 <? n) && (n <=? Z.of_nat (List.length ds) + 1)
    then String.concat "/" (firstn (List.length ds - Z.to_nat n) ds ++ [leaf])
    else String.concat "/" (ds ++ [leaf]).
Proof. exact (stripDirs_absolute ds leaf n). Qed.

(** The path [/out/pkg/tool] at levels 1, 3 and 0. *)
Lemma stripDirs_normal_absolute_witness :
  forallb proper (["out"; "pkg"] ++ ["tool"])%list = true /\
  stripDirs "/out/pkg/tool" 1 = "out/tool"%string /\
  stripDirs "/out/pkg/tool" 3 = "tool"%string /\
  stripDirs "/out/pkg/tool" 0 = "out/pkg/tool"%string.
Proof.
  split; [reflexivity|].
  split; [exact (stripDirs_normal_absolute ["out"; "pkg"] "tool" 1 eq_refl)|].
  split; [exact (stripDirs_normal_absolute ["out"; "pkg"] "tool" 3 eq_refl)|].
  exact (stripDirs_normal_absolute ["out"; "pkg"] "tool" 0 eq_refl).
Defined.

(** ** The first revision of [builder.ts] *)

Lemma existsSync_outcome p st :
  existsSync p st =
  (Ok (match accessOf p st with Ok _ => true | Throw _ => false end), st).
Proof.
  unfold existsSync, tryCatch, statNode, bind, locate, accessOf, nodeAt.
  destruct (String.eqb p ""); [reflexivity|].
  simpl. now destruct (FS.stat _ _).
Qed.

Lemma ensureExistV0_run H st :
  BuilderV0.ensureExist H st =
  match accessOf (destination (this st)) st with
  | Ok _ => (Ok tt, st)
  | Throw _ =>
      (mkdirRecursive (destination (this st)) ;; BuilderV0.download H) st
  end.
Proof.
  unfold BuilderV0.ensureExist. rewrite (bind_ok _ _ _ _ _ (dest_run st)).
  rewrite (bind_ok _ _ _ _ _ (existsSync_outcome _ st)).
  destruct (accessOf (destination (this st)) st); [reflexivity|].
  rewrite (bind_ok _ _ _ _ _ (dest_run st)). reflexivity.
Qed.

Lemma commandStepV0_run H cmd st :
  commandStepV0 H cmd st = commandStep H (destination (this st)) cmd st.
Proof. reflexivity. Qed.

Lemma forEach_commandStepV0 H cs : forall st,
  forEach cs (commandStepV0 H) st =
  forEach cs (commandStep H (destination (this st))) st.
Proof.
  induction cs as [|c cs IH]; intros st; [reflexivity|].
  simpl.
  destruct (commandStep H (destination (this st)) c st) as [[[]|e] s1] eqn:E1.
  - destruct (commandStep_trace _ _ _ _ _ _ E1) as [_ Hk].
    rewrite (bind_ok _ _ _ _ _ E1).
    rewrite <- commandStepV0_run in E1. rewrite (bind_ok _ _ _ _ _ E1).
    rewrite IH, Hk. reflexivity.
  - rewrite (bind_throw _ _ _ _ _ E1).
    rewrite <- commandStepV0_run in E1. now rewrite (bind_throw _ _ _ _ _ E1).
Qed.

Lemma buildV0_run H st :
  BuilderV0.build H st =
  (BuilderV0.ensureExist H ;;
   (fun s => forEach (cmds (this s)) (commandStepV0 H) s)) st.
Proof. reflexivity. Qed.

(** X15.  In the first revision a target that exists counts as downloaded,
    whatever it is and whatever it holds: [build()] then makes no call but
    those of [execa], for the commands in order up to the first that fails,
    each run in the target directory; nothing is fetched, copied or
    unpacked, and the builder is left as it is. *)
Theorem buildV0_existing_target (H : Host) (st : State) (n : node) :
  accessOf (destination (this st)) st = Ok n ->
  let r := fst (BuilderV0.build H st) in
  let st' := snd (BuilderV0.build H st) in
  exists ran rest,
    cmds (this st) = ran ++ rest /\
    trace st' = trace st ++ map (execEvent (destination (this st))) ran /\
    this st' = this st /\
    (r = Ok tt -> rest = []) /\
    ((exists e, r = Throw e) -> ran <> []).
Proof.
  intros Hacc r st'. subst r st'. rewrite buildV0_run.
  assert (He : BuilderV0.ensureExist H st = (Ok tt, st))
    by (rewrite ensureExistV0_run, Hacc; reflexivity).
  rewrite (bind_ok _ _ _ _ _ He), forEach_commandStepV0.
  destruct (forEach (cmds (this st))
              (commandStep H (destination (this st))) st) as [r st'] eqn:E.
  exact (forEach_commandStep_prefix _ _ _ _ _ _ E).
Qed.

Lemma buildV0_existing_target_witness :
  let st := with_this builderABC zipClash in
  fst (BuilderV0.build Sample.host st) =
    Throw (newError "Command failed with exit code 1: B") /\
  exists ran rest,
    cmds (this st) = ran ++ rest /\
    trace (snd (BuilderV0.build Sample.host st)) =
      trace st ++ map (execEvent "out") ran /\
    this (snd (BuilderV0.build Sample.host st)) = this st /\
    (fst (BuilderV0.build Sample.host st) = Ok tt -> rest = []) /\
    ((exists e, fst (BuilderV0.build Sample.host st) = Throw e) -> ran <> []).
Proof.
  intros st. split; [vm_compute; reflexivity|].
  exact (buildV0_existing_target Sample.host st (Dir [("tool"%string, Dir [])])
           eq_refl).
Defined.

(** X16.  In the first revision every promise is awaited: when the call of
    [execa] for a command rejects, as it does for a command that exits with
    a code other than 0, after [ensureExist()] has returned and the
    commands before it have returned, [build()] itself rejects with that
    error as it is; the calls of [execa] made are those of the commands up
    to and including that one, each in the target directory, and none of
    the commands after it is run. *)
Theorem buildV0_command_failure (H : Host) (pre post : list Command.t)
  (c : Command.t) (st st0 st1 st2 : State) (e : Error) :
  BuilderV0.ensureExist H st = (Ok tt, st0) ->
  cmds (this st0) = pre ++ c :: post ->
  forEach pre (commandStepV0 H) st0 = (Ok tt, st1) ->
  Builder.runExeca H c (destination (this st1)) st1 = (Throw e, st2) ->
  BuilderV0.build H st = (Throw e, st2) /\
  trace st2 =
    trace st0 ++ map (execEvent (destination (this st0))) (pre ++ [c]).
Proof.
  intros He Hc Hpre Hexec.
  assert (Hpre' := Hpre). rewrite forEach_commandStepV0 in Hpre'.
  destruct (forEach_commandStep_prefix _ _ _ _ _ _ Hpre')
    as (ran & rest & Hsplit & Ht & Hk & Hok & _).
  rewrite (Hok eq_refl), app_nil_r in Hsplit. subst ran.
  split.
  - rewrite buildV0_run, (bind_ok _ _ _ _ _ He), Hc.
    eapply forEach_halts; [eassumption|].
    rewrite commandStepV0_run. unfold commandStep.
    now rewrite (bind_throw _ _ _ _ _ Hexec).
  - destruct (runExeca_trace _ _ _ _ _ _ Hexec) as [Ht2 _].
    rewrite Ht2, Ht, Hk, map_app, <- app_assoc. reflexivity.
Qed.

Lemma buildV0_command_failure_witness :
  fst (BuilderV0.build Sample.host (Sample.start builderABC)) =
    Throw (newError "Command failed with exit code 1: B") /\
  filter isExec
    (trace (snd (BuilderV0.build Sample.host (Sample.start builderABC)))) =
    [EvExec "A" None "out"; EvExec "B" None "out"].
Proof.
  set (st := Sample.start builderABC).
  set (st0 := snd (BuilderV0.ensureExist Sample.host st)).
  set (st1 := snd (forEach [Command.mk "A" None]
                     (commandStepV0 Sample.host) st0)).
  set (st2 := snd (Builder.runExeca Sample.host (Command.mk "B" None)
                     (destination (this st1)) st1)).
  assert (H0 : BuilderV0.ensureExist Sample.host st = (Ok tt, st0))
    by (vm_compute; reflexivity).
  assert (Hc : cmds (this st0) =
               [Command.mk "A" None] ++ Command.mk "B" None
               :: [Command.mk "C" None])
    by (vm_compute; reflexivity).
  assert (H1 : forEach [Command.mk "A" None] (commandStepV0 Sample.host) st0
               = (Ok tt, st1))
    by (vm_compute; reflexivity).
  assert (H2 : Builder.runExeca Sample.host (Command.mk "B" None)
                 (destination (this st1)) st1 =
               (Throw (newError "Command failed with exit code 1: B"), st2))
    by (vm_compute; reflexivity).
  destruct (buildV0_command_failure Sample.host _ _ _ st st0 st1 st2 _
              H0 Hc H1 H2) as [Hb _].
  split; [rewrite Hb; reflexivity | vm_compute; reflexivity].
Defined.

(** X17.  In the first revision, when nothing is at the target and no
    source matches the host, [ensureExist()] fails with
    [No binary for <os>-<arch>] after it has made the target directory,
    and leaves it there: called again it finds the directory and returns
    as if the sources had been downloaded. *)
Theorem ensureExistV0_no_source (H : Host) (st st1 : State) (e : Error) :
  accessOf (destination (this st)) st = Throw e ->
  mkdirRecursive (destination (this st)) st = (Ok tt, st1) ->
  filter (matchesHost (process st)) (sources (this st)) = [] ->
  BuilderV0.ensureExist H st =
    (Throw (newError ("No binary for " ++ platform (process st) ++ "-"
                      ++ arch (process st))%string), st1) /\
  (exists es, nodeAt (destination (this st)) st1 = Ok (Dir es)) /\
  BuilderV0.ensureExist H st1 = (Ok tt, st1).
Proof.
  intros Hacc Hmk Hnone.
  destruct (mkdirRecursive_inv _ _ _ Hmk) as (n' & Hn' & Hst1).
  destruct (mkdirp_stat _ _ _ Hn') as [es Hes].
  assert (Hnil : String.eqb (destination (this st)) "" = false).
  { destruct (String.eqb (destination (this st)) "") eqn:Hn; [|reflexivity].
    unfold mkdirRecursive in Hmk.
    rewrite (bind_ok _ _ _ _ _ (log_run _ _)) in Hmk.
    unfold bind, locate in Hmk. simpl in Hmk. rewrite Hn in Hmk.
    discriminate Hmk. }
  assert (Hat : nodeAt (destination (this st)) st1 = Ok (Dir es))
    by (subst st1; exact Hes).
  assert (Hthis : this st1 = this st) by (subst st1; reflexivity).
  assert (Hproc : process st1 = process st) by (subst st1; reflexivity).
  split; [|split; [exists es; exact Hat|]].
  - rewrite ensureExistV0_run, Hacc, (bind_ok _ _ _ _ _ Hmk).
    unfold BuilderV0.download, Builder.getSrcs.
    unfold bind at 1. unfold bind at 1. unfold get, ret. cbv zeta.
    change (fun src : Source.t =>
              String.eqb (Source.os src) (platform (process st1)) &&
              String.eqb (Source.arch src) (arch (process st1)))
      with (matchesHost (process st1)).
    rewrite <- Hproc, <- Hthis in Hnone. rewrite <- Hproc, Hnone.
    reflexivity.
  - rewrite ensureExistV0_run, Hthis. unfold accessOf.
    rewrite Hnil, Hat. reflexivity.
Qed.

Lemma ensureExistV0_no_source_witness :
  let st := Sample.start builderDarwin in
  let st1 := snd (mkdirRecursive "out" st) in
  BuilderV0.ensureExist Sample.host st =
    (Throw (newError "No binary for linux-x64"), st1) /\
  (exists es, nodeAt "out" st1 = Ok (Dir es)) /\
  BuilderV0.ensureExist Sample.host st1 = (Ok tt, st1).
Proof.
  intros st st1.
  apply (ensureExistV0_no_source Sample.host st st1 (sysError "ENOENT" "out"));
    vm_compute; reflexivity.
Defined.

(** ** Zip sources in the build directory *)

(** Below an absolute directory the target that [extractZip] gives to
    [rename] at level 1 is a relative path: it is resolved against the
    working directory of the process, not against the directory that was
    unpacked into. *)
Lemma stripDirs_absolute_target_relative (ds : list string) (leaf : string) :
  forallb proper (ds ++ [leaf]) = true ->
  Path.isAbsolute
    (stripDirs ("/" ++ String.concat "/" (ds ++ [leaf])) 1) = false.
Proof.
  intros Hall. destruct (forallb_snoc _ _ _ Hall) as [Hds Hleaf].
  rewrite stripDirs_absolute by assumption.
  destruct ((0 <? 1) && (1 <=? Z.of_nat (List.length ds) + 1)).
  - apply concat_proper_shape; [now destruct (firstn _ ds)|].
    rewrite forallb_app, forallb_firstn by assumption.
    simpl. now rewrite Hleaf.
  - apply concat_proper_shape; [now destruct ds | assumption].
Qed.

(** C10.  The download phase hands strip level 1 to the pipeline for every
    matching source, but for a zip source no leading component is stripped:
    the build directory is absolute, [stripDirs] loses the leading
    separator of every leaf below it, and the first [rename] goes to a
    relative path that is resolved against the working directory, where it
    is refused.  On the sample host, whose zip archive holds [README] and
    [pkg/tool], the phase throws [Cannot strip 1 levels for ...] at the
    first leaf, the entries are still where the decoder has put them, with
    [tool] below [pkg], and no source is noted as downloaded. *)
Theorem download_zip_source_not_stripped :
  (forall (ds : list string) (leaf : string),
     forallb proper (ds ++ [leaf]) = true ->
     Path.isAbsolute
       (stripDirs ("/" ++ String.concat "/" (ds ++ [leaf])) 1) = false) /\
  (let st := Sample.start builderZip in
   let st1 := snd (Builder.ensureExist st) in
   let st0 := snd (freshTempDir Sample.host st1) in
   let out := Builder.download Sample.host "/tmp/binbuild-0" st0 in
   freshTempDir Sample.host st1 = (Ok "/tmp/binbuild-0"%string, st0) /\
   (exists cause,
      fst out =
        Throw (newError ("Cannot strip 1 levels for /tmp/binbuild-0/README: "
                         ++ toString cause)%string) /\
      hasCode "ENOENT" cause = true) /\
   filter isRename (trace (snd out)) =
     [EvRename "/tmp/binbuild-0/README" "tmp/README"] /\
   nodeAt "/tmp/binbuild-0/README" (snd out) = Ok Sample.readme /\
   nodeAt "/tmp/binbuild-0/pkg/tool" (snd out) = Ok Sample.tool /\
   downloaded (this (snd out)) = [] /\
   detached (Builder.build Sample.host st) = Some (fst out)).
Proof.
  split.
  - exact stripDirs_absolute_target_relative.
  - cbv zeta. split; [vm_compute; reflexivity|]. split.
    + exists (sysError "ENOENT" "tmp"). split; vm_compute; reflexivity.
    + repeat split; vm_compute; reflexivity.
Qed.
